(** * AudioProcessingImpl: the orchestration engine of the audio processing module

    A shallow embedding of
    [src/modules/audio_processing/main/source/audio_processing_impl.cc].

    The engine is a stateful C++ object.  Its members become the fields of
    the record [Apm]; every member function becomes a computation in the
    monad [M], which threads the engine state, may be undefined (a null
    buffer pointer handed on, a write outside the caller's buffer) and
    reports the calls it makes to its collaborators as a list of [Event]s:
    the critical section, the debug file, the seven processing components
    and the two audio buffers.  The collaborators themselves live in other
    files; they are interfaces here ([AudioBufferOps], [FileWrapperOps],
    [ProcessingComponentOps]) and every theorem holds for all their
    implementations. *)

From Stdlib Require Import ZArith List String Ascii Bool Lia.
Import ListNotations.
Open Scope Z_scope.

Set Implicit Arguments.

(** ** Constants *)

(** Modelled from the spec: [enum Error] is declared in audio_processing.h,
    which is not among the sources; section 6 of the specification lists the
    error kinds "enumerated, not literal codes".  A component may return any
    other [int]; those values are [kOtherError code]. *)
Inductive Error : Type :=
| kNoError
| kNullPointerError
| kBadParameterError
| kBadSampleRateError
| kBadDataLengthError
| kBadNumberChannelsError
| kFileError
| kBadStreamParameterWarning
| kOtherError (code : Z).

(** The test [err != kNoError] is written [negb (is_ok err)]. *)
Definition is_ok (err : Error) : bool :=
  match err with
  | kNoError => true
  | _ => false
  end.

(** Modelled from the spec: [kSampleRate8kHz], [kSampleRate16kHz] and
    [kSampleRate32kHz] are declared in audio_processing.h; the specification
    gives their values as 8000, 16000 and 32000. *)
Definition kSampleRate8kHz : Z := 8000.
Definition kSampleRate16kHz : Z := 16000.
Definition kSampleRate32kHz : Z := 32000.

(** [enum Events { kInitializeEvent, kRenderEvent, kCaptureEvent }]. *)
Inductive Events : Type :=
| kInitializeEvent
| kRenderEvent
| kCaptureEvent.

(** The value a C++ enumerator without initialiser has. *)
Definition event_tag (e : Events) : Z :=
  match e with
  | kInitializeEvent => 0
  | kRenderEvent => 1
  | kCaptureEvent => 2
  end.

Definition kMagicNumber : string := "#!vqetrace1.2".

(** The line feed that ends the text written by [WriteText("%s\n", ...)]. *)
Definition newline : string := String (ascii_of_nat 10) EmptyString.

(** ** Machine integers and C strings *)

(** [static_cast<WebRtc_UWord32>(x)], and arithmetic on [WebRtc_UWord32]. *)
Definition to_uword32 (x : Z) : Z := x mod 2 ^ 32.

(** [sizeof(WebRtc_UWord8)], [sizeof(WebRtc_UWord32)], [sizeof(int)] and
    [sizeof(WebRtc_Word16)] on the targets of the library. *)
Definition sizeof_uword8 : Z := 1.
Definition sizeof_uword32 : Z := 4.
Definition sizeof_int : Z := 4.
Definition sizeof_word16 : Z := 2.

(** The bytes of a string literal, without the terminating NUL. *)
Definition bytes_of_string (s : string) : list Z :=
  map (fun a => Z.of_nat (nat_of_ascii a)) (list_ascii_of_string s).

(** [strlen] on a byte array: the number of bytes before the first NUL
    (the whole array when it holds none). *)
Fixpoint strlen (l : list Z) : Z :=
  match l with
  | [] => 0
  | c :: l' => if c =? 0 then 0 else 1 + strlen l'
  end.

(** The array [buf] with the elements from index [a] on replaced by those of
    [mid]. *)
Definition splice (buf : list Z) (a : nat) (mid : list Z) : list Z :=
  firstn a buf ++ mid ++ skipn (a + List.length mid) buf.

(** The byte at index [i], if the array has one there. *)
Definition byte (buf : list Z) (i : Z) : option Z :=
  nth_error buf (Z.to_nat i).

(** [memset(&buf[pos], c, n)].  Writing outside the array is undefined. *)
Definition memset (buf : list Z) (pos c n : Z) : option (list Z) :=
  if (0 <=? pos) && (0 <=? n) && (pos + n <=? Z.of_nat (List.length buf)) then
    Some (firstn (Z.to_nat pos) buf ++ repeat c (Z.to_nat n)
            ++ skipn (Z.to_nat (pos + n)) buf)
  else None.

(** [memcpy(&buf[pos], src, n)].  Reading or writing outside either array
    is undefined. *)
Definition memcpy (buf : list Z) (pos : Z) (src : list Z) (n : Z)
  : option (list Z) :=
  if (0 <=? pos) && (0 <=? n) && (pos + n <=? Z.of_nat (List.length buf))
     && (n <=? Z.of_nat (List.length src)) then
    Some (firstn (Z.to_nat pos) buf ++ firstn (Z.to_nat n) src
            ++ skipn (Z.to_nat (pos + n)) buf)
  else None.

(** ** The seven components *)

(** One name per member pointer of the engine. *)
Inductive ComponentId : Type :=
| echo_cancellation_
| echo_control_mobile_
| gain_control_
| high_pass_filter_
| level_estimator_
| noise_suppression_
| voice_detection_.

(** [component_list_], in the order of the constructor's [push_back]s. *)
Definition component_list_ : list ComponentId :=
  [ echo_cancellation_; echo_control_mobile_; gain_control_;
    high_pass_filter_; level_estimator_; noise_suppression_;
    voice_detection_ ].

(** The member functions of a component that the engine calls. *)
Inductive Method : Type :=
| M_Initialize
| M_ProcessCaptureAudio
| M_AnalyzeCaptureAudio
| M_ProcessRenderAudio
| M_get_version.

(** ** Frames *)

(** Modelled from the spec: [AudioFrame] is declared in
    module_common_types.h, which is not among the sources.  Section 6 of the
    specification gives its fields: the frequency is a 32-bit unsigned
    integer, the channel count and the payload length are integers, the
    payload is an array of 16-bit samples. *)
Record AudioFrame : Type := mkAudioFrame {
  _frequencyInHz : Z;
  _audioChannel : Z;
  _payloadDataLengthInSamples : Z;
  _payloadData : list Z
}.

Definition set_audioChannel (n : Z) (f : AudioFrame) : AudioFrame :=
  {| _frequencyInHz := _frequencyInHz f;
     _audioChannel := n;
     _payloadDataLengthInSamples := _payloadDataLengthInSamples f;
     _payloadData := _payloadData f |}.

(** ** What a call lets the outside see *)

Inductive BufferId : Type :=
| capture_audio
| render_audio.

Inductive BufferOp : Type :=
| B_new (channels samples_per_channel : Z)
| B_DeinterleaveFrom
| B_Mix (num_mixed_channels : Z)
| B_SplittingFilterAnalysis (channel : Z)
| B_SplittingFilterSynthesis (channel : Z)
| B_CopyLowPassToReference
| B_InterleaveTo.

(** A call of the engine to one of its collaborators, with the answer where
    the engine looks at it.  [Write obj nbytes ok] is
    [debug_file_->Write(&obj, nbytes)]: [obj] lists the integers stored in
    the object written (one for a scalar, the samples for an array). *)
Inductive Event : Type :=
| Enter
| Leave
| CloseFile (result : Z)
| OpenFile (name : string) (read_only : bool) (result : Z)
| WriteText (text : string) (result : Z)
| Write (obj : list Z) (nbytes : Z) (ok : bool)
| Call (c : ComponentId) (m : Method) (result : Error)
| IsEnabled (c : ComponentId) (enabled : bool)
| Buffer (b : BufferId) (op : BufferOp).

(** ** The monad of member functions *)

Section Monad.

Variable St : Type.

(** A member function maps the state of the engine to its result, the new
    state and the calls it made, or to nothing where C++ leaves the
    behaviour undefined. *)
Definition M (A : Type) : Type := St -> option (A * St * list Event).

Definition ret {A : Type} (a : A) : M A :=
  fun s => Some (a, s, []).

Definition bind {A B : Type} (m : M A) (k : A -> M B) : M B :=
  fun s =>
    match m s with
    | None => None
    | Some (a, s1, e1) =>
        match k a s1 with
        | None => None
        | Some (b, s2, e2) => Some (b, s2, e1 ++ e2)
        end
    end.

Definition get : M St :=
  fun s => Some (s, s, []).

Definition modify (f : St -> St) : M unit :=
  fun s => Some (tt, f s, []).

Definition emit (e : Event) : M unit :=
  fun s => Some (tt, s, [e]).

Definition undefined {A : Type} : M A :=
  fun _ => None.

End Monad.

Arguments undefined {St A}.
Arguments get {St}.

Notation "x <- m ;; k" := (bind m (fun x => k))
  (at level 61, m at next level, right associativity).
Notation "m ;; k" := (bind m (fun _ => k))
  (at level 61, right associativity).

(** [err = m; if (err != kNoError) { return err; }] followed by [k]. *)
Definition check {St : Type} (m : M St Error) (k : M St Error) : M St Error :=
  err <- m ;;
  if is_ok err then k else ret err.

(** [CriticalSectionScoped crit_scoped( *crit_)] as the first statement of a
    function body: the section is entered there and left at every return. *)
Definition locked {St A : Type} (body : M St A) : M St A :=
  emit Enter ;;
  r <- body ;;
  emit Leave ;;
  ret r.

(** [for (int i = 0; i < count; i++) body(i)]. *)
Fixpoint for_from {St : Type} (i : Z) (iterations : nat) (body : Z -> M St unit)
  : M St unit :=
  match iterations with
  | O => ret tt
  | S n => body i ;; for_from (i + 1) n body
  end.

Definition for_channels {St : Type} (count : Z) (body : Z -> M St unit)
  : M St unit :=
  for_from 0 (Z.to_nat count) body.

(** ** What a computation may do *)

(** [keeps proj allowed m]: whenever [m] returns, the part [proj] of the
    state is what it was and every call made is an [allowed] one. *)
Definition keeps {St B A : Type} (proj : St -> B) (allowed : Event -> bool)
    (m : M St A) : Prop :=
  forall s r s' evs,
    m s = Some (r, s', evs) ->
    proj s' = proj s /\ forallb allowed evs = true.

(** [total inv m post]: from every state with [inv], [m] is defined, ends in
    a state with [inv], and its result and calls satisfy [post]. *)
Definition total {St A : Type} (inv : St -> Prop) (m : M St A)
    (post : A -> list Event -> Prop) : Prop :=
  forall s,
    inv s ->
    exists r s' evs, m s = Some (r, s', evs) /\ inv s' /\ post r evs.

Definition is_lock_event (e : Event) : bool :=
  match e with
  | Enter | Leave => true
  | _ => false
  end.

Definition not_lock_event (e : Event) : bool := negb (is_lock_event e).

(** [under_lock m]: [m] enters the critical section before anything else,
    leaves it after everything else, and does neither in between. *)
Definition under_lock {St A : Type} (m : M St A) : Prop :=
  forall s r s' evs,
    m s = Some (r, s', evs) ->
    exists inside,
      evs = Enter :: inside ++ [Leave]
      /\ forallb not_lock_event inside = true.

(** [lock_free m]: [m] never enters or leaves the critical section. *)
Definition lock_free {St A : Type} (m : M St A) : Prop :=
  forall s r s' evs,
    m s = Some (r, s', evs) -> forallb not_lock_event evs = true.

(** ** Collaborators *)

(** [AudioBuffer] (audio_buffer.h) and the two free functions of
    splitting_filter.h, which the engine always applies to the arrays and
    the filter states of one channel of one buffer.

    [DeinterleaveFrom] is handed the caller's frame through a pointer that
    is not const, and the buffer may keep pointers into the frame
    (audio_buffer.cc is not among the sources): the call may change the
    frame, and whatever changes the buffer afterwards, a function of the
    buffer, a filter or a component, may change the frame with it.  A value
    of [AudioBuffer] therefore stands for the buffer together with the
    memory its pointers lead to, and [frame_through a f] is the frame the
    caller finds behind its pointer while the buffer is [a]; [f] is the
    frame as it was handed over, with the fields the engine itself has
    assigned since.  [InterleaveTo a f] is the frame after the call of
    [InterleaveTo]. *)
Class AudioBufferOps : Type := {
  AudioBuffer : Type;
  AudioBuffer_new : Z -> Z -> AudioBuffer;
  DeinterleaveFrom : AudioFrame -> AudioBuffer -> AudioBuffer;
  frame_through : AudioBuffer -> AudioFrame -> AudioFrame;
  Mix : Z -> AudioBuffer -> AudioBuffer;
  SplittingFilterAnalysis : Z -> AudioBuffer -> AudioBuffer;
  SplittingFilterSynthesis : Z -> AudioBuffer -> AudioBuffer;
  CopyLowPassToReference : AudioBuffer -> AudioBuffer;
  InterleaveTo : AudioBuffer -> AudioFrame -> AudioFrame
}.

(** [FileWrapper] (file_wrapper.h).  [WriteText] receives the text after
    formatting. *)
Class FileWrapperOps : Type := {
  FileWrapper : Type;
  file_Open : FileWrapper -> bool;
  file_CloseFile : FileWrapper -> Z * FileWrapper;
  file_OpenFile : string -> bool -> FileWrapper -> Z * FileWrapper;
  file_WriteText : string -> FileWrapper -> Z * FileWrapper;
  file_Write : list Z -> Z -> FileWrapper -> bool * FileWrapper
}.

(** Modelled from the spec: the widths of the channel count and of the
    payload length of a frame come from the declaration of [AudioFrame] in
    module_common_types.h, which is not among the sources, and the
    specification leaves them open ("exact byte width must be fixed
    explicitly by an implementer"). *)
Class AudioFrameLayout : Type := {
  sizeof_audioChannel : Z;
  sizeof_payloadDataLengthInSamples : Z
}.

Section Engine.

Context {AB : AudioBufferOps} {FW : FileWrapperOps} {AF : AudioFrameLayout}.

(** The joint state of the seven component objects. *)
Variable Components : Type.

(** ** The engine *)

(** The data members of [AudioProcessingImpl].  [components] stands for the
    objects that [component_list_] and the seven typed pointers point to,
    [debug_file_] for the object behind that pointer; the two buffer
    pointers may be null. *)
Record Apm : Type := mkApm {
  id_ : Z;
  components : Components;
  debug_file_ : FileWrapper;
  render_audio_ : option AudioBuffer;
  capture_audio_ : option AudioBuffer;
  sample_rate_hz_ : Z;
  split_sample_rate_hz_ : Z;
  samples_per_channel_ : Z;
  stream_delay_ms_ : Z;
  was_stream_delay_set_ : bool;
  num_render_input_channels_ : Z;
  num_capture_input_channels_ : Z;
  num_capture_output_channels_ : Z
}.

(** [ProcessingComponent] (processing_component.h) and the extra entry
    point of the gain control.  A component holds a pointer to the engine
    and is handed a pointer to a buffer: it reads the first and may change
    the second and the components. *)
Class ProcessingComponentOps : Type := {
  component_Initialize : ComponentId -> Apm -> Error * Components;
  component_is_enabled : ComponentId -> Apm -> bool;
  component_ProcessCaptureAudio :
    ComponentId -> Apm -> AudioBuffer -> Error * Components * AudioBuffer;
  component_AnalyzeCaptureAudio :
    ComponentId -> Apm -> AudioBuffer -> Error * Components * AudioBuffer;
  component_ProcessRenderAudio :
    ComponentId -> Apm -> AudioBuffer -> Error * Components * AudioBuffer;
  component_get_version : ComponentId -> Apm -> Z -> Error * list Z
}.

Context {PC : ProcessingComponentOps}.

(** Assignments to single members. *)
Definition set_id_ (v : Z) (s : Apm) : Apm :=
  mkApm v (components s) (debug_file_ s) (render_audio_ s) (capture_audio_ s)
    (sample_rate_hz_ s) (split_sample_rate_hz_ s) (samples_per_channel_ s)
    (stream_delay_ms_ s) (was_stream_delay_set_ s)
    (num_render_input_channels_ s) (num_capture_input_channels_ s)
    (num_capture_output_channels_ s).

Definition set_components (v : Components) (s : Apm) : Apm :=
  mkApm (id_ s) v (debug_file_ s) (render_audio_ s) (capture_audio_ s)
    (sample_rate_hz_ s) (split_sample_rate_hz_ s) (samples_per_channel_ s)
    (stream_delay_ms_ s) (was_stream_delay_set_ s)
    (num_render_input_channels_ s) (num_capture_input_channels_ s)
    (num_capture_output_channels_ s).

Definition set_debug_file_ (v : FileWrapper) (s : Apm) : Apm :=
  mkApm (id_ s) (components s) v (render_audio_ s) (capture_audio_ s)
    (sample_rate_hz_ s) (split_sample_rate_hz_ s) (samples_per_channel_ s)
    (stream_delay_ms_ s) (was_stream_delay_set_ s)
    (num_render_input_channels_ s) (num_capture_input_channels_ s)
    (num_capture_output_channels_ s).

Definition set_render_audio_ (v : option AudioBuffer) (s : Apm) : Apm :=
  mkApm (id_ s) (components s) (debug_file_ s) v (capture_audio_ s)
    (sample_rate_hz_ s) (split_sample_rate_hz_ s) (samples_per_channel_ s)
    (stream_delay_ms_ s) (was_stream_delay_set_ s)
    (num_render_input_channels_ s) (num_capture_input_channels_ s)
    (num_capture_output_channels_ s).

Definition set_capture_audio_ (v : option AudioBuffer) (s : Apm) : Apm :=
  mkApm (id_ s) (components s) (debug_file_ s) (render_audio_ s) v
    (sample_rate_hz_ s) (split_sample_rate_hz_ s) (samples_per_channel_ s)
    (stream_delay_ms_ s) (was_stream_delay_set_ s)
    (num_render_input_channels_ s) (num_capture_input_channels_ s)
    (num_capture_output_channels_ s).

Definition set_sample_rate_hz_ (v : Z) (s : Apm) : Apm :=
  mkApm (id_ s) (components s) (debug_file_ s) (render_audio_ s)
    (capture_audio_ s) v (split_sample_rate_hz_ s) (samples_per_channel_ s)
    (stream_delay_ms_ s) (was_stream_delay_set_ s)
    (num_render_input_channels_ s) (num_capture_input_channels_ s)
    (num_capture_output_channels_ s).

Definition set_split_sample_rate_hz_ (v : Z) (s : Apm) : Apm :=
  mkApm (id_ s) (components s) (debug_file_ s) (render_audio_ s)
    (capture_audio_ s) (sample_rate_hz_ s) v (samples_per_channel_ s)
    (stream_delay_ms_ s) (was_stream_delay_set_ s)
    (num_render_input_channels_ s) (num_capture_input_channels_ s)
    (num_capture_output_channels_ s).

Definition set_samples_per_channel_ (v : Z) (s : Apm) : Apm :=
  mkApm (id_ s) (components s) (debug_file_ s) (render_audio_ s)
    (capture_audio_ s) (sample_rate_hz_ s) (split_sample_rate_hz_ s) v
    (stream_delay_ms_ s) (was_stream_delay_set_ s)
    (num_render_input_channels_ s) (num_capture_input_channels_ s)
    (num_capture_output_channels_ s).

Definition set_stream_delay_ms_ (v : Z) (s : Apm) : Apm :=
  mkApm (id_ s) (components s) (debug_file_ s) (render_audio_ s)
    (capture_audio_ s) (sample_rate_hz_ s) (split_sample_rate_hz_ s)
    (samples_per_channel_ s) v (was_stream_delay_set_ s)
    (num_render_input_channels_ s) (num_capture_input_channels_ s)
    (num_capture_output_channels_ s).

Definition set_was_stream_delay_set_ (v : bool) (s : Apm) : Apm :=
  mkApm (id_ s) (components s) (debug_file_ s) (render_audio_ s)
    (capture_audio_ s) (sample_rate_hz_ s) (split_sample_rate_hz_ s)
    (samples_per_channel_ s) (stream_delay_ms_ s) v
    (num_render_input_channels_ s) (num_capture_input_channels_ s)
    (num_capture_output_channels_ s).

Definition set_num_render_input_channels_ (v : Z) (s : Apm) : Apm :=
  mkApm (id_ s) (components s) (debug_file_ s) (render_audio_ s)
    (capture_audio_ s) (sample_rate_hz_ s) (split_sample_rate_hz_ s)
    (samples_per_channel_ s) (stream_delay_ms_ s) (was_stream_delay_set_ s)
    v (num_capture_input_channels_ s) (num_capture_output_channels_ s).

Definition set_num_capture_input_channels_ (v : Z) (s : Apm) : Apm :=
  mkApm (id_ s) (components s) (debug_file_ s) (render_audio_ s)
    (capture_audio_ s) (sample_rate_hz_ s) (split_sample_rate_hz_ s)
    (samples_per_channel_ s) (stream_delay_ms_ s) (was_stream_delay_set_ s)
    (num_render_input_channels_ s) v (num_capture_output_channels_ s).

Definition set_num_capture_output_channels_ (v : Z) (s : Apm) : Apm :=
  mkApm (id_ s) (components s) (debug_file_ s) (render_audio_ s)
    (capture_audio_ s) (sample_rate_hz_ s) (split_sample_rate_hz_ s)
    (samples_per_channel_ s) (stream_delay_ms_ s) (was_stream_delay_set_ s)
    (num_render_input_channels_ s) (num_capture_input_channels_ s) v.

(** ** Calls to the collaborators *)

Definition buffer (b : BufferId) (s : Apm) : option AudioBuffer :=
  match b with
  | capture_audio => capture_audio_ s
  | render_audio => render_audio_ s
  end.

Definition set_buffer (b : BufferId) (v : option AudioBuffer) (s : Apm) : Apm :=
  match b with
  | capture_audio => set_capture_audio_ v s
  | render_audio => set_render_audio_ v s
  end.

(** [delete] of the old buffer, if any, and [new AudioBuffer(...)]. *)
Definition new_buffer (b : BufferId) (channels samples : Z) : M Apm unit :=
  modify (set_buffer b (Some (AudioBuffer_new channels samples))) ;;
  emit (Buffer b (B_new channels samples)).

(** A member function of the buffer, or a splitting filter, applied through
    the pointer; through a null pointer it is undefined. *)
Definition on_buffer (b : BufferId) (op : BufferOp)
    (f : AudioBuffer -> AudioBuffer) : M Apm unit :=
  fun s =>
    match buffer b s with
    | None => None
    | Some a => Some (tt, set_buffer b (Some (f a)) s, [Buffer b op])
    end.

(** [b->InterleaveTo(frame)]: the frame afterwards. *)
Definition interleave_to (b : BufferId) (frame : AudioFrame)
  : M Apm AudioFrame :=
  fun s =>
    match buffer b s with
    | None => None
    | Some a => Some (InterleaveTo a frame, s, [Buffer b B_InterleaveTo])
    end.

(** The frame behind the pointer that was handed to [b->DeinterleaveFrom],
    as the caller finds it when the function returns. *)
Definition frame_behind (b : BufferId) (frame : AudioFrame)
  : M Apm AudioFrame :=
  fun s =>
    match buffer b s with
    | None => Some (frame, s, [])
    | Some a => Some (frame_through a frame, s, [])
    end.

(** [x_->F(b)] for a component [x_] and a buffer pointer [b]. *)
Definition call_on_buffer (c : ComponentId) (m : Method) (b : BufferId)
    (f : ComponentId -> Apm -> AudioBuffer -> Error * Components * AudioBuffer)
  : M Apm Error :=
  fun s =>
    match buffer b s with
    | None => None
    | Some a =>
        let '(err, cs, a') := f c s a in
        Some (err, set_buffer b (Some a') (set_components cs s),
              [Call c m err])
    end.

Definition ProcessCaptureAudio (c : ComponentId) : M Apm Error :=
  call_on_buffer c M_ProcessCaptureAudio capture_audio
    component_ProcessCaptureAudio.

Definition AnalyzeCaptureAudio (c : ComponentId) : M Apm Error :=
  call_on_buffer c M_AnalyzeCaptureAudio capture_audio
    component_AnalyzeCaptureAudio.

Definition ProcessRenderAudio (c : ComponentId) : M Apm Error :=
  call_on_buffer c M_ProcessRenderAudio render_audio
    component_ProcessRenderAudio.

Definition component_init (c : ComponentId) : M Apm Error :=
  fun s =>
    let '(err, cs) := component_Initialize c s in
    Some (err, set_components cs s, [Call c M_Initialize err]).

Definition is_enabled (c : ComponentId) : M Apm bool :=
  fun s =>
    let e := component_is_enabled c s in
    Some (e, s, [IsEnabled c e]).

Definition debug_Open : M Apm bool :=
  fun s => Some (file_Open (debug_file_ s), s, []).

Definition debug_CloseFile : M Apm Z :=
  fun s =>
    let '(r, fw) := file_CloseFile (debug_file_ s) in
    Some (r, set_debug_file_ fw s, [CloseFile r]).

Definition debug_OpenFile (name : string) (read_only : bool) : M Apm Z :=
  fun s =>
    let '(r, fw) := file_OpenFile name read_only (debug_file_ s) in
    Some (r, set_debug_file_ fw s, [OpenFile name read_only r]).

Definition debug_WriteText (text : string) : M Apm Z :=
  fun s =>
    let '(r, fw) := file_WriteText text (debug_file_ s) in
    Some (r, set_debug_file_ fw s, [WriteText text r]).

Definition debug_Write (obj : list Z) (nbytes : Z) : M Apm bool :=
  fun s =>
    let '(ok, fw) := file_Write obj nbytes (debug_file_ s) in
    Some (ok, set_debug_file_ fw s, [Write obj nbytes ok]).

(** ** Initialisation and configuration (lines 142-246) *)

(** The loop over [component_list_] at the end of [InitializeLocked]. *)
Fixpoint Initialize_components (l : list ComponentId) : M Apm Error :=
  match l with
  | [] => ret kNoError
  | c :: l' => check (component_init c) (Initialize_components l')
  end.

Definition InitializeLocked : M Apm Error :=
  s <- get ;;
  new_buffer render_audio (num_render_input_channels_ s)
    (samples_per_channel_ s) ;;
  new_buffer capture_audio (num_capture_input_channels_ s)
    (samples_per_channel_ s) ;;
  modify (set_was_stream_delay_set_ false) ;;
  Initialize_components component_list_.

Definition Initialize : M Apm Error :=
  locked InitializeLocked.

Definition set_sample_rate_hz (rate : Z) : M Apm Error :=
  locked (
    if negb (rate =? kSampleRate8kHz) && negb (rate =? kSampleRate16kHz)
       && negb (rate =? kSampleRate32kHz)
    then ret kBadParameterError
    else
      modify (set_sample_rate_hz_ rate) ;;
      modify (set_samples_per_channel_ (Z.quot rate 100)) ;;
      s <- get ;;
      (if sample_rate_hz_ s =? kSampleRate32kHz
       then modify (set_split_sample_rate_hz_ kSampleRate16kHz)
       else modify (set_split_sample_rate_hz_ (sample_rate_hz_ s))) ;;
      InitializeLocked).

Definition sample_rate_hz : M Apm Z :=
  s <- get ;; ret (sample_rate_hz_ s).

Definition split_sample_rate_hz : M Apm Z :=
  s <- get ;; ret (split_sample_rate_hz_ s).

Definition set_num_reverse_channels (channels : Z) : M Apm Error :=
  locked (
    if (channels >? 2) || (channels <? 1)
    then ret kBadParameterError
    else
      modify (set_num_render_input_channels_ channels) ;;
      InitializeLocked).

Definition num_reverse_channels : M Apm Z :=
  s <- get ;; ret (num_render_input_channels_ s).

Definition set_num_channels (input_channels output_channels : Z)
  : M Apm Error :=
  locked (
    if output_channels >? input_channels then ret kBadParameterError
    else if (input_channels >? 2) || (input_channels <? 1)
    then ret kBadParameterError
    else if (output_channels >? 2) || (output_channels <? 1)
    then ret kBadParameterError
    else
      modify (set_num_capture_input_channels_ input_channels) ;;
      modify (set_num_capture_output_channels_ output_channels) ;;
      InitializeLocked).

Definition num_input_channels : M Apm Z :=
  s <- get ;; ret (num_capture_input_channels_ s).

Definition num_output_channels : M Apm Z :=
  s <- get ;; ret (num_capture_output_channels_ s).

(** ** The debug record of a frame (lines 269-295 and 399-425) *)

(** The block [if (debug_file_->Open()) { ... }] of both stream functions,
    which differ in the event only.  Its result is [kFileError] where the
    block returns from the function, [kNoError] where control leaves it at
    the bottom. *)
Definition write_frame (event : Events) (frame : AudioFrame) : M Apm Error :=
  open <- debug_Open ;;
  if open then
    ok <- debug_Write [event_tag event] sizeof_uword8 ;;
    if negb ok then ret kFileError else
    ok <- debug_Write [_frequencyInHz frame] sizeof_uword32 ;;
    if negb ok then ret kFileError else
    ok <- debug_Write [_audioChannel frame] sizeof_audioChannel ;;
    if negb ok then ret kFileError else
    ok <- debug_Write [_payloadDataLengthInSamples frame]
            sizeof_payloadDataLengthInSamples ;;
    if negb ok then ret kFileError else
    ok <- debug_Write
            (firstn (Z.to_nat (_payloadDataLengthInSamples frame
                               * _audioChannel frame))
                    (_payloadData frame))
            (sizeof_word16 * _payloadDataLengthInSamples frame
             * _audioChannel frame) ;;
    if negb ok then ret kFileError else
    ret kNoError
  else ret kNoError.

(** ** ProcessStream (lines 248-376) *)

(** Lines 317-355: the calls to the components. *)
Definition ProcessStream_components : M Apm Error :=
  check (ProcessCaptureAudio high_pass_filter_) (
  check (AnalyzeCaptureAudio gain_control_) (
  check (ProcessCaptureAudio echo_cancellation_) (
    mobile <- is_enabled echo_control_mobile_ ;;
    both <- (if mobile then is_enabled noise_suppression_ else ret false) ;;
    (if both
     then on_buffer capture_audio B_CopyLowPassToReference
            CopyLowPassToReference
     else ret tt) ;;
  check (ProcessCaptureAudio noise_suppression_) (
  check (ProcessCaptureAudio echo_control_mobile_) (
  check (ProcessCaptureAudio voice_detection_) (
  check (ProcessCaptureAudio gain_control_) (
    ret kNoError))))))).

(** Lines 297-375: what is done to the audio, from [DeinterleaveFrom] to the
    last [return].  [f1] is the frame with the channel count as the engine
    assigns it; what else the frame holds by then is up to the buffer. *)
Definition ProcessStream_audio (f : AudioFrame)
  : M Apm (Error * option AudioFrame) :=
  s <- get ;;
  on_buffer capture_audio B_DeinterleaveFrom (DeinterleaveFrom f) ;;
  f1 <- (if num_capture_output_channels_ s <? num_capture_input_channels_ s
         then
           on_buffer capture_audio (B_Mix (num_capture_output_channels_ s))
             (Mix (num_capture_output_channels_ s)) ;;
           ret (set_audioChannel (num_capture_output_channels_ s) f)
         else ret f) ;;
  (if sample_rate_hz_ s =? kSampleRate32kHz
   then for_channels (num_capture_input_channels_ s) (fun i =>
          on_buffer capture_audio (B_SplittingFilterAnalysis i)
            (SplittingFilterAnalysis i))
   else ret tt) ;;
  err <- ProcessStream_components ;;
  if negb (is_ok err)
  then f' <- frame_behind capture_audio f1 ;; ret (err, Some f') else
  (if sample_rate_hz_ s =? kSampleRate32kHz
   then for_channels (num_capture_output_channels_ s) (fun i =>
          on_buffer capture_audio (B_SplittingFilterSynthesis i)
            (SplittingFilterSynthesis i))
   else ret tt) ;;
  f2 <- interleave_to capture_audio f1 ;;
  ret (kNoError, Some f2).

(** The frame is passed by pointer: the function gets the frame the pointer
    leads to, or nothing for a null pointer, and returns what is there
    after the call. *)
Definition ProcessStream (frame : option AudioFrame)
  : M Apm (Error * option AudioFrame) :=
  locked (
    match frame with
    | None => ret (kNullPointerError, frame)
    | Some f =>
      s <- get ;;
      if negb (_frequencyInHz f =? to_uword32 (sample_rate_hz_ s))
      then ret (kBadSampleRateError, frame)
      else if negb (_audioChannel f =? num_capture_input_channels_ s)
      then ret (kBadNumberChannelsError, frame)
      else if negb (_payloadDataLengthInSamples f =? samples_per_channel_ s)
      then ret (kBadDataLengthError, frame)
      else
        err <- write_frame kCaptureEvent f ;;
        if negb (is_ok err) then ret (err, frame) else
        ProcessStream_audio f
    end).

(** ** AnalyzeReverseStream (lines 378-464) *)

(** Lines 441-455: the calls to the components. *)
Definition AnalyzeReverseStream_components : M Apm Error :=
  check (ProcessRenderAudio echo_cancellation_) (
  check (ProcessRenderAudio echo_control_mobile_) (
  check (ProcessRenderAudio gain_control_) (
    ret kNoError))).

(** Lines 427-463: from [DeinterleaveFrom] to the last [return]. *)
Definition AnalyzeReverseStream_audio (f : AudioFrame)
  : M Apm (Error * option AudioFrame) :=
  s <- get ;;
  on_buffer render_audio B_DeinterleaveFrom (DeinterleaveFrom f) ;;
  (if sample_rate_hz_ s =? kSampleRate32kHz
   then for_channels (num_render_input_channels_ s) (fun i =>
          on_buffer render_audio (B_SplittingFilterAnalysis i)
            (SplittingFilterAnalysis i))
   else ret tt) ;;
  err <- AnalyzeReverseStream_components ;;
  if negb (is_ok err)
  then f' <- frame_behind render_audio f ;; ret (err, Some f') else
  modify (set_was_stream_delay_set_ false) ;;
  f' <- frame_behind render_audio f ;;
  ret (err, Some f').

Definition AnalyzeReverseStream (frame : option AudioFrame)
  : M Apm (Error * option AudioFrame) :=
  locked (
    match frame with
    | None => ret (kNullPointerError, frame)
    | Some f =>
      s <- get ;;
      if negb (_frequencyInHz f =? to_uword32 (sample_rate_hz_ s))
      then ret (kBadSampleRateError, frame)
      else if negb (_audioChannel f =? num_render_input_channels_ s)
      then ret (kBadNumberChannelsError, frame)
      else if negb (_payloadDataLengthInSamples f =? samples_per_channel_ s)
      then ret (kBadDataLengthError, frame)
      else
        err <- write_frame kRenderEvent f ;;
        if negb (is_ok err) then ret (err, frame) else
        AnalyzeReverseStream_audio f
    end).

(** ** The stream delay (lines 466-488) *)

Definition set_stream_delay_ms (delay : Z) : M Apm Error :=
  modify (set_was_stream_delay_set_ true) ;;
  if delay <? 0 then ret kBadParameterError
  else if delay >? 500 then
    modify (set_stream_delay_ms_ 500) ;;
    ret kBadStreamParameterWarning
  else
    modify (set_stream_delay_ms_ delay) ;;
    ret kNoError.

Definition stream_delay_ms : M Apm Z :=
  s <- get ;; ret (stream_delay_ms_ s).

Definition was_stream_delay_set : M Apm bool :=
  s <- get ;; ret (was_stream_delay_set_ s).

(** ** Debug recording (lines 490-540) *)

(** The [assert] on the two file name limits compares constants of headers
    that are not among the sources; it is left out. *)
Definition StartDebugRecording (filename : option string) : M Apm Error :=
  locked (
    match filename with
    | None => ret kNullPointerError
    | Some name =>
      open <- debug_Open ;;
      check (if open
             then r <- debug_CloseFile ;;
                  if r =? -1 then ret kFileError else ret kNoError
             else ret kNoError) (
      r <- debug_OpenFile name false ;;
      if r =? -1 then debug_CloseFile ;; ret kFileError else
      r <- debug_WriteText (kMagicNumber ++ newline) ;;
      if r =? -1 then debug_CloseFile ;; ret kFileError else
      ok <- debug_Write [event_tag kInitializeEvent] sizeof_uword8 ;;
      if negb ok then ret kFileError else
      s <- get ;;
      ok <- debug_Write [sample_rate_hz_ s] sizeof_int ;;
      if negb ok then ret kFileError else
      ret kNoError)
    end).

Definition StopDebugRecording : M Apm Error :=
  locked (
    open <- debug_Open ;;
    if open
    then r <- debug_CloseFile ;;
         if r =? -1 then ret kFileError else ret kNoError
    else ret kNoError).

(** ** Accessors of the components (lines 542-568) *)

Definition echo_cancellation : M Apm ComponentId := ret echo_cancellation_.
Definition echo_control_mobile : M Apm ComponentId := ret echo_control_mobile_.
Definition gain_control : M Apm ComponentId := ret gain_control_.
Definition high_pass_filter : M Apm ComponentId := ret high_pass_filter_.
Definition level_estimator : M Apm ComponentId := ret level_estimator_.
Definition noise_suppression : M Apm ComponentId := ret noise_suppression_.
Definition voice_detection : M Apm ComponentId := ret voice_detection_.

(** ** Version (lines 570-623) *)

(** [it->get_version(&component_version[1], sizeof(component_version) - 1)]:
    the answer of the component is its result and the text it leaves in the
    array, without the terminating NUL. *)
Definition get_version (c : ComponentId) (len : Z) : M Apm (Error * list Z) :=
  fun s =>
    let '(err, text) := component_get_version c s len in
    Some ((err, text), s, [Call c M_get_version err]).

Definition sizeof_component_version : Z := 256.

(** The loop over [component_list_].  [component_version] is the array after
    [strcpy(component_version, "\n")] and the call of the component. *)
Fixpoint Version_components (l : list ComponentId) (version : list Z)
    (bytes_remaining position : Z) : M Apm (Error * list Z * Z * Z) :=
  match l with
  | [] => ret (kNoError, version, bytes_remaining, position)
  | c :: l' =>
      r <- get_version c (sizeof_component_version - 1) ;;
      let '(err, text) := r in
      let component_version := 10 :: text ++ [0] in
      if negb (is_ok err)
      then ret (err, version, bytes_remaining, position)
      else if nth 1 component_version 0 =? 0
      then Version_components l' version bytes_remaining position
      else
        let length := to_uword32 (strlen component_version) in
        if bytes_remaining <? length
        then ret (kBadParameterError, version, bytes_remaining, position)
        else
          match memcpy version position component_version length with
          | None => undefined
          | Some version' =>
              Version_components l' version'
                (to_uword32 (bytes_remaining - length))
                (to_uword32 (position + length))
          end
  end.

Definition my_version : list Z :=
  bytes_of_string "AudioProcessing 1.0.0" ++ [0].

(** [version] is the caller's array (or null); [bytes_remaining] and
    [position] are passed by reference and returned with the result. *)
Definition Version (version : option (list Z)) (bytes_remaining position : Z)
  : M Apm (Error * option (list Z) * Z * Z) :=
  match version with
  | None => ret (kNullPointerError, version, bytes_remaining, position)
  | Some v =>
      match memset v position 0 bytes_remaining with
      | None => undefined
      | Some v0 =>
          let length := to_uword32 (strlen my_version) in
          if bytes_remaining <? length
          then ret (kBadParameterError, Some v0, bytes_remaining, position)
          else
            match memcpy v0 position my_version length with
            | None => undefined
            | Some v1 =>
                r <- Version_components component_list_ v1
                       (to_uword32 (bytes_remaining - length))
                       (to_uword32 (position + length)) ;;
                let '(err, v2, remaining, pos) := r in
                ret (err, Some v2, remaining, pos)
            end
      end
  end.

(** ** ChangeUniqueId (lines 625-635) *)

Definition ChangeUniqueId (id : Z) : M Apm Error :=
  locked (
    modify (set_id_ id) ;;
    ret kNoError).

(** ** Construction (lines 43-104) *)

(** The constructor: [cs] are the seven component objects it creates and
    [fw] is the result of [FileWrapper::Create()]. *)
Definition AudioProcessingImpl (id : Z) (cs : Components) (fw : FileWrapper)
  : Apm :=
  {| id_ := id;
     components := cs;
     debug_file_ := fw;
     render_audio_ := None;
     capture_audio_ := None;
     sample_rate_hz_ := kSampleRate16kHz;
     split_sample_rate_hz_ := kSampleRate16kHz;
     samples_per_channel_ := Z.quot kSampleRate16kHz 100;
     stream_delay_ms_ := 0;
     was_stream_delay_set_ := false;
     num_render_input_channels_ := 1;
     num_capture_input_channels_ := 1;
     num_capture_output_channels_ := 1 |}.

(** [AudioProcessing::Create]: the new engine, or null. *)
Definition Create (id : Z) (cs : Components) (fw : FileWrapper) : option Apm :=
  match Initialize (AudioProcessingImpl id cs fw) with
  | Some (kNoError, apm, _) => Some apm
  | _ => None
  end.

(** ** The engine as a state machine *)

(** The operations of the public interface that are not [const]. *)
Inductive Operation : Type :=
| Op_Initialize
| Op_set_sample_rate_hz (rate : Z)
| Op_set_num_reverse_channels (channels : Z)
| Op_set_num_channels (input_channels output_channels : Z)
| Op_ProcessStream (frame : option AudioFrame)
| Op_AnalyzeReverseStream (frame : option AudioFrame)
| Op_set_stream_delay_ms (delay : Z)
| Op_StartDebugRecording (filename : option string)
| Op_StopDebugRecording
| Op_ChangeUniqueId (id : Z).

Definition perform (op : Operation) : M Apm Error :=
  match op with
  | Op_Initialize => Initialize
  | Op_set_sample_rate_hz rate => set_sample_rate_hz rate
  | Op_set_num_reverse_channels channels => set_num_reverse_channels channels
  | Op_set_num_channels input output => set_num_channels input output
  | Op_ProcessStream frame => r <- ProcessStream frame ;; ret (fst r)
  | Op_AnalyzeReverseStream frame =>
      r <- AnalyzeReverseStream frame ;; ret (fst r)
  | Op_set_stream_delay_ms delay => set_stream_delay_ms delay
  | Op_StartDebugRecording filename => StartDebugRecording filename
  | Op_StopDebugRecording => StopDebugRecording
  | Op_ChangeUniqueId id => ChangeUniqueId id
  end.

End Engine.

Arguments InitializeLocked {AB FW Components PC}.
Arguments Initialize {AB FW Components PC}.
Arguments ProcessStream_components {AB FW Components PC}.
Arguments AnalyzeReverseStream_components {AB FW Components PC}.
Arguments debug_Open {AB FW Components}.
Arguments debug_CloseFile {AB FW Components}.
Arguments debug_OpenFile {AB FW Components}.
Arguments debug_WriteText {AB FW Components}.
Arguments debug_Write {AB FW Components}.
Arguments new_buffer {AB FW Components}.
Arguments write_frame {AB FW AF Components}.
Arguments StartDebugRecording {AB FW Components}.
Arguments StopDebugRecording {AB FW Components}.
Arguments sample_rate_hz {AB FW Components}.
Arguments split_sample_rate_hz {AB FW Components}.
Arguments num_reverse_channels {AB FW Components}.
Arguments num_input_channels {AB FW Components}.
Arguments num_output_channels {AB FW Components}.
Arguments stream_delay_ms {AB FW Components}.
Arguments was_stream_delay_set {AB FW Components}.
Arguments set_stream_delay_ms {AB FW Components}.
Arguments ChangeUniqueId {AB FW Components}.
Arguments echo_cancellation {AB FW Components}.
Arguments echo_control_mobile {AB FW Components}.
Arguments gain_control {AB FW Components}.
Arguments high_pass_filter {AB FW Components}.
Arguments level_estimator {AB FW Components}.
Arguments noise_suppression {AB FW Components}.
Arguments voice_detection {AB FW Components}.

(** ** The order of the capture stages *)

(** A stage of the capture side: a call to a component, or the copy of the
    low band to the reference that is made only if the mobile echo control
    and the noise suppression are both enabled. *)
Inductive Stage : Type :=
| Component (c : ComponentId) (m : Method)
| SnapshotIfEnabled.

(** The order of section 4.1, step 6, of the specification. *)
Definition capture_stages : list Stage :=
  [ Component high_pass_filter_ M_ProcessCaptureAudio;
    Component gain_control_ M_AnalyzeCaptureAudio;
    Component echo_cancellation_ M_ProcessCaptureAudio;
    SnapshotIfEnabled;
    Component noise_suppression_ M_ProcessCaptureAudio;
    Component echo_control_mobile_ M_ProcessCaptureAudio;
    Component voice_detection_ M_ProcessCaptureAudio;
    Component gain_control_ M_ProcessCaptureAudio ].

(** The calls that belong to stages: calls to components, their
    [is_enabled], and the copy to the reference. *)
Definition is_stage_event (e : Event) : bool :=
  match e with
  | Call _ _ _ => true
  | IsEnabled _ _ => true
  | Buffer _ B_CopyLowPassToReference => true
  | _ => false
  end.

(** [in_order stages evs r]: the calls [evs] are those of [stages], one
    stage after the other, up to and including the first component that
    does not answer [kNoError]; [r] is that answer, or [kNoError] when all
    stages ran.  The second [is_enabled] is asked only after the first said
    yes. *)
Inductive in_order : list Stage -> list Event -> Error -> Prop :=
| all_stages_ran :
    in_order [] [] kNoError
| stage_ok (c : ComponentId) (m : Method) rest evs r :
    in_order rest evs r ->
    in_order (Component c m :: rest) (Call c m kNoError :: evs) r
| stage_failed (c : ComponentId) (m : Method) rest err :
    err <> kNoError ->
    in_order (Component c m :: rest) [Call c m err] err
| snapshot_taken rest evs r :
    in_order rest evs r ->
    in_order (SnapshotIfEnabled :: rest)
      (IsEnabled echo_control_mobile_ true
       :: IsEnabled noise_suppression_ true
       :: Buffer capture_audio B_CopyLowPassToReference :: evs) r
| snapshot_skipped_mobile rest evs r :
    in_order rest evs r ->
    in_order (SnapshotIfEnabled :: rest)
      (IsEnabled echo_control_mobile_ false :: evs) r
| snapshot_skipped_noise rest evs r :
    in_order rest evs r ->
    in_order (SnapshotIfEnabled :: rest)
      (IsEnabled echo_control_mobile_ true
       :: IsEnabled noise_suppression_ false :: evs) r.

(** ** The calls on the debug file *)

(** The calls on the file. *)
Definition is_file_event (e : Event) : bool :=
  match e with
  | CloseFile _ | OpenFile _ _ _ | WriteText _ _ | Write _ _ _ => true
  | _ => false
  end.

Definition not_file_event (e : Event) : bool := negb (is_file_event e).

(** [on_file fw evs fw']: the calls on the debug file that [evs] lists were
    made on [fw], one after the other, each with the answer that the file
    gave, and they left the file as [fw'].  Events that are no calls on the
    file are passed over. *)
Fixpoint on_file {FW : FileWrapperOps} (fw : FileWrapper) (evs : list Event)
    (fw' : FileWrapper) : Prop :=
  match evs with
  | [] => fw' = fw
  | CloseFile r :: rest =>
      fst (file_CloseFile fw) = r
      /\ on_file (snd (file_CloseFile fw)) rest fw'
  | OpenFile name ro r :: rest =>
      fst (file_OpenFile name ro fw) = r
      /\ on_file (snd (file_OpenFile name ro fw)) rest fw'
  | WriteText text r :: rest =>
      fst (file_WriteText text fw) = r
      /\ on_file (snd (file_WriteText text fw)) rest fw'
  | Write obj nbytes ok :: rest =>
      fst (file_Write obj nbytes fw) = ok
      /\ on_file (snd (file_Write obj nbytes fw)) rest fw'
  | _ :: rest => on_file fw rest fw'
  end.

(** ** The debug record of a frame *)

Definition is_write_event (e : Event) : bool :=
  match e with
  | Write _ _ _ => true
  | _ => false
  end.

Definition not_write_event (e : Event) : bool := negb (is_write_event e).

(** The objects of the record of a frame and their sizes in bytes: the tag,
    the frequency, the channel count, the payload length, and the
    [length * channels] samples of the payload. *)
Definition frame_record {AF : AudioFrameLayout} (tag : Z) (f : AudioFrame)
  : list (list Z * Z) :=
  [ ([tag], 1);
    ([_frequencyInHz f], 4);
    ([_audioChannel f], sizeof_audioChannel);
    ([_payloadDataLengthInSamples f], sizeof_payloadDataLengthInSamples);
    (firstn (Z.to_nat (_payloadDataLengthInSamples f * _audioChannel f))
       (_payloadData f),
     2 * _payloadDataLengthInSamples f * _audioChannel f) ].

Definition written (p : list Z * Z) : Event := Write (fst p) (snd p) true.

(** [record_written rec evs complete]: [evs] writes the objects of [rec] in
    order, all of them ([complete]), or up to one write that fails and is
    the last. *)
Inductive record_written (rec : list (list Z * Z))
  : list Event -> bool -> Prop :=
| record_complete :
    record_written rec (map written rec) true
| record_broken (n : nat) (obj : list Z) (nbytes : Z) :
    nth_error rec n = Some (obj, nbytes) ->
    record_written rec
      (map written (firstn n rec) ++ [Write obj nbytes false]) false.

(** ** The start of a debug recording *)

(** [recording_started name rate evs r]: the calls [evs] open the file
    [name] for writing, write the magic line, then the record of the
    initialisation (the tag 0 in one byte, the sample rate in four), up to
    the first call that fails; [r] is [kFileError] if one failed (after a
    failed [OpenFile] or [WriteText] the file is closed) and [kNoError]
    otherwise. *)
Inductive recording_started (name : string) (rate : Z)
  : list Event -> Error -> Prop :=
| started (r1 r2 : Z) :
    r1 <> -1 -> r2 <> -1 ->
    recording_started name rate
      [ OpenFile name false r1;
        WriteText ("#!vqetrace1.2" ++ newline) r2;
        Write [0] 1 true;
        Write [rate] 4 true ] kNoError
| open_failed (c : Z) :
    recording_started name rate
      [ OpenFile name false (-1); CloseFile c ] kFileError
| magic_failed (r1 c : Z) :
    r1 <> -1 ->
    recording_started name rate
      [ OpenFile name false r1;
        WriteText ("#!vqetrace1.2" ++ newline) (-1);
        CloseFile c ] kFileError
| tag_failed (r1 r2 : Z) :
    r1 <> -1 -> r2 <> -1 ->
    recording_started name rate
      [ OpenFile name false r1;
        WriteText ("#!vqetrace1.2" ++ newline) r2;
        Write [0] 1 false ] kFileError
| rate_failed (r1 r2 : Z) :
    r1 <> -1 -> r2 <> -1 ->
    recording_started name rate
      [ OpenFile name false r1;
        WriteText ("#!vqetrace1.2" ++ newline) r2;
        Write [0] 1 true;
        Write [rate] 4 false ] kFileError.

(** The same after the recording that is going on, if any, is closed. *)
Inductive recording_restarted (was_open : bool) (name : string) (rate : Z)
  : list Event -> Error -> Prop :=
| nothing_to_close evs r :
    was_open = false ->
    recording_started name rate evs r ->
    recording_restarted was_open name rate evs r
| closed_first (c : Z) evs r :
    was_open = true -> c <> -1 ->
    recording_started name rate evs r ->
    recording_restarted was_open name rate (CloseFile c :: evs) r
| close_failed :
    was_open = true ->
    recording_restarted was_open name rate [CloseFile (-1)] kFileError.

(** ** Notions used by the properties *)

Section Notions.

Context {AB : AudioBufferOps} {FW : FileWrapperOps}.
Variable Components : Type.

(** The invariant of the configuration (section 3 of the specification). *)
Record config_ok (s : Apm Components) : Prop := {
  rate_ok :
    sample_rate_hz_ s = 8000 \/ sample_rate_hz_ s = 16000
    \/ sample_rate_hz_ s = 32000;
  split_ok :
    split_sample_rate_hz_ s
    = (if sample_rate_hz_ s =? 32000 then 16000 else sample_rate_hz_ s);
  samples_ok : samples_per_channel_ s = sample_rate_hz_ s / 100;
  render_channels_ok : 1 <= num_render_input_channels_ s <= 2;
  capture_input_ok : 1 <= num_capture_input_channels_ s <= 2;
  capture_output_ok :
    1 <= num_capture_output_channels_ s <= num_capture_input_channels_ s;
  delay_ok : 0 <= stream_delay_ms_ s <= 500
}.

(** The buffer pointer is not null. *)
Definition allocated (b : BufferId) (s : Apm Components) : Prop :=
  buffer b s <> None.

(** The state [InitializeLocked] leaves: fresh buffers, the flag cleared,
    the components as their [Initialize] functions left them. *)
Definition reinitialized (cs : Components) (s : Apm Components)
  : Apm Components :=
  set_components cs
    (set_was_stream_delay_set_ false
       (set_capture_audio_
          (Some (AudioBuffer_new (num_capture_input_channels_ s)
                   (samples_per_channel_ s)))
          (set_render_audio_
             (Some (AudioBuffer_new (num_render_input_channels_ s)
                      (samples_per_channel_ s)))
             s))).

(** Which of the two buffer pointers are not null. *)
Definition has_buffers (s : Apm Components) : bool * bool :=
  (match capture_audio_ s with Some _ => true | None => false end,
   match render_audio_ s with Some _ => true | None => false end).

(** Lists of calls none of which belongs to a stage. *)
Definition no_stage (evs : list Event) : Prop :=
  filter is_stage_event evs = [].

(** The configuration proper: what the setters set. *)
Definition settings (s : Apm Components) : Z * Z * Z * Z * Z * Z * Z :=
  (sample_rate_hz_ s, split_sample_rate_hz_ s, samples_per_channel_ s,
   num_render_input_channels_ s, num_capture_input_channels_ s,
   num_capture_output_channels_ s, stream_delay_ms_ s).

(** Whether an operation gets as far as [InitializeLocked]. *)
Definition reinitializes (op : Operation) : bool :=
  match op with
  | Op_Initialize => true
  | Op_set_sample_rate_hz rate =>
      (rate =? 8000) || (rate =? 16000) || (rate =? 32000)
  | Op_set_num_reverse_channels channels =>
      (1 <=? channels) && (channels <=? 2)
  | Op_set_num_channels input output =>
      (output <=? input) && (1 <=? input) && (input <=? 2)
      && (1 <=? output) && (output <=? 2)
  | _ => false
  end.

(** The assignments a setter makes before it calls [InitializeLocked]. *)
Definition configure (op : Operation) (s : Apm Components) : Apm Components :=
  match op with
  | Op_set_sample_rate_hz rate =>
      set_split_sample_rate_hz_ (if rate =? 32000 then 16000 else rate)
        (set_samples_per_channel_ (Z.quot rate 100)
           (set_sample_rate_hz_ rate s))
  | Op_set_num_reverse_channels channels =>
      set_num_render_input_channels_ channels s
  | Op_set_num_channels input output =>
      set_num_capture_output_channels_ output
        (set_num_capture_input_channels_ input s)
  | _ => s
  end.

(** The value of [was_stream_delay_set_] after an operation with result [r]
    that found the flag at [before]. *)
Definition flag_after (op : Operation) (r : Error) (before : bool) : bool :=
  match op with
  | Op_set_stream_delay_ms _ => true
  | Op_AnalyzeReverseStream _ => if is_ok r then false else before
  | _ => if reinitializes op then false else before
  end.

(** The frame passes the three comparisons of lines 256-267 (the stream
    functions differ in the channel count they compare with). *)
Definition passes_validation (s : Apm Components) (channels : Z)
    (f : AudioFrame) : Prop :=
  _frequencyInHz f = to_uword32 (sample_rate_hz_ s)
  /\ _audioChannel f = channels
  /\ _payloadDataLengthInSamples f = samples_per_channel_ s.

(** A frame that is refused, with the error for the first comparison that
    fails, in the order null, rate, channels, length. *)
Inductive frame_rejected (s : Apm Components) (channels : Z)
  : option AudioFrame -> Error -> Prop :=
| rejected_null :
    frame_rejected s channels None kNullPointerError
| rejected_sample_rate (f : AudioFrame) :
    _frequencyInHz f <> sample_rate_hz_ s ->
    frame_rejected s channels (Some f) kBadSampleRateError
| rejected_channels (f : AudioFrame) :
    _frequencyInHz f = sample_rate_hz_ s ->
    _audioChannel f <> channels ->
    frame_rejected s channels (Some f) kBadNumberChannelsError
| rejected_length (f : AudioFrame) :
    _frequencyInHz f = sample_rate_hz_ s ->
    _audioChannel f = channels ->
    _payloadDataLengthInSamples f <> samples_per_channel_ s ->
    frame_rejected s channels (Some f) kBadDataLengthError.

(** [logs_file m]: the calls on the debug file that [m] lists are the
    calls it made on the file of the engine, and the file of the engine
    afterwards is the file after these calls. *)
Definition logs_file {A : Type} (m : M (Apm Components) A) : Prop :=
  forall s r s' evs,
    m s = Some (r, s', evs) ->
    on_file (debug_file_ s) evs (debug_file_ s').

(** What a stream function does with a valid frame while the debug file is
    open: inside the critical section it writes the record of the frame to
    the debug file, which is left as these writes left it, and makes no
    other call on the file; after a complete record the audio is touched,
    first by [DeinterleaveFrom]; after a write that fails nothing is called
    any more, the result is [kFileError], and the frame and the engine,
    the debug file apart, are what they were. *)
Definition traced {AF : AudioFrameLayout} (tag : Z) (b : BufferId)
    (f : AudioFrame) (s : Apm Components)
    (outcome : option (Error * option AudioFrame * Apm Components
                       * list Event)) : Prop :=
  match outcome with
  | None => False
  | Some (r, fr, s', evs) =>
      exists ws rest complete,
        evs = Enter :: ws ++ rest ++ [Leave]
        /\ record_written (frame_record tag f) ws complete
        /\ on_file (debug_file_ s) ws (debug_file_ s')
        /\ forallb not_file_event rest = true
        /\ (if complete : bool
            then hd_error rest = Some (Buffer b B_DeinterleaveFrom)
            else r = kFileError /\ rest = [] /\ fr = Some f
                 /\ s' = set_debug_file_ (debug_file_ s') s)
  end.

(** A frame that is null or differs from the configuration. *)
Definition frame_differs (s : Apm Components) (channels : Z)
    (frame : option AudioFrame) : Prop :=
  match frame with
  | None => True
  | Some f =>
      _frequencyInHz f <> sample_rate_hz_ s
      \/ _audioChannel f <> channels
      \/ _payloadDataLengthInSamples f <> samples_per_channel_ s
  end.

End Notions.

(** The engines a client can hold: those that [Create] returns and those
    that come from them by the operations. *)
Inductive reachable {AB : AudioBufferOps} {FW : FileWrapperOps}
    {AF : AudioFrameLayout} {Components : Type}
    {PC : ProcessingComponentOps Components} : Apm Components -> Prop :=
| reachable_Create (id : Z) (cs : Components) (fw : FileWrapper) s :
    Create id cs fw = Some s -> reachable s
| reachable_perform (op : Operation) s r s' evs :
    reachable s -> perform op s = Some (r, s', evs) -> reachable s'.

(** ** Notions used by the further properties *)

(** The same member function of each component of a list, as stages. *)
Definition component_stages (m : Method) (l : list ComponentId) : list Stage :=
  map (fun c => Component c m) l.

(** The order of the calls of lines 441-455. *)
Definition render_stages : list Stage :=
  [ Component echo_cancellation_ M_ProcessRenderAudio;
    Component echo_control_mobile_ M_ProcessRenderAudio;
    Component gain_control_ M_ProcessRenderAudio ].

(** The values [i] takes in [for (int i = 0; i < count; i++)]. *)
Fixpoint indices_from (i : Z) (iterations : nat) : list Z :=
  match iterations with
  | O => []
  | S n => i :: indices_from (i + 1) n
  end.

Definition channel_indices (count : Z) : list Z :=
  indices_from 0 (Z.to_nat count).

(** The calls that move or reshape audio: those to a buffer, the copy to
    the reference apart (it belongs to the stages). *)
Definition is_framing_event (e : Event) : bool :=
  match e with
  | Buffer _ B_CopyLowPassToReference => false
  | Buffer _ _ => true
  | _ => false
  end.

(** The calls of the debug recording: those on the file, and the lock. *)
Definition file_or_lock_event (e : Event) : bool :=
  is_file_event e || is_lock_event e.

(** The bytes of a C string: those before the first NUL. *)
Definition c_string (text : list Z) : list Z :=
  firstn (Z.to_nat (strlen text)) text.

(** What a component with the version [text] adds to the version of the
    engine: nothing if the text is empty, else a line feed and the text. *)
Definition version_entry (text : list Z) : list Z :=
  if hd 0 (text ++ [0]) =? 0 then [] else 10 :: c_string text.

Section FurtherNotions.

Context {AB : AudioBufferOps} {FW : FileWrapperOps}.
Context {Components : Type} {PC : ProcessingComponentOps Components}.

(** What [ProcessStream] does to the capture buffer around the stages, in
    an engine configured as [s], when the stages end well ([ok]) or not:
    [DeinterleaveFrom]; [Mix] if there are fewer output than input
    channels; at 32 kHz the analysis of every input channel; and after
    stages that ended well, at 32 kHz the synthesis of every output channel,
    then [InterleaveTo]. *)
Definition capture_framing (s : Apm Components) (ok : bool) : list Event :=
  [Buffer capture_audio B_DeinterleaveFrom]
  ++ (if num_capture_output_channels_ s <? num_capture_input_channels_ s
      then [Buffer capture_audio (B_Mix (num_capture_output_channels_ s))]
      else [])
  ++ (if sample_rate_hz_ s =? 32000
      then map (fun i => Buffer capture_audio (B_SplittingFilterAnalysis i))
             (channel_indices (num_capture_input_channels_ s))
      else [])
  ++ (if ok
      then (if sample_rate_hz_ s =? 32000
            then map (fun i =>
                        Buffer capture_audio (B_SplittingFilterSynthesis i))
                   (channel_indices (num_capture_output_channels_ s))
            else [])
           ++ [Buffer capture_audio B_InterleaveTo]
      else []).

(** The same for [AnalyzeReverseStream] and the render buffer: nothing is
    mixed, put together again or written back. *)
Definition render_framing (s : Apm Components) : list Event :=
  [Buffer render_audio B_DeinterleaveFrom]
  ++ (if sample_rate_hz_ s =? 32000
      then map (fun i => Buffer render_audio (B_SplittingFilterAnalysis i))
             (channel_indices (num_render_input_channels_ s))
      else []).

(** The text a component leaves when it is asked for its version. *)
Definition version_text (s : Apm Components) (c : ComponentId) : list Z :=
  snd (component_get_version c s (sizeof_component_version - 1)).

(** What [Version] writes when everything fits: the version of the engine,
    then the entries of the components in [l]. *)
Definition component_versions (s : Apm Components) (l : list ComponentId)
  : list Z :=
  List.concat (map (fun c => version_entry (version_text s c)) l).

Definition version_output (s : Apm Components) : list Z :=
  bytes_of_string "AudioProcessing 1.0.0"
  ++ component_versions s component_list_.

(** The answers the components must give for [Version] to be defined and
    to go through: [kNoError], and a text that fits the array of 256
    bytes it is written to. *)
Definition versions_available (s : Apm Components) (l : list ComponentId)
  : Prop :=
  forall c, In c l ->
    fst (component_get_version c s (sizeof_component_version - 1)) = kNoError
    /\ Z.of_nat (List.length (version_text s c)) < 255.

(** What [ProcessStream] has no business with, and what
    [AnalyzeReverseStream] has none with. *)
Definition beside_capture (s : Apm Components)
  : Z * Z * Z * Z * Z * Z * Z * bool * Z * option AudioBuffer :=
  (settings s, was_stream_delay_set_ s, id_ s, render_audio_ s).

Definition beside_render (s : Apm Components)
  : Z * Z * Z * Z * Z * Z * Z * Z * option AudioBuffer :=
  (settings s, id_ s, capture_audio_ s).

(** What the debug recording has no business with: everything but the
    file. *)
Definition beside_file (s : Apm Components)
  : Z * Z * Z * Z * Z * Z * Z * bool * Z * option AudioBuffer
    * option AudioBuffer * Components :=
  (settings s, was_stream_delay_set_ s, id_ s, capture_audio_ s,
   render_audio_ s, components s).

(** The calls of [get_version] that [Version] makes when the components of
    [before] answer [kNoError] and the next one, [c], answers [err]. *)
Definition version_calls (before : list ComponentId) (c : ComponentId)
    (err : Error) : list Event :=
  map (fun c' => Call c' M_get_version kNoError) before
  ++ [Call c M_get_version err].

End FurtherNotions.

(** * A bench implementation of the collaborators

    Small, executable collaborators on which the engine can be run: a
    buffer that keeps the samples as they come, in the payload of the frame
    itself (as upstream does for a mono frame), a file that takes a given
    number of writes, and components that answer from a script. *)

Definition bench_buffer : AudioBufferOps :=
  {| AudioBuffer := list Z;
     AudioBuffer_new := fun _ _ => [];
     DeinterleaveFrom := fun f _ => _payloadData f;
     frame_through := fun b f =>
       mkAudioFrame (_frequencyInHz f) (_audioChannel f)
         (_payloadDataLengthInSamples f) b;
     Mix := fun _ b => b;
     SplittingFilterAnalysis := fun _ b => b;
     SplittingFilterSynthesis := fun _ b => b;
     CopyLowPassToReference := fun b => b;
     InterleaveTo := fun b f =>
       mkAudioFrame (_frequencyInHz f) (_audioChannel f)
         (_payloadDataLengthInSamples f) b |}.

(** [disk_quota] is the number of writes that will still succeed. *)
Record Disk : Type := mkDisk {
  disk_open : bool;
  disk_quota : nat
}.

Definition disk_write (d : Disk) : bool * Disk :=
  match disk_quota d with
  | O => (false, d)
  | S n => (true, mkDisk (disk_open d) n)
  end.

Definition bench_file : FileWrapperOps :=
  {| FileWrapper := Disk;
     file_Open := disk_open;
     file_CloseFile := fun d => (0, mkDisk false (disk_quota d));
     file_OpenFile := fun _ _ d => (0, mkDisk true (disk_quota d));
     file_WriteText := fun _ d =>
       let '(ok, d') := disk_write d in ((if ok then 0 else -1), d');
     file_Write := fun _ _ d => disk_write d |}.

(** The layout of the frame of module_common_types.h as upstream declares
    it: a one-byte channel count and a two-byte payload length. *)
Definition bench_layout : AudioFrameLayout :=
  {| sizeof_audioChannel := 1;
     sizeof_payloadDataLengthInSamples := 2 |}.

(** What every entry point of a component answers, and whether the
    component is enabled. *)
Record Script : Type := mkScript {
  answer : ComponentId -> Error;
  enabled : ComponentId -> bool
}.

Definition bench_version (c : ComponentId) : list Z :=
  match c with
  | echo_cancellation_ => bytes_of_string "AEC 1"
  | noise_suppression_ => bytes_of_string "NS 1"
  | _ => []
  end.

Definition bench_components
  : @ProcessingComponentOps bench_buffer bench_file Script :=
  {| component_Initialize := fun c s =>
       (answer (components s) c, components s);
     component_is_enabled := fun c s => enabled (components s) c;
     component_ProcessCaptureAudio := fun c s b =>
       (answer (components s) c, components s, b);
     component_AnalyzeCaptureAudio := fun c s b =>
       (answer (components s) c, components s, b);
     component_ProcessRenderAudio := fun c s b =>
       (answer (components s) c, components s, b);
     component_get_version := fun c s _ =>
       (answer (components s) c, bench_version c) |}.

Definition raise_samples (b : @AudioBuffer bench_buffer)
  : @AudioBuffer bench_buffer :=
  map (Z.add 1) (b : list Z).

(** The same components, except that [ProcessCaptureAudio] and
    [ProcessRenderAudio] raise every sample of the buffer by one. *)
Definition raising_components
  : @ProcessingComponentOps bench_buffer bench_file Script :=
  {| component_Initialize := fun c s =>
       (answer (components s) c, components s);
     component_is_enabled := fun c s => enabled (components s) c;
     component_ProcessCaptureAudio := fun c s b =>
       (answer (components s) c, components s, raise_samples b);
     component_AnalyzeCaptureAudio := fun c s b =>
       (answer (components s) c, components s, b);
     component_ProcessRenderAudio := fun c s b =>
       (answer (components s) c, components s, raise_samples b);
     component_get_version := fun c s _ =>
       (answer (components s) c, bench_version c) |}.

(** Scripts: all components succeed and are disabled; all succeed and are
    enabled; the noise suppression fails. *)
Definition all_ok : Script :=
  mkScript (fun _ => kNoError) (fun _ => false).

Definition all_enabled : Script :=
  mkScript (fun _ => kNoError) (fun _ => true).

Definition noise_suppression_fails : Script :=
  mkScript (fun c => match c with
                     | noise_suppression_ => kOtherError (-1)
                     | _ => kNoError
                     end)
           (fun _ => true).

(** The engine right after [Create], with a closed debug file. *)
Definition bench_apm (cs : Script) (d : Disk)
  : @Apm bench_buffer bench_file Script :=
  @mkApm bench_buffer bench_file Script
    0 cs d (Some []) (Some []) 16000 16000 160 0 false 1 1 1.

(** A closed debug file, an open one that takes every write, and an open
    one that takes none. *)
Definition closed_disk : Disk := mkDisk false 0.
Definition good_disk : Disk := mkDisk true 16.
Definition full_disk : Disk := mkDisk true 0.

(** A mono frame of 10 ms at 16 kHz. *)
Definition bench_frame : AudioFrame :=
  mkAudioFrame 16000 1 160 (repeat 7 160).

(** * Rules for [keeps], [total] and the lock *)

Section Rules.

Variables St B : Type.
Variable proj : St -> B.
Variable allowed : Event -> bool.

Lemma keeps_ret (A : Type) (a : A) : keeps proj allowed (ret (St:=St) a).
Proof.
  intros s r s' evs H. inversion H; subst. split; reflexivity.
Qed.

Lemma keeps_get : keeps proj allowed (get (St:=St)).
Proof.
  intros s r s' evs H. inversion H; subst. split; reflexivity.
Qed.

Lemma keeps_undefined (A : Type) : keeps proj allowed (undefined (St:=St) (A:=A)).
Proof.
  intros s r s' evs H. discriminate H.
Qed.

Lemma keeps_modify (f : St -> St) :
  (forall s, proj (f s) = proj s) -> keeps proj allowed (modify f).
Proof.
  intros Hf s r s' evs H. inversion H; subst. split; [apply Hf | reflexivity].
Qed.

Lemma keeps_emit (e : Event) :
  allowed e = true -> keeps proj allowed (emit (St:=St) e).
Proof.
  intros He s r s' evs H. inversion H; subst.
  split; [reflexivity | simpl; rewrite He; reflexivity].
Qed.

Lemma keeps_bind (A C : Type) (m : M St A) (k : A -> M St C) :
  keeps proj allowed m ->
  (forall a, keeps proj allowed (k a)) ->
  keeps proj allowed (bind m k).
Proof.
  intros Hm Hk s r s' evs H. unfold bind in H.
  destruct (m s) as [[[a s1] e1]|] eqn:E1; [| discriminate H].
  destruct (k a s1) as [[[b s2] e2]|] eqn:E2; [| discriminate H].
  inversion H; subst.
  destruct (Hm _ _ _ _ E1) as [P1 A1].
  destruct (Hk _ _ _ _ _ E2) as [P2 A2].
  split.
  - rewrite P2. exact P1.
  - rewrite forallb_app, A1, A2. reflexivity.
Qed.

Lemma keeps_check (m k : M St Error) :
  keeps proj allowed m -> keeps proj allowed k ->
  keeps proj allowed (check m k).
Proof.
  intros Hm Hk. unfold check. apply keeps_bind; [exact Hm |].
  intros err. destruct (is_ok err); [exact Hk | apply keeps_ret].
Qed.

Lemma keeps_for_from (body : Z -> M St unit) :
  (forall i, keeps proj allowed (body i)) ->
  forall n i, keeps proj allowed (for_from i n body).
Proof.
  intros Hb. induction n as [|n IH]; intros i; simpl.
  - apply keeps_ret.
  - apply keeps_bind; [apply Hb | intros _; apply IH].
Qed.

Lemma keeps_for_channels (count : Z) (body : Z -> M St unit) :
  (forall i, keeps proj allowed (body i)) ->
  keeps proj allowed (for_channels count body).
Proof.
  intros Hb. unfold for_channels. apply keeps_for_from. exact Hb.
Qed.

Lemma keeps_lock_free (A : Type) (m : M St A) :
  keeps proj not_lock_event m -> lock_free m.
Proof.
  intros H s r s' evs E. exact (proj2 (H _ _ _ _ E)).
Qed.

Lemma lock_free_under_lock (A : Type) (m : M St A) :
  lock_free m -> under_lock (locked m).
Proof.
  intros Hm s r s' evs H. unfold locked, bind, emit, ret in H.
  destruct (m s) as [[[a s1] e1]|] eqn:E1; [| discriminate H].
  inversion H; subst. exists e1. split.
  - reflexivity.
  - exact (Hm _ _ _ _ E1).
Qed.

(** What [locked] adds to a body that [keeps]. *)
Lemma keeps_locked (A : Type) (m : M St A) :
  allowed Enter = true -> allowed Leave = true ->
  keeps proj allowed m -> keeps proj allowed (locked m).
Proof.
  intros HE HL Hm. unfold locked.
  apply keeps_bind; [apply keeps_emit; exact HE | intros _].
  apply keeps_bind; [exact Hm | intros r].
  apply keeps_bind; [apply keeps_emit; exact HL | intros _].
  apply keeps_ret.
Qed.

End Rules.

Section TotalRules.

Variable St : Type.
Variable inv : St -> Prop.

Lemma total_ret (A : Type) (a : A) (post : A -> list Event -> Prop) :
  post a [] -> total inv (ret a) post.
Proof.
  intros H s I. exists a, s, []. repeat split; assumption.
Qed.

Lemma total_ret_eq (A : Type) (a : A) :
  total inv (ret a) (fun x evs => x = a /\ evs = []).
Proof.
  apply total_ret. split; reflexivity.
Qed.

Lemma total_bind (A C : Type) (m : M St A) (k : A -> M St C)
    (mid : A -> list Event -> Prop) (post : C -> list Event -> Prop) :
  total inv m mid ->
  (forall a e1, mid a e1 -> total inv (k a) (fun c e2 => post c (e1 ++ e2))) ->
  total inv (bind m k) post.
Proof.
  intros Hm Hk s I. unfold bind.
  destruct (Hm s I) as (a & s1 & e1 & E1 & I1 & P1). rewrite E1.
  destruct (Hk a e1 P1 s1 I1) as (c & s2 & e2 & E2 & I2 & P2). rewrite E2.
  exists c, s2, (e1 ++ e2). repeat split; assumption.
Qed.

Lemma total_check (m k : M St Error) :
  total inv m (fun _ _ => True) ->
  total inv k (fun _ _ => True) ->
  total inv (check m k) (fun _ _ => True).
Proof.
  intros Hm Hk. unfold check. eapply total_bind; [exact Hm |].
  intros err e1 _. destruct (is_ok err).
  - intros s I. destruct (Hk s I) as (a & s1 & e2 & E & I1 & _).
    exists a, s1, e2. repeat split; assumption.
  - apply total_ret. exact I.
Qed.

Lemma total_weaken (A : Type) (m : M St A)
    (post post' : A -> list Event -> Prop) :
  total inv m post ->
  (forall a evs, post a evs -> post' a evs) ->
  total inv m post'.
Proof.
  intros Hm Hw s I. destruct (Hm s I) as (a & s1 & e1 & E1 & I1 & P1).
  exists a, s1, e1. repeat split; auto.
Qed.

Lemma total_get : total inv get (fun _ evs => evs = []).
Proof.
  intros s I. exists s, s, []. repeat split; assumption.
Qed.

Lemma total_modify (f : St -> St) :
  (forall s, inv s -> inv (f s)) ->
  total inv (modify f) (fun _ evs => evs = []).
Proof.
  intros Hf s I. exists tt, (f s), []. repeat split; auto.
Qed.

Lemma total_for_from (body : Z -> M St unit) (P : list Event -> Prop) :
  P [] ->
  (forall e1 e2, P e1 -> P e2 -> P (e1 ++ e2)) ->
  (forall i, total inv (body i) (fun _ evs => P evs)) ->
  forall n i, total inv (for_from i n body) (fun _ evs => P evs).
Proof.
  intros P0 Papp Hb. induction n as [|n IH]; intros i; simpl.
  - apply total_ret. exact P0.
  - eapply total_bind; [apply Hb |].
    intros u1 e1 P1. eapply total_weaken; [apply IH |].
    intros u2 e2 P2. apply Papp; assumption.
Qed.

Lemma total_for_channels (count : Z) (body : Z -> M St unit)
    (P : list Event -> Prop) :
  P [] ->
  (forall e1 e2, P e1 -> P e2 -> P (e1 ++ e2)) ->
  (forall i, total inv (body i) (fun _ evs => P evs)) ->
  total inv (for_channels count body) (fun _ evs => P evs).
Proof.
  intros P0 Papp Hb. unfold for_channels. apply total_for_from; assumption.
Qed.

End TotalRules.

(** Unfolds the constant at the head of an application. *)
Ltac unfold_head m :=
  lazymatch m with
  | ?f _ _ _ _ _ _ _ _ => unfold_head f
  | ?f _ => unfold_head f
  | ?f => unfold f
  end.

(** One syntax-directed step of a proof of [keeps]. *)
Ltac keeps_step :=
  lazymatch goal with
  | |- keeps _ _ (bind _ _) => apply keeps_bind; [| intros ?]
  | |- keeps _ _ (check _ _) => apply keeps_check
  | |- keeps _ _ (ret _) => apply keeps_ret
  | |- keeps _ _ get => apply keeps_get
  | |- keeps _ _ undefined => apply keeps_undefined
  | |- keeps _ _ (modify _) => apply keeps_modify; intros; reflexivity
  | |- keeps _ _ (emit _) => apply keeps_emit; reflexivity
  | |- keeps _ _ (for_channels _ _) => apply keeps_for_channels; intros ?
  | |- keeps _ _ (locked _) => apply keeps_locked; [reflexivity | reflexivity |]
  | |- keeps _ _ (if ?b then _ else _) => destruct b
  | |- keeps _ _ (match ?x with _ => _ end) => destruct x
  end.

(** * Arrays of bytes *)

Section Arrays.

Local Open Scope nat_scope.

Lemma splice_length (v : list Z) a mid :
  a + List.length mid <= List.length v ->
  List.length (splice v a mid) = List.length v.
Proof.
  intros H. unfold splice.
  rewrite !length_app, length_firstn, length_skipn. lia.
Qed.

Lemma splice_inside (v : list Z) a mid i :
  a + List.length mid <= List.length v ->
  a <= i < a + List.length mid ->
  nth_error (splice v a mid) i = nth_error mid (i - a).
Proof.
  intros H I. unfold splice.
  assert (L : List.length (firstn a v) = a) by (rewrite length_firstn; lia).
  rewrite nth_error_app2 by lia. rewrite L.
  rewrite nth_error_app1 by lia. reflexivity.
Qed.

Lemma splice_outside (v : list Z) a mid i :
  a + List.length mid <= List.length v ->
  i < a \/ a + List.length mid <= i ->
  nth_error (splice v a mid) i = nth_error v i.
Proof.
  intros H I. unfold splice.
  assert (L : List.length (firstn a v) = a) by (rewrite length_firstn; lia).
  destruct I as [I | I].
  - rewrite nth_error_app1 by lia. rewrite nth_error_firstn.
    destruct (Nat.ltb_spec i a); [reflexivity | lia].
  - rewrite nth_error_app2 by lia. rewrite L.
    rewrite nth_error_app2 by lia. rewrite nth_error_skipn.
    f_equal. lia.
Qed.

Lemma splice_again (v : list Z) a mid mid' :
  a + List.length mid <= List.length v ->
  List.length mid' = List.length mid ->
  splice (splice v a mid) a mid' = splice v a mid'.
Proof.
  intros H E. unfold splice at 1 3.
  assert (L : List.length (firstn a v) = a) by (rewrite length_firstn; lia).
  f_equal.
  - unfold splice. rewrite firstn_app, L, Nat.sub_diag, firstn_O, app_nil_r.
    rewrite <- L at 1. apply firstn_all.
  - f_equal. unfold splice. rewrite E.
    rewrite skipn_app, L.
    replace (skipn (a + List.length mid) (firstn a v)) with (@nil Z)
      by (symmetry; apply skipn_all2; lia).
    replace (a + List.length mid - a) with (List.length mid) by lia.
    rewrite skipn_app, skipn_all, Nat.sub_diag. reflexivity.
Qed.

Local Open Scope Z_scope.

Lemma memset_splice (v : list Z) pos c n :
  0 <= pos -> 0 <= n -> pos + n <= Z.of_nat (List.length v) ->
  memset v pos c n = Some (splice v (Z.to_nat pos) (repeat c (Z.to_nat n))).
Proof.
  intros P N B. unfold memset, splice.
  replace ((0 <=? pos) && (0 <=? n) && (pos + n <=? Z.of_nat (List.length v)))
    with true
    by (symmetry; rewrite !andb_true_iff, !Z.leb_le; auto).
  rewrite repeat_length, Z2Nat.inj_add by assumption. reflexivity.
Qed.

Lemma memcpy_splice (v : list Z) pos src n :
  0 <= pos -> 0 <= n -> pos + n <= Z.of_nat (List.length v) ->
  n <= Z.of_nat (List.length src) ->
  memcpy v pos src n
  = Some (splice v (Z.to_nat pos) (firstn (Z.to_nat n) src)).
Proof.
  intros P N B S. unfold memcpy, splice.
  replace ((0 <=? pos) && (0 <=? n) && (pos + n <=? Z.of_nat (List.length v))
           && (n <=? Z.of_nat (List.length src)))
    with true
    by (symmetry; rewrite !andb_true_iff, !Z.leb_le; auto).
  rewrite length_firstn, Z2Nat.inj_add by assumption.
  replace (Nat.min (Z.to_nat n) (List.length src)) with (Z.to_nat n) by lia.
  reflexivity.
Qed.

Lemma strlen_bounds (l : list Z) : 0 <= strlen l <= Z.of_nat (List.length l).
Proof.
  induction l as [|c l IH]; cbn [strlen List.length]; [lia |].
  rewrite Nat2Z.inj_succ. destruct (c =? 0); lia.
Qed.

Lemma to_uword32_bounds (x : Z) : 0 <= x -> 0 <= to_uword32 x <= x.
Proof.
  intros H. unfold to_uword32. split.
  - apply Z.mod_pos_bound. lia.
  - apply Z.mod_le; lia.
Qed.

Lemma to_uword32_small (x : Z) : 0 <= x < 2 ^ 32 -> to_uword32 x = x.
Proof.
  intros H. unfold to_uword32. apply Z.mod_small. exact H.
Qed.

Lemma splice_byte_outside (v : list Z) pos mid i :
  0 <= pos -> 0 <= i ->
  pos + Z.of_nat (List.length mid) <= Z.of_nat (List.length v) ->
  i < pos \/ pos + Z.of_nat (List.length mid) <= i ->
  byte (splice v (Z.to_nat pos) mid) i = byte v i.
Proof.
  intros P I B O. unfold byte. apply splice_outside; lia.
Qed.

Lemma splice_byte_inside (v : list Z) pos mid i :
  0 <= pos ->
  pos + Z.of_nat (List.length mid) <= Z.of_nat (List.length v) ->
  pos <= i < pos + Z.of_nat (List.length mid) ->
  byte (splice v (Z.to_nat pos) mid) i = nth_error mid (Z.to_nat (i - pos)).
Proof.
  intros P B I. unfold byte. rewrite splice_inside by lia.
  f_equal. lia.
Qed.

End Arrays.

(** The answer of the next call to the debug file, by cases. *)
Ltac file_step :=
  let no_call d :=
    lazymatch d with
    | context [file_CloseFile _] => fail
    | context [file_OpenFile _ _ _] => fail
    | context [file_WriteText _ _] => fail
    | context [file_Write _ _ _] => fail
    | _ => idtac
    end in
  match goal with
  | |- context [file_CloseFile ?d] =>
      no_call d;
      let z := fresh "z" in
      destruct (file_CloseFile d) as [z ?]; try destruct (z =? -1) eqn:?
  | |- context [file_OpenFile ?n ?ro ?d] =>
      no_call d;
      let z := fresh "z" in
      destruct (file_OpenFile n ro d) as [z ?]; destruct (z =? -1) eqn:?
  | |- context [file_WriteText ?x ?d] =>
      no_call d;
      let z := fresh "z" in
      destruct (file_WriteText x d) as [z ?]; destruct (z =? -1) eqn:?
  | |- context [file_Write ?o ?n ?d] =>
      no_call d;
      destruct (file_Write o n d) as [[|] ?]
  end.

(** * Properties *)

Section Properties.

Context {AB : AudioBufferOps} {FW : FileWrapperOps} {AF : AudioFrameLayout}.
Context {Components : Type} {PC : ProcessingComponentOps Components}.

(** ** Auxiliary facts *)

Lemma is_ok_false (err : Error) : is_ok err = false -> err <> kNoError.
Proof. intros H E. subst err. discriminate H. Qed.

Lemma is_ok_true (err : Error) : is_ok err = true -> err = kNoError.
Proof. destruct err; simpl; intros H; try discriminate H; reflexivity. Qed.

(** The calls made while the components are initialised. *)
Lemma Initialize_components_runs (l : list ComponentId) :
  forall s : Apm Components,
    exists r cs evs,
      Initialize_components l s = Some (r, set_components cs s, evs)
      /\ forallb not_lock_event evs = true.
Proof.
  induction l as [|c l IH]; intros s; simpl.
  - exists kNoError, (components s), []. destruct s; split; reflexivity.
  - unfold check, bind, component_init.
    destruct (component_Initialize c s) as [err cs] eqn:E.
    destruct (is_ok err) eqn:Ok.
    + destruct (IH (set_components cs s)) as (r & cs' & evs & H & Hl).
      rewrite H. exists r, cs', (Call c M_Initialize err :: evs).
      split; [reflexivity | exact Hl].
    + exists err, cs, [Call c M_Initialize err]. split; reflexivity.
Qed.

Lemma InitializeLocked_runs (s : Apm Components) :
  exists r cs evs,
    InitializeLocked s = Some (r, reinitialized cs s, evs)
    /\ forallb not_lock_event evs = true.
Proof.
  unfold InitializeLocked, new_buffer, bind, get, modify, emit.
  match goal with
  | |- context [Initialize_components ?l ?s0] =>
      destruct (Initialize_components_runs l s0) as (r & cs & evs & H & Hl);
      rewrite H
  end.
  exists r, cs. eexists. split; [reflexivity | exact Hl].
Qed.

(** ** What the parts of the engine keep *)

Section Frame.

Variable B : Type.
Variable proj : Apm Components -> B.
Variable allowed : Event -> bool.

Hypothesis proj_components : forall v s, proj (set_components v s) = proj s.
Hypothesis proj_debug_file : forall v s, proj (set_debug_file_ v s) = proj s.
Hypothesis proj_capture :
  forall a v s,
    capture_audio_ s = Some a -> proj (set_capture_audio_ (Some v) s) = proj s.
Hypothesis proj_render :
  forall a v s,
    render_audio_ s = Some a -> proj (set_render_audio_ (Some v) s) = proj s.
Hypothesis proj_new : forall b v s, proj (set_buffer b v s) = proj s.
Hypothesis proj_flag :
  forall v s, proj (set_was_stream_delay_set_ v s) = proj s.

Hypothesis allowed_Buffer : forall b op, allowed (Buffer b op) = true.
Hypothesis allowed_Call : forall c m r, allowed (Call c m r) = true.
Hypothesis allowed_IsEnabled : forall c e, allowed (IsEnabled c e) = true.
Hypothesis allowed_Write : forall o n ok, allowed (Write o n ok) = true.
Hypothesis allowed_WriteText : forall x r, allowed (WriteText x r) = true.
Hypothesis allowed_OpenFile : forall x ro r, allowed (OpenFile x ro r) = true.
Hypothesis allowed_CloseFile : forall r, allowed (CloseFile r) = true.

Lemma proj_buffer b a v s :
  buffer b s = Some a -> proj (set_buffer b (Some v) s) = proj s.
Proof. destruct b; [apply proj_capture | apply proj_render]. Qed.

Lemma keeps_on_buffer b op f : keeps proj allowed (on_buffer b op f).
Proof.
  intros s r s' evs H. unfold on_buffer in H.
  destruct (buffer b s) as [a|] eqn:E; [| discriminate H].
  inversion H; subst.
  split; [eapply proj_buffer; exact E
         | simpl; rewrite allowed_Buffer; reflexivity].
Qed.

Lemma keeps_interleave_to b f : keeps proj allowed (interleave_to b f).
Proof.
  intros s r s' evs H. unfold interleave_to in H.
  destruct (buffer b s); [| discriminate H]. inversion H; subst.
  split; [reflexivity | simpl; rewrite allowed_Buffer; reflexivity].
Qed.

Lemma keeps_frame_behind b f : keeps proj allowed (frame_behind b f).
Proof.
  intros s r s' evs H. unfold frame_behind in H.
  destruct (buffer b s); inversion H; subst; split; reflexivity.
Qed.

Lemma keeps_call_on_buffer c m b f :
  keeps proj allowed (call_on_buffer c m b f).
Proof.
  intros s r s' evs H. unfold call_on_buffer in H.
  destruct (buffer b s) as [a|] eqn:E; [| discriminate H].
  destruct (f c s a) as [[err cs] a']. inversion H; subst. split.
  - erewrite proj_buffer; [apply proj_components | destruct b; exact E].
  - simpl. rewrite allowed_Call. reflexivity.
Qed.

Lemma keeps_component_init c : keeps proj allowed (component_init c).
Proof.
  intros s r s' evs H. unfold component_init in H.
  destruct (component_Initialize c s) as [err cs]. inversion H; subst.
  split; [apply proj_components | simpl; rewrite allowed_Call; reflexivity].
Qed.

Lemma keeps_is_enabled c : keeps proj allowed (is_enabled c).
Proof.
  intros s r s' evs H. inversion H; subst.
  split; [reflexivity | simpl; rewrite allowed_IsEnabled; reflexivity].
Qed.

Lemma keeps_get_version c len : keeps proj allowed (get_version c len).
Proof.
  intros s r s' evs H. unfold get_version in H.
  destruct (component_get_version c s len) as [err text].
  inversion H; subst.
  split; [reflexivity | simpl; rewrite allowed_Call; reflexivity].
Qed.

Lemma keeps_debug_Open : keeps proj allowed debug_Open.
Proof.
  intros s r s' evs H. inversion H; subst. split; reflexivity.
Qed.

Lemma keeps_debug_CloseFile : keeps proj allowed debug_CloseFile.
Proof.
  intros s r s' evs H. unfold debug_CloseFile in H.
  destruct (file_CloseFile (debug_file_ s)) as [z fw]. inversion H; subst.
  split; [apply proj_debug_file | simpl; rewrite allowed_CloseFile; reflexivity].
Qed.

Lemma keeps_debug_OpenFile name ro : keeps proj allowed (debug_OpenFile name ro).
Proof.
  intros s r s' evs H. unfold debug_OpenFile in H.
  destruct (file_OpenFile name ro (debug_file_ s)) as [z fw].
  inversion H; subst.
  split; [apply proj_debug_file | simpl; rewrite allowed_OpenFile; reflexivity].
Qed.

Lemma keeps_debug_WriteText text : keeps proj allowed (debug_WriteText text).
Proof.
  intros s r s' evs H. unfold debug_WriteText in H.
  destruct (file_WriteText text (debug_file_ s)) as [z fw].
  inversion H; subst.
  split; [apply proj_debug_file | simpl; rewrite allowed_WriteText; reflexivity].
Qed.

Lemma keeps_debug_Write obj n : keeps proj allowed (debug_Write obj n).
Proof.
  intros s r s' evs H. unfold debug_Write in H.
  destruct (file_Write obj n (debug_file_ s)) as [ok fw].
  inversion H; subst.
  split; [apply proj_debug_file | simpl; rewrite allowed_Write; reflexivity].
Qed.

(** A step of [keeps] through the engine's own calls. *)
Ltac keeps_engine :=
  repeat first
    [ apply keeps_on_buffer
    | apply keeps_interleave_to
    | apply keeps_frame_behind
    | apply keeps_call_on_buffer
    | apply keeps_component_init
    | apply keeps_is_enabled
    | apply keeps_get_version
    | apply keeps_debug_Open
    | apply keeps_debug_CloseFile
    | apply keeps_debug_OpenFile
    | apply keeps_debug_WriteText
    | apply keeps_debug_Write
    | apply keeps_emit; apply allowed_Buffer
    | apply keeps_modify; intros; apply proj_flag
    | keeps_step ].

Lemma keeps_write_frame event f : keeps proj allowed (write_frame event f).
Proof. unfold write_frame. keeps_engine. Qed.

Lemma keeps_ProcessStream_components :
  keeps proj allowed ProcessStream_components.
Proof.
  unfold ProcessStream_components, ProcessCaptureAudio, AnalyzeCaptureAudio.
  keeps_engine.
Qed.

Lemma keeps_ProcessStream_audio f : keeps proj allowed (ProcessStream_audio f).
Proof.
  unfold ProcessStream_audio.
  repeat first [ apply keeps_ProcessStream_components | keeps_engine ].
Qed.

Lemma keeps_AnalyzeReverseStream_components :
  keeps proj allowed AnalyzeReverseStream_components.
Proof.
  unfold AnalyzeReverseStream_components, ProcessRenderAudio. keeps_engine.
Qed.

Lemma keeps_AnalyzeReverseStream_audio f :
  keeps proj allowed (AnalyzeReverseStream_audio f).
Proof.
  unfold AnalyzeReverseStream_audio.
  repeat first [ apply keeps_AnalyzeReverseStream_components | keeps_engine ].
Qed.

Lemma keeps_Initialize_components l :
  keeps proj allowed (Initialize_components l).
Proof.
  induction l as [|c l IH]; simpl.
  - apply keeps_ret.
  - apply keeps_check; [apply keeps_component_init | exact IH].
Qed.

Lemma keeps_InitializeLocked : keeps proj allowed InitializeLocked.
Proof.
  unfold InitializeLocked, new_buffer.
  repeat first
    [ apply keeps_Initialize_components
    | apply keeps_emit; apply allowed_Buffer
    | apply keeps_modify; intros; first [apply proj_new | apply proj_flag]
    | keeps_step ].
Qed.

Lemma keeps_StartDebugRecording_body name :
  keeps proj allowed
    (match name with
     | None => ret kNullPointerError
     | Some n =>
       open <- debug_Open ;;
       check (if open
              then r <- debug_CloseFile ;;
                   if r =? -1 then ret kFileError else ret kNoError
              else ret kNoError) (
       r <- debug_OpenFile n false ;;
       if r =? -1 then debug_CloseFile ;; ret kFileError else
       r <- debug_WriteText (kMagicNumber ++ newline) ;;
       if r =? -1 then debug_CloseFile ;; ret kFileError else
       ok <- debug_Write [event_tag kInitializeEvent] sizeof_uword8 ;;
       if negb ok then ret kFileError else
       s <- get ;;
       ok <- debug_Write [sample_rate_hz_ s] sizeof_int ;;
       if negb ok then ret kFileError else
       ret kNoError)
     end).
Proof. keeps_engine. Qed.

Lemma keeps_StopDebugRecording_body :
  keeps proj allowed
    (open <- debug_Open ;;
     if open
     then r <- debug_CloseFile ;;
          if r =? -1 then ret kFileError else ret kNoError
     else ret kNoError).
Proof. keeps_engine. Qed.

Lemma keeps_Version_components l :
  forall version remaining position,
    keeps proj allowed (Version_components l version remaining position).
Proof.
  induction l as [|c l IH]; intros version remaining position; simpl.
  - apply keeps_ret.
  - apply keeps_bind; [apply keeps_get_version |].
    intros [err text].
    repeat first [ apply IH | keeps_step ].
Qed.

Lemma keeps_Version version remaining position :
  keeps proj allowed (Version version remaining position).
Proof.
  unfold Version.
  repeat first [ apply keeps_Version_components | keeps_step ].
Qed.

End Frame.

(** ** Configuration *)

(** The configuration changes that the setters refuse. *)
Inductive rejected_configuration : Operation -> Prop :=
| rejected_rate (rate : Z) :
    rate <> 8000 -> rate <> 16000 -> rate <> 32000 ->
    rejected_configuration (Op_set_sample_rate_hz rate)
| rejected_input_channels (input output : Z) :
    input <> 1 -> input <> 2 ->
    rejected_configuration (Op_set_num_channels input output)
| rejected_output_channels (input output : Z) :
    output <> 1 -> output <> 2 ->
    rejected_configuration (Op_set_num_channels input output)
| rejected_output_above_input (input output : Z) :
    output > input ->
    rejected_configuration (Op_set_num_channels input output)
| rejected_reverse_channels (channels : Z) :
    channels <> 1 -> channels <> 2 ->
    rejected_configuration (Op_set_num_reverse_channels channels).

(** C5: a rejected configuration change ([set_sample_rate_hz] with a rate
    outside 8000, 16000, 32000; [set_num_channels] with an input or output
    count outside 1, 2 or with more outputs than inputs;
    [set_num_reverse_channels] with a count outside 1, 2) returns
    [kBadParameterError] and leaves the whole engine as it was, so the
    sample rate, the split rate, the samples per channel and the channel
    counts in particular. *)
Theorem rejected_configuration_changes_nothing
    (op : Operation) (s : Apm Components) :
  rejected_configuration op ->
  exists s',
    perform op s = Some (kBadParameterError, s', [Enter; Leave])
    /\ s' = s
    /\ sample_rate_hz_ s' = sample_rate_hz_ s
    /\ split_sample_rate_hz_ s' = split_sample_rate_hz_ s
    /\ samples_per_channel_ s' = samples_per_channel_ s
    /\ num_render_input_channels_ s' = num_render_input_channels_ s
    /\ num_capture_input_channels_ s' = num_capture_input_channels_ s
    /\ num_capture_output_channels_ s' = num_capture_output_channels_ s.
Proof.
  intros H. exists s.
  split; [| repeat split].
  destruct H as [rate H1 H2 H3 | i o H1 H2 | i o H1 H2 | i o H1 | ch H1 H2];
    simpl.
  - unfold set_sample_rate_hz, kSampleRate8kHz, kSampleRate16kHz,
      kSampleRate32kHz.
    apply Z.eqb_neq in H1, H2, H3. rewrite H1, H2, H3. reflexivity.
  - unfold set_num_channels.
    destruct (o >? i) eqn:E1; [reflexivity |].
    replace ((i >? 2) || (i <? 1)) with true; [reflexivity |].
    symmetry. apply orb_true_iff. rewrite Z.gtb_lt, Z.ltb_lt.
    rewrite Z.gtb_ltb in E1. apply Z.ltb_ge in E1. lia.
  - unfold set_num_channels.
    destruct (o >? i) eqn:E1; [reflexivity |].
    destruct ((i >? 2) || (i <? 1)) eqn:E2; [reflexivity |].
    replace ((o >? 2) || (o <? 1)) with true; [reflexivity |].
    symmetry. apply orb_true_iff. rewrite Z.gtb_lt, Z.ltb_lt. lia.
  - unfold set_num_channels.
    replace (o >? i) with true; [reflexivity |].
    symmetry. apply Z.gtb_lt. lia.
  - unfold set_num_reverse_channels.
    replace ((ch >? 2) || (ch <? 1)) with true; [reflexivity |].
    symmetry. apply orb_true_iff. rewrite Z.gtb_lt, Z.ltb_lt. lia.
Qed.

(** C6: after an accepted [set_sample_rate_hz(rate)], that is for a rate of
    8000, 16000 or 32000, and whatever the components answer when they are
    initialised again, the samples per channel are [rate / 100] and the
    split rate is 16000 for 32000 and the rate itself otherwise. *)
Theorem accepted_rate_sets_derived_fields (rate : Z) (s : Apm Components) :
  rate = 8000 \/ rate = 16000 \/ rate = 32000 ->
  exists r s' evs,
    set_sample_rate_hz rate s = Some (r, s', evs)
    /\ sample_rate_hz_ s' = rate
    /\ samples_per_channel_ s' = rate / 100
    /\ split_sample_rate_hz_ s' = (if rate =? 32000 then 16000 else rate).
Proof.
  intros H.
  unfold set_sample_rate_hz, locked.
  assert (G : negb (rate =? kSampleRate8kHz) && negb (rate =? kSampleRate16kHz)
              && negb (rate =? kSampleRate32kHz) = false)
    by (destruct H as [-> | [-> | ->]]; reflexivity).
  rewrite G. unfold bind at 1 2. simpl.
  unfold bind at 1 2 3 4. unfold modify at 1 2, get at 1.
  cbn [sample_rate_hz_ set_samples_per_channel_ set_sample_rate_hz_].
  assert (Q : Z.quot rate 100 = rate / 100)
    by (destruct H as [-> | [-> | ->]]; reflexivity).
  destruct (rate =? kSampleRate32kHz) eqn:E32; unfold modify;
    match goal with
    | |- context [InitializeLocked ?s0] =>
        destruct (InitializeLocked_runs s0) as (r & cs & evs & Hi & _);
        rewrite Hi
    end;
    exists r; eexists; eexists; (split; [reflexivity |]);
    cbn; unfold kSampleRate32kHz in E32; rewrite E32;
    repeat split; auto.
Qed.

(** ** The stream delay *)

(** C3: [set_stream_delay_ms(delay)] always sets the flag
    [was_stream_delay_set_]; a negative delay is answered with
    [kBadParameterError] and the stored delay stays; a delay above 500 is
    stored as 500 and answered with [kBadStreamParameterWarning]; any other
    delay is stored and answered with [kNoError]. *)
Theorem set_stream_delay_ms_outcomes (delay : Z) (s : Apm Components) :
  exists r s',
    set_stream_delay_ms delay s = Some (r, s', [])
    /\ was_stream_delay_set_ s' = true
    /\ (delay < 0 ->
        r = kBadParameterError /\ stream_delay_ms_ s' = stream_delay_ms_ s)
    /\ (delay > 500 ->
        r = kBadStreamParameterWarning /\ stream_delay_ms_ s' = 500)
    /\ (0 <= delay <= 500 ->
        r = kNoError /\ stream_delay_ms_ s' = delay).
Proof.
  unfold set_stream_delay_ms, bind, modify, ret.
  destruct (delay <? 0) eqn:Neg.
  - apply Z.ltb_lt in Neg. eexists; eexists.
    split; [reflexivity |]. simpl. repeat split; try reflexivity; lia.
  - apply Z.ltb_ge in Neg. destruct (delay >? 500) eqn:Big.
    + apply Z.gtb_lt in Big. eexists; eexists.
      split; [reflexivity |]. simpl. repeat split; try reflexivity; lia.
    + rewrite Z.gtb_ltb in Big. apply Z.ltb_ge in Big. eexists; eexists.
      split; [reflexivity |]. simpl. repeat split; try reflexivity; lia.
Qed.

(** ** The operations keep the configuration well formed *)

Lemma bind_inv (A C : Type) (m : M (Apm Components) A)
    (k : A -> M (Apm Components) C) s c s2 evs :
  bind m k s = Some (c, s2, evs) ->
  exists a s1 e1 e2,
    m s = Some (a, s1, e1) /\ k a s1 = Some (c, s2, e2) /\ evs = e1 ++ e2.
Proof.
  unfold bind. intros H.
  destruct (m s) as [[[a s1] e1]|]; [| discriminate H].
  destruct (k a s1) as [[[b s3] e2]|] eqn:E2; [| discriminate H].
  inversion H; subst. exists a, s1, e1, e2. repeat split. exact E2.
Qed.

Lemma locked_run (A : Type) (m : M (Apm Components) A) s r s' inside :
  m s = Some (r, s', inside) ->
  locked m s = Some (r, s', Enter :: inside ++ [Leave]).
Proof.
  intros H. unfold locked, bind, emit, ret. rewrite H. reflexivity.
Qed.

Lemma locked_inv (A : Type) (m : M (Apm Components) A) s r s' evs :
  locked m s = Some (r, s', evs) ->
  exists inside, m s = Some (r, s', inside) /\ evs = Enter :: inside ++ [Leave].
Proof.
  unfold locked, bind, emit, ret. intros H.
  destruct (m s) as [[[a s1] e1]|]; [| discriminate H].
  inversion H; subst. exists e1. split; reflexivity.
Qed.

Lemma to_uword32_rate (s : Apm Components) :
  config_ok s -> to_uword32 (sample_rate_hz_ s) = sample_rate_hz_ s.
Proof.
  intros [R _ _ _ _ _ _]. unfold to_uword32.
  destruct R as [-> | [-> | ->]]; reflexivity.
Qed.

Lemma keeps_ProcessStream B (proj : Apm Components -> B) frame :
  (forall v s, proj (set_components v s) = proj s) ->
  (forall v s, proj (set_debug_file_ v s) = proj s) ->
  (forall a v s, capture_audio_ s = Some a ->
                 proj (set_capture_audio_ (Some v) s) = proj s) ->
  (forall a v s, render_audio_ s = Some a ->
                 proj (set_render_audio_ (Some v) s) = proj s) ->
  keeps proj (fun _ => true) (ProcessStream frame).
Proof.
  intros H1 H2 H3 H4. unfold ProcessStream.
  repeat first
    [ apply keeps_write_frame; (assumption || (intros; reflexivity))
    | apply keeps_ProcessStream_audio; (assumption || (intros; reflexivity))
    | keeps_step ].
Qed.

Lemma keeps_AnalyzeReverseStream B (proj : Apm Components -> B) frame :
  (forall v s, proj (set_components v s) = proj s) ->
  (forall v s, proj (set_debug_file_ v s) = proj s) ->
  (forall a v s, capture_audio_ s = Some a ->
                 proj (set_capture_audio_ (Some v) s) = proj s) ->
  (forall a v s, render_audio_ s = Some a ->
                 proj (set_render_audio_ (Some v) s) = proj s) ->
  (forall v s, proj (set_was_stream_delay_set_ v s) = proj s) ->
  keeps proj (fun _ => true) (AnalyzeReverseStream frame).
Proof.
  intros H1 H2 H3 H4 H5. unfold AnalyzeReverseStream.
  repeat first
    [ apply keeps_write_frame; (assumption || (intros; reflexivity))
    | apply keeps_AnalyzeReverseStream_audio;
      (assumption || (intros; reflexivity))
    | keeps_step ].
Qed.

Lemma keeps_StartDebugRecording B (proj : Apm Components -> B) name :
  (forall v s, proj (set_debug_file_ v s) = proj s) ->
  keeps proj (fun _ => true) (StartDebugRecording name).
Proof.
  intros H. unfold StartDebugRecording. apply keeps_locked; try reflexivity.
  apply keeps_StartDebugRecording_body; (assumption || (intros; reflexivity)).
Qed.

Lemma keeps_StopDebugRecording B (proj : Apm Components -> B) :
  (forall v s, proj (set_debug_file_ v s) = proj s) ->
  keeps proj (fun _ => true) StopDebugRecording.
Proof.
  intros H. unfold StopDebugRecording. apply keeps_locked; try reflexivity.
  apply keeps_StopDebugRecording_body; (assumption || (intros; reflexivity)).
Qed.

Lemma config_ok_settings (s s' : Apm Components) :
  settings s' = settings s -> config_ok s -> config_ok s'.
Proof.
  unfold settings. intros E [H1 H2 H3 H4 H5 H6 H7].
  inversion E as [[E1 E2 E3 E4 E5 E6 E7]].
  constructor; rewrite ?E1, ?E2, ?E3, ?E4, ?E5, ?E6, ?E7; assumption.
Qed.

(** The engine as constructed satisfies the invariant. *)
Lemma config_ok_constructed id cs fw :
  config_ok (AudioProcessingImpl (Components:=Components) id cs fw).
Proof.
  constructor; simpl; try lia; try reflexivity.
  right; left; reflexivity.
Qed.



(** What the operations that configure do, in full. *)
Lemma configuring_operations (op : Operation) (s : Apm Components) :
  match op with
  | Op_Initialize | Op_set_sample_rate_hz _ | Op_set_num_reverse_channels _
  | Op_set_num_channels _ _ =>
      if reinitializes op
      then exists r cs inside,
             perform op s
             = Some (r, reinitialized cs (configure op s),
                     Enter :: inside ++ [Leave])
             /\ forallb not_lock_event inside = true
      else perform op s = Some (kBadParameterError, s, [Enter; Leave])
  | _ => True
  end.
Proof.
  destruct op; try exact I.
  - simpl. unfold Initialize, locked, bind, emit, ret.
    destruct (InitializeLocked_runs s) as (r & cs & evs & H & Hl).
    rewrite H. exists r, cs, evs. split; [reflexivity | exact Hl].
  - simpl. unfold set_sample_rate_hz, kSampleRate8kHz, kSampleRate16kHz,
      kSampleRate32kHz.
    destruct (rate =? 8000) eqn:A1; [|
    destruct (rate =? 16000) eqn:A2; [|
    destruct (rate =? 32000) eqn:A3; [| reflexivity]]];
      (apply Z.eqb_eq in A1 || apply Z.eqb_eq in A2 || apply Z.eqb_eq in A3);
      subst rate; simpl;
      unfold locked, bind, emit, ret, modify, get; simpl;
      match goal with
      | |- context [InitializeLocked ?s0] =>
          destruct (InitializeLocked_runs s0) as (r & cs & evs & Hi & Hl);
          rewrite Hi
      end;
      exists r, cs, evs; (split; [reflexivity | exact Hl]).
  - simpl. unfold set_num_reverse_channels.
    destruct ((1 <=? channels) && (channels <=? 2)) eqn:C.
    + apply andb_true_iff in C. destruct C as [C1 C2].
      apply Z.leb_le in C1, C2.
      replace ((channels >? 2) || (channels <? 1)) with false
        by (symmetry; apply orb_false_iff;
            rewrite Z.gtb_ltb, !Z.ltb_ge; lia).
      unfold locked, bind, emit, ret, modify.
      match goal with
      | |- context [InitializeLocked ?s0] =>
          destruct (InitializeLocked_runs s0) as (r & cs & evs & Hi & Hl);
          rewrite Hi
      end.
      exists r, cs, evs. split; [reflexivity | exact Hl].
    + replace ((channels >? 2) || (channels <? 1)) with true; [reflexivity |].
      symmetry. apply orb_true_iff. rewrite Z.gtb_lt, Z.ltb_lt.
      apply andb_false_iff in C. rewrite !Z.leb_gt in C. lia.
  - simpl. unfold set_num_channels.
    destruct ((output_channels <=? input_channels) && (1 <=? input_channels)
              && (input_channels <=? 2) && (1 <=? output_channels)
              && (output_channels <=? 2)) eqn:C.
    + repeat (apply andb_true_iff in C; destruct C as [C ?]).
      repeat match goal with L : (_ <=? _) = true |- _ =>
               apply Z.leb_le in L end.
      replace (output_channels >? input_channels) with false
        by (symmetry; rewrite Z.gtb_ltb; apply Z.ltb_ge; lia).
      replace ((input_channels >? 2) || (input_channels <? 1)) with false
        by (symmetry; apply orb_false_iff;
            rewrite Z.gtb_ltb, !Z.ltb_ge; lia).
      replace ((output_channels >? 2) || (output_channels <? 1)) with false
        by (symmetry; apply orb_false_iff;
            rewrite Z.gtb_ltb, !Z.ltb_ge; lia).
      unfold locked, bind, emit, ret, modify.
      match goal with
      | |- context [InitializeLocked ?s0] =>
          destruct (InitializeLocked_runs s0) as (r & cs & evs & Hi & Hl);
          rewrite Hi
      end.
      exists r, cs, evs. split; [reflexivity | exact Hl].
    + destruct (output_channels >? input_channels) eqn:G1; [reflexivity |].
      destruct ((input_channels >? 2) || (input_channels <? 1)) eqn:G2;
        [reflexivity |].
      destruct ((output_channels >? 2) || (output_channels <? 1)) eqn:G3;
        [reflexivity |].
      exfalso.
      rewrite Z.gtb_ltb in G1. apply Z.ltb_ge in G1.
      apply orb_false_iff in G2, G3.
      rewrite Z.gtb_ltb, !Z.ltb_ge in G2, G3.
      repeat (apply andb_false_iff in C; destruct C as [C | C]);
        rewrite Z.leb_gt in C; lia.
Qed.

(** Every operation keeps the invariant. *)
Lemma config_ok_preserved (op : Operation) (s : Apm Components) r s' evs :
  config_ok s -> perform op s = Some (r, s', evs) -> config_ok s'.
Proof.
  intros Ok H.
  pose proof (configuring_operations op s) as C.
  destruct op; simpl in C, H.
  - destruct C as (r0 & cs & inside & E & _). rewrite E in H.
    inversion H; subst. revert Ok. apply config_ok_settings. reflexivity.
  - destruct ((rate =? 8000) || (rate =? 16000) || (rate =? 32000)) eqn:V.
    + destruct C as (r0 & cs & inside & E & _). rewrite E in H.
      inversion H; subst. destruct Ok as [H1 H2 H3 H4 H5 H6 H7].
      assert (R : rate = 8000 \/ rate = 16000 \/ rate = 32000).
      { apply orb_true_iff in V. destruct V as [V | V].
        - apply orb_true_iff in V. destruct V as [V | V];
            apply Z.eqb_eq in V; auto.
        - apply Z.eqb_eq in V; auto. }
      constructor; simpl; try assumption; try reflexivity.
      destruct R as [-> | [-> | ->]]; reflexivity.
    + rewrite C in H. inversion H; subst. exact Ok.
  - destruct ((1 <=? channels) && (channels <=? 2)) eqn:V.
    + destruct C as (r0 & cs & inside & E & _). rewrite E in H.
      inversion H; subst. destruct Ok as [H1 H2 H3 H4 H5 H6 H7].
      apply andb_true_iff in V. rewrite !Z.leb_le in V.
      constructor; simpl; try assumption; lia.
    + rewrite C in H. inversion H; subst. exact Ok.
  - destruct ((output_channels <=? input_channels) && (1 <=? input_channels)
              && (input_channels <=? 2) && (1 <=? output_channels)
              && (output_channels <=? 2)) eqn:V.
    + destruct C as (r0 & cs & inside & E & _). rewrite E in H.
      inversion H; subst. destruct Ok as [H1 H2 H3 H4 H5 H6 H7].
      rewrite !andb_true_iff, !Z.leb_le in V.
      constructor; simpl; try assumption; lia.
    + rewrite C in H. inversion H; subst. exact Ok.
  - simpl in H. apply bind_inv in H.
    destruct H as (a & s1 & e1 & e2 & H & K & _). inversion K; subst.
    assert (Kp : keeps (settings (Components:=Components)) (fun _ => true)
                 (ProcessStream frame))
      by (apply keeps_ProcessStream; intros; reflexivity).
    apply Kp in H.
    revert Ok. apply config_ok_settings. apply H.
  - simpl in H. apply bind_inv in H.
    destruct H as (a & s1 & e1 & e2 & H & K & _). inversion K; subst.
    assert (Kp : keeps (settings (Components:=Components)) (fun _ => true)
                 (AnalyzeReverseStream frame))
      by (apply keeps_AnalyzeReverseStream; intros; reflexivity).
    apply Kp in H.
    revert Ok. apply config_ok_settings. apply H.
  - simpl in H. unfold set_stream_delay_ms, bind, modify, ret in H.
    destruct Ok as [H1 H2 H3 H4 H5 H6 H7].
    destruct (delay <? 0) eqn:N; [inversion H; subst; constructor; assumption |].
    apply Z.ltb_ge in N.
    destruct (delay >? 500) eqn:G;
      [| rewrite Z.gtb_ltb in G; apply Z.ltb_ge in G];
      inversion H; subst; constructor; simpl; try assumption; lia.
  - simpl in H.
    assert (Kp : keeps (settings (Components:=Components)) (fun _ => true)
                 (StartDebugRecording filename))
      by (apply keeps_StartDebugRecording; intros; reflexivity).
    apply Kp in H.
    revert Ok. apply config_ok_settings. apply H.
  - simpl in H.
    assert (Kp : keeps (settings (Components:=Components)) (fun _ => true)
                 StopDebugRecording)
      by (apply keeps_StopDebugRecording; intros; reflexivity).
    apply Kp in H.
    revert Ok. apply config_ok_settings. apply H.
  - simpl in H. inversion H; subst.
    revert Ok. apply config_ok_settings. reflexivity.
Qed.

(** ** The engines a client can hold *)

Lemma has_buffers_allocated (s : Apm Components) :
  has_buffers s = (true, true) <->
  allocated capture_audio s /\ allocated render_audio s.
Proof.
  unfold has_buffers, allocated. simpl.
  destruct (capture_audio_ s), (render_audio_ s); split;
    try (intros H; discriminate H);
    try (intros; split; discriminate);
    try reflexivity;
    intros [H1 H2]; try (exfalso; apply H1; reflexivity);
    exfalso; apply H2; reflexivity.
Qed.

Lemma has_buffers_write_capture (a v : AudioBuffer) (s : Apm Components) :
  capture_audio_ s = Some a ->
  has_buffers (set_capture_audio_ (Some v) s) = has_buffers s.
Proof. intros E. unfold has_buffers. simpl. rewrite E. reflexivity. Qed.

Lemma has_buffers_write_render (a v : AudioBuffer) (s : Apm Components) :
  render_audio_ s = Some a ->
  has_buffers (set_render_audio_ (Some v) s) = has_buffers s.
Proof. intros E. unfold has_buffers. simpl. rewrite E. reflexivity. Qed.

(** No operation makes a buffer pointer null. *)
Lemma buffers_preserved (op : Operation) (s : Apm Components) r s' evs :
  has_buffers s = (true, true) ->
  perform op s = Some (r, s', evs) ->
  has_buffers s' = (true, true).
Proof.
  intros A H.
  pose proof (configuring_operations op s) as C.
  destruct op; simpl in C, H;
    try (match type of C with
         | if ?b then _ else _ => destruct b eqn:V
         end;
         [ destruct C as (r0 & cs & inside & E & _); rewrite E in H;
           inversion H; subst; reflexivity
         | rewrite C in H; inversion H; subst; exact A ]).
  - destruct C as (r0 & cs & inside & E & _). rewrite E in H.
    inversion H; subst. reflexivity.
  - apply bind_inv in H.
    destruct H as (a & s1 & e1 & e2 & H & K & _). inversion K; subst.
    assert (Kp : keeps (@has_buffers _ _ Components) (fun _ => true)
                 (ProcessStream frame)).
    { apply keeps_ProcessStream; try (intros; reflexivity).
      - apply has_buffers_write_capture.
      - apply has_buffers_write_render. }
    apply Kp in H. rewrite (proj1 H). exact A.
  - apply bind_inv in H.
    destruct H as (a & s1 & e1 & e2 & H & K & _). inversion K; subst.
    assert (Kp : keeps (@has_buffers _ _ Components) (fun _ => true)
                 (AnalyzeReverseStream frame)).
    { apply keeps_AnalyzeReverseStream; try (intros; reflexivity).
      - apply has_buffers_write_capture.
      - apply has_buffers_write_render. }
    apply Kp in H. rewrite (proj1 H). exact A.
  - unfold set_stream_delay_ms, bind, modify, ret in H.
    destruct (delay <? 0); [inversion H; subst; exact A |].
    destruct (delay >? 500); inversion H; subst; exact A.
  - assert (Kp : keeps (@has_buffers _ _ Components) (fun _ => true)
                   (StartDebugRecording filename))
      by (apply keeps_StartDebugRecording; intros; reflexivity).
    apply Kp in H. rewrite (proj1 H). exact A.
  - assert (Kp : keeps (@has_buffers _ _ Components) (fun _ => true)
                   StopDebugRecording)
      by (apply keeps_StopDebugRecording; intros; reflexivity).
    apply Kp in H. rewrite (proj1 H). exact A.
  - inversion H; subst. exact A.
Qed.

(** Every engine a client can hold has a well-formed configuration and its
    two buffers. *)
Lemma reachable_well_formed (s : Apm Components) :
  reachable s ->
  config_ok s /\ allocated capture_audio s /\ allocated render_audio s.
Proof.
  intros R. rewrite <- has_buffers_allocated.
  induction R as [id cs fw s H | op s r s' evs R [IH1 IH2] H].
  - unfold Create in H.
    pose proof (configuring_operations Op_Initialize
                  (AudioProcessingImpl id cs fw)) as C.
    simpl in C. destruct C as (r0 & cs' & inside & E & _).
    rewrite E in H. destruct r0; try discriminate H.
    inversion H; subst. split; [| reflexivity].
    generalize (config_ok_constructed id cs fw).
    apply config_ok_settings. reflexivity.
  - split.
    + exact (config_ok_preserved op IH1 H).
    + exact (buffers_preserved op IH2 H).
Qed.

(** ** The flag [was_stream_delay_set_] *)

Lemma AnalyzeReverseStream_audio_flag f (s : Apm Components) r fr s' evs :
  AnalyzeReverseStream_audio f s = Some ((r, fr), s', evs) ->
  was_stream_delay_set_ s'
  = (if is_ok r then false else was_stream_delay_set_ s).
Proof.
  unfold AnalyzeReverseStream_audio. intros H.
  apply bind_inv in H. destruct H as (s0 & s1 & e1 & e2 & G & H & _).
  inversion G; subst s0 s1 e1. clear G.
  apply bind_inv in H. destruct H as (u1 & s1 & e1 & e3 & G1 & H & _).
  assert (K1 : keeps (@was_stream_delay_set_ _ _ Components) (fun _ => true)
                 (on_buffer render_audio B_DeinterleaveFrom
                    (DeinterleaveFrom f)))
    by (apply keeps_on_buffer; intros; reflexivity).
  apply K1 in G1.
  apply bind_inv in H. destruct H as (u2 & s2 & e4 & e5 & G2 & H & _).
  assert (F2 : was_stream_delay_set_ s2 = was_stream_delay_set_ s1).
  { destruct (sample_rate_hz_ s =? kSampleRate32kHz).
    - revert G2. apply keeps_for_channels with (allowed := fun _ => true).
      intros i. apply keeps_on_buffer; intros; reflexivity.
    - inversion G2; subst. reflexivity. }
  apply bind_inv in H. destruct H as (err & s3 & e6 & e7 & G3 & H & _).
  assert (K3 : keeps (@was_stream_delay_set_ _ _ Components) (fun _ => true)
                 AnalyzeReverseStream_components)
    by (apply keeps_AnalyzeReverseStream_components; intros; reflexivity).
  apply K3 in G3.
  destruct G1 as [G1 _]. destruct G3 as [G3 _].
  unfold bind, frame_behind, modify, ret in H.
  destruct (is_ok err) eqn:Ok; simpl in H.
  - destruct (render_audio_ s3); inversion H; subst; rewrite Ok;
      reflexivity.
  - destruct (render_audio_ s3); inversion H; subst; rewrite Ok;
      congruence.
Qed.

Lemma AnalyzeReverseStream_flag frame (s : Apm Components) r fr s' evs :
  AnalyzeReverseStream frame s = Some ((r, fr), s', evs) ->
  was_stream_delay_set_ s'
  = (if is_ok r then false else was_stream_delay_set_ s).
Proof.
  intros H. apply locked_inv in H. destruct H as (inside & H & _).
  destruct frame as [f|]; [| inversion H; subst; reflexivity].
  apply bind_inv in H. destruct H as (s0 & s1 & e1 & e2 & G & H & _).
  inversion G; subst s0 s1 e1. clear G.
  destruct (negb (_frequencyInHz f =? to_uword32 (sample_rate_hz_ s)));
    [inversion H; subst; reflexivity |].
  destruct (negb (_audioChannel f =? num_render_input_channels_ s));
    [inversion H; subst; reflexivity |].
  destruct (negb (_payloadDataLengthInSamples f =? samples_per_channel_ s));
    [inversion H; subst; reflexivity |].
  apply bind_inv in H. destruct H as (err & s1 & e1 & e3 & G & H & _).
  assert (K1 : keeps (@was_stream_delay_set_ _ _ Components) (fun _ => true)
                 (write_frame kRenderEvent f))
    by (apply keeps_write_frame; intros; reflexivity).
  apply K1 in G.
  destruct G as [G _].
  destruct (is_ok err) eqn:Ok; simpl in H.
  - apply AnalyzeReverseStream_audio_flag in H. rewrite H, G. reflexivity.
  - inversion H; subst. rewrite Ok. exact G.
Qed.

(** The flag after each operation. *)
Lemma flag_after_operation (op : Operation) (s : Apm Components) r s' evs :
  perform op s = Some (r, s', evs) ->
  was_stream_delay_set_ s' = flag_after op r (was_stream_delay_set_ s).
Proof.
  intros H.
  pose proof (configuring_operations op s) as C.
  destruct op; simpl in C, H; unfold flag_after, reinitializes;
    try (match type of C with
         | if ?b then _ else _ => destruct b eqn:V
         end;
         [ destruct C as (r0 & cs & inside & E & _); rewrite E in H;
           inversion H; subst; reflexivity
         | rewrite C in H; inversion H; subst; reflexivity ]).
  - destruct C as (r0 & cs & inside & E & _). rewrite E in H.
    inversion H; subst. reflexivity.
  - simpl in H. apply bind_inv in H.
    destruct H as (a & s1 & e1 & e2 & H & K & _). inversion K; subst.
    assert (Kp : keeps (@was_stream_delay_set_ _ _ Components) (fun _ => true)
                 (ProcessStream frame))
      by (apply keeps_ProcessStream; intros; reflexivity).
    apply Kp in H.
    apply H.
  - simpl in H. apply bind_inv in H.
    destruct H as ([r1 fr] & s1 & e1 & e2 & H & K & _). inversion K; subst.
    apply AnalyzeReverseStream_flag in H. exact H.
  - simpl in H. unfold set_stream_delay_ms, bind, modify, ret in H.
    destruct (delay <? 0); [inversion H; subst; reflexivity |].
    destruct (delay >? 500); inversion H; subst; reflexivity.
  - simpl in H.
    assert (Kp : keeps (@was_stream_delay_set_ _ _ Components) (fun _ => true)
                 (StartDebugRecording filename))
      by (apply keeps_StartDebugRecording; intros; reflexivity).
    apply Kp in H.
    apply H.
  - simpl in H.
    assert (Kp : keeps (@was_stream_delay_set_ _ _ Components) (fun _ => true)
                 StopDebugRecording)
      by (apply keeps_StopDebugRecording; intros; reflexivity).
    apply Kp in H.
    apply H.
  - simpl in H. inversion H; subst. reflexivity.
Qed.

(** C4, amended: [was_stream_delay_set_] is false after an
    [AnalyzeReverseStream] that returns [kNoError] and after every run of
    [InitializeLocked], that is after [Initialize] and after each accepted
    [set_sample_rate_hz], [set_num_reverse_channels] and [set_num_channels];
    an [AnalyzeReverseStream] that fails leaves it as it was; it is true
    after any [set_stream_delay_ms], whatever that call returns; and it
    goes from true to false in no other way. *)
Theorem stream_delay_flag_transitions
    (op : Operation) (s : Apm Components) r s' evs :
  perform op s = Some (r, s', evs) ->
  (forall frame, op = Op_AnalyzeReverseStream frame -> r = kNoError ->
     was_stream_delay_set_ s' = false)
  /\ (forall frame, op = Op_AnalyzeReverseStream frame -> r <> kNoError ->
        was_stream_delay_set_ s' = was_stream_delay_set_ s)
  /\ (forall delay, op = Op_set_stream_delay_ms delay ->
        was_stream_delay_set_ s' = true)
  /\ (reinitializes op = true -> was_stream_delay_set_ s' = false)
  /\ (was_stream_delay_set_ s = true -> was_stream_delay_set_ s' = false ->
        (exists frame, op = Op_AnalyzeReverseStream frame /\ r = kNoError)
        \/ reinitializes op = true).
Proof.
  intros H. apply flag_after_operation in H.
  repeat split.
  - intros frame -> ->. exact H.
  - intros frame -> N. rewrite H. simpl.
    destruct (is_ok r) eqn:Ok; [| reflexivity].
    apply is_ok_true in Ok. contradiction.
  - intros delay ->. exact H.
  - intros R. rewrite H. destruct op; simpl in *;
      try discriminate R; rewrite ?R; reflexivity.
  - intros T F. rewrite H, T in F. clear H.
    destruct op; simpl in F;
      try (right; simpl;
           match type of F with
           | (if ?b then _ else _) = _ => destruct b
           end; [reflexivity | discriminate F]);
      try (right; reflexivity); try discriminate F.
    left. exists frame. split; [reflexivity |].
    destruct (is_ok r) eqn:Ok; [apply is_ok_true; exact Ok | discriminate F].
Qed.

(** ** Frames that are refused *)

(** C2: a frame that is null, or whose sample rate, channel count or payload
    length differs from the configuration, makes [ProcessStream] and
    [AnalyzeReverseStream] return the error of the first comparison that
    fails ([kNullPointerError], [kBadSampleRateError],
    [kBadNumberChannelsError], [kBadDataLengthError]); the frame and the
    whole engine (buffers, components, configuration, the flag, the debug
    file) are what they were, and no collaborator was called. *)
Theorem invalid_frames_are_rejected
    (s : Apm Components) (frame : option AudioFrame) :
  config_ok s ->
  (forall channels,
     frame_differs s channels frame ->
     exists e, frame_rejected s channels frame e)
  /\ (forall e,
        frame_rejected s (num_capture_input_channels_ s) frame e ->
        ProcessStream frame s = Some ((e, frame), s, [Enter; Leave]))
  /\ (forall e,
        frame_rejected s (num_render_input_channels_ s) frame e ->
        AnalyzeReverseStream frame s = Some ((e, frame), s, [Enter; Leave])).
Proof.
  intros Ok. pose proof (to_uword32_rate Ok) as U. repeat split.
  - intros channels D. destruct frame as [f|].
    + destruct (Z.eq_dec (_frequencyInHz f) (sample_rate_hz_ s)) as [E1|N1];
        [| eexists; apply rejected_sample_rate; exact N1].
      destruct (Z.eq_dec (_audioChannel f) channels) as [E2|N2];
        [| eexists; apply rejected_channels; assumption].
      destruct (Z.eq_dec (_payloadDataLengthInSamples f)
                  (samples_per_channel_ s)) as [E3|N3];
        [| eexists; apply rejected_length; assumption].
      simpl in D. tauto.
    + eexists. apply rejected_null.
  - intros e R. unfold ProcessStream.
    destruct R as [| f N1 | f E1 N2 | f E1 E2 N3];
      unfold locked, bind, emit, ret, get; rewrite ?U.
    + reflexivity.
    + apply Z.eqb_neq in N1. rewrite N1. reflexivity.
    + apply Z.eqb_eq in E1. apply Z.eqb_neq in N2. rewrite E1, N2.
      reflexivity.
    + apply Z.eqb_eq in E1, E2. apply Z.eqb_neq in N3. rewrite E1, E2, N3.
      reflexivity.
  - intros e R. unfold AnalyzeReverseStream.
    destruct R as [| f N1 | f E1 N2 | f E1 E2 N3];
      unfold locked, bind, emit, ret, get; rewrite ?U.
    + reflexivity.
    + apply Z.eqb_neq in N1. rewrite N1. reflexivity.
    + apply Z.eqb_eq in E1. apply Z.eqb_neq in N2. rewrite E1, N2.
      reflexivity.
    + apply Z.eqb_eq in E1, E2. apply Z.eqb_neq in N3. rewrite E1, E2, N3.
      reflexivity.
Qed.

(** ** The critical section *)

Ltac lock_free_body :=
  apply keeps_lock_free with (proj := fun _ : Apm Components => tt);
  repeat first
    [ apply keeps_write_frame; intros; reflexivity
    | apply keeps_ProcessStream_audio; intros; reflexivity
    | apply keeps_AnalyzeReverseStream_audio; intros; reflexivity
    | apply keeps_InitializeLocked; intros; reflexivity
    | apply keeps_StartDebugRecording_body; intros; reflexivity
    | apply keeps_StopDebugRecording_body; intros; reflexivity
    | apply keeps_Version; intros; reflexivity
    | keeps_step ].

(** [set_stream_delay_ms] has no [CriticalSectionScoped]. *)
Lemma set_stream_delay_ms_lock_free (delay : Z) :
  lock_free (set_stream_delay_ms (Components:=Components) delay).
Proof. unfold set_stream_delay_ms. lock_free_body. Qed.


(** ** The capture stages *)

Lemma in_order_stage_events stages evs r :
  in_order stages evs r -> filter is_stage_event evs = evs.
Proof.
  induction 1; simpl; rewrite ?IHin_order; reflexivity.
Qed.

Lemma no_stage_app e1 e2 : no_stage e1 -> no_stage e2 -> no_stage (e1 ++ e2).
Proof.
  unfold no_stage. intros H1 H2. rewrite filter_app, H1, H2. reflexivity.
Qed.

Section Totality.

Variable b : BufferId.

Lemma total_on_buffer op f :
  total (allocated b) (on_buffer (Components:=Components) b op f)
    (fun _ evs => evs = [Buffer b op]).
Proof.
  intros s I. unfold on_buffer.
  destruct (buffer b s) as [a|] eqn:E; [| contradiction].
  eexists; eexists; eexists. split; [reflexivity |].
  split; [| reflexivity]. unfold allocated. destruct b; discriminate.
Qed.

Lemma total_interleave_to f :
  total (allocated b) (interleave_to (Components:=Components) b f)
    (fun _ evs => evs = [Buffer b B_InterleaveTo]).
Proof.
  intros s I. unfold interleave_to.
  destruct (buffer b s) as [a|] eqn:E; [| contradiction].
  eexists; eexists; eexists. split; [reflexivity |].
  split; [exact I | reflexivity].
Qed.

Lemma total_frame_behind f :
  total (allocated b) (frame_behind (Components:=Components) b f)
    (fun _ evs => evs = []).
Proof.
  intros s A. unfold frame_behind.
  destruct (buffer b s); eexists; eexists; eexists;
    (split; [reflexivity |]); split; (exact A || reflexivity).
Qed.

Lemma total_call_on_buffer c m
    (f : ComponentId -> Apm Components -> AudioBuffer
         -> Error * Components * AudioBuffer) :
  total (allocated b) (call_on_buffer c m b f)
    (fun r evs => evs = [Call c m r]).
Proof.
  intros s I. unfold call_on_buffer.
  destruct (buffer b s) as [a|] eqn:E; [| contradiction].
  destruct (f c s a) as [[err cs] a'].
  eexists; eexists; eexists. split; [reflexivity |].
  split; [| reflexivity]. unfold allocated. destruct b; discriminate.
Qed.

Lemma total_is_enabled c :
  total (allocated (Components:=Components) b) (is_enabled c)
    (fun e evs => evs = [IsEnabled c e]).
Proof.
  intros s I. unfold is_enabled.
  eexists; eexists; eexists. split; [reflexivity |].
  split; [exact I | reflexivity].
Qed.

(** The loops over the channels: defined, and no call of a stage. *)
Lemma total_channel_loop count (op : Z -> BufferOp) f :
  (forall i, is_stage_event (Buffer b (op i)) = false) ->
  total (allocated b)
    (for_channels count (fun i =>
       on_buffer (Components:=Components) b (op i) (f i)))
    (fun _ evs => no_stage evs).
Proof.
  intros Hop. apply total_for_channels.
  - reflexivity.
  - apply no_stage_app.
  - intros i. eapply total_weaken; [apply total_on_buffer |].
    intros u evs ->. unfold no_stage. cbn [filter]. rewrite Hop.
    reflexivity.
Qed.

End Totality.

(** One component stage in front of the stages that follow. *)
Lemma total_stage c m
    (f : ComponentId -> Apm Components -> AudioBuffer
         -> Error * Components * AudioBuffer)
    (k : M (Apm Components) Error) rest :
  total (allocated capture_audio) k (fun r evs => in_order rest evs r) ->
  total (allocated capture_audio)
    (check (call_on_buffer c m capture_audio f) k)
    (fun r evs => in_order (Component c m :: rest) evs r).
Proof.
  intros Hk. unfold check.
  eapply total_bind; [apply total_call_on_buffer |].
  intros err e1 ->. destruct (is_ok err) eqn:Ok.
  - apply is_ok_true in Ok. subst err.
    eapply total_weaken; [exact Hk |].
    intros r evs O. simpl. apply stage_ok. exact O.
  - apply total_ret. simpl. apply stage_failed. apply is_ok_false. exact Ok.
Qed.

(** The copy to the reference in front of the stages that follow. *)
Lemma total_snapshot (k : M (Apm Components) Error) rest :
  total (allocated capture_audio) k (fun r evs => in_order rest evs r) ->
  total (allocated capture_audio)
    (mobile <- is_enabled echo_control_mobile_ ;;
     both <- (if mobile then is_enabled noise_suppression_ else ret false) ;;
     (if both
      then on_buffer capture_audio B_CopyLowPassToReference
             CopyLowPassToReference
      else ret tt) ;;
     k)
    (fun r evs => in_order (SnapshotIfEnabled :: rest) evs r).
Proof.
  intros Hk.
  eapply total_bind; [apply total_is_enabled |].
  intros mobile e1 ->. destruct mobile.
  - eapply total_bind; [apply total_is_enabled |].
    intros both e2 ->. destruct both.
    + eapply total_bind; [apply total_on_buffer |].
      intros u e3 ->. eapply total_weaken; [exact Hk |].
      intros r evs O. simpl. apply snapshot_taken. exact O.
    + eapply total_bind; [apply total_ret_eq |].
      intros u e3 [_ ->]. eapply total_weaken; [exact Hk |].
      intros r evs O. simpl. apply snapshot_skipped_noise. exact O.
  - eapply total_bind; [apply total_ret_eq |].
    intros both e2 [-> ->].
    eapply total_bind; [apply total_ret_eq |].
    intros u e3 [_ ->]. eapply total_weaken; [exact Hk |].
    intros r evs O. simpl. apply snapshot_skipped_mobile. exact O.
Qed.

Lemma total_ProcessStream_components :
  total (allocated capture_audio) ProcessStream_components
    (fun r evs => in_order capture_stages evs r).
Proof.
  unfold ProcessStream_components, ProcessCaptureAudio, AnalyzeCaptureAudio,
    capture_stages.
  repeat first [ apply total_stage | apply total_snapshot ].
  apply total_ret. apply all_stages_ran.
Qed.

Lemma no_stage_forallb evs :
  forallb (fun e => negb (is_stage_event e)) evs = true -> no_stage evs.
Proof.
  unfold no_stage. induction evs as [|e evs IH]; simpl; [reflexivity |].
  destruct (is_stage_event e); simpl; [discriminate | exact IH].
Qed.

(** The audio part of [ProcessStream] is defined as soon as the capture
    buffer is there, starts with [DeinterleaveFrom], and runs the stages in
    order. *)
Lemma total_ProcessStream_audio f :
  total (allocated capture_audio) (ProcessStream_audio f)
    (fun rf evs =>
       (exists rest, evs = Buffer capture_audio B_DeinterleaveFrom :: rest)
       /\ in_order capture_stages (filter is_stage_event evs) (fst rf)).
Proof.
  unfold ProcessStream_audio.
  eapply total_bind; [apply total_get |]. intros s0 e0 ->.
  eapply total_bind; [apply total_on_buffer |]. intros u1 e1 ->.
  eapply total_bind with (mid := fun _ evs => no_stage evs).
  { destruct (num_capture_output_channels_ s0 <? num_capture_input_channels_ s0).
    - eapply total_bind; [apply total_on_buffer |]. intros u e ->.
      apply total_ret. reflexivity.
    - apply total_ret. reflexivity. }
  intros f1 e2 N2.
  eapply total_bind with (mid := fun _ evs => no_stage evs).
  { destruct (sample_rate_hz_ s0 =? kSampleRate32kHz).
    - apply total_channel_loop. intros i. reflexivity.
    - apply total_ret. reflexivity. }
  intros u3 e3 N3.
  eapply total_bind; [apply total_ProcessStream_components |].
  intros err e4 O4.
  pose proof (in_order_stage_events O4) as F4.
  destruct (is_ok err) eqn:Ok; simpl.
  - apply is_ok_true in Ok. subst err.
    eapply total_bind with (mid := fun _ evs => no_stage evs).
    { destruct (sample_rate_hz_ s0 =? kSampleRate32kHz).
      - apply total_channel_loop. intros i. reflexivity.
      - apply total_ret. reflexivity. }
    intros u5 e5 N5.
    eapply total_bind; [apply total_interleave_to |]. intros f2 e6 ->.
    apply total_ret. split; [eexists; reflexivity |].
    unfold no_stage in *. simpl.
    rewrite !filter_app, N2, N3, N5, F4. simpl. rewrite app_nil_r. exact O4.
  - eapply total_bind; [apply total_frame_behind |]. intros f' e5 ->.
    apply total_ret. split; [eexists; reflexivity |].
    unfold no_stage in *. simpl.
    rewrite !filter_app, N2, N3, F4. simpl. rewrite app_nil_r. exact O4.
Qed.

(** A frame that passes the comparisons reaches the debug record. *)
Lemma ProcessStream_valid (s : Apm Components) f :
  passes_validation s (num_capture_input_channels_ s) f ->
  ProcessStream (Some f) s
  = locked (err <- write_frame kCaptureEvent f ;;
            if negb (is_ok err) then ret (err, Some f)
            else ProcessStream_audio f) s.
Proof.
  intros (V1 & V2 & V3).
  unfold ProcessStream, locked, bind, get, emit, ret.
  apply Z.eqb_eq in V1, V2, V3. rewrite V1, V2, V3. cbn [negb].
  destruct (write_frame kCaptureEvent f s) as [[[a s1] e1]|]; [| reflexivity].
  destruct (is_ok a); cbn [negb]; [| reflexivity].
  destruct (ProcessStream_audio f s1) as [[[? ?] ?]|]; reflexivity.
Qed.


(** ** The debug record *)

Lemma total_AnalyzeReverseStream_audio f :
  total (allocated render_audio) (AnalyzeReverseStream_audio f)
    (fun _ evs =>
       exists rest, evs = Buffer render_audio B_DeinterleaveFrom :: rest).
Proof.
  unfold AnalyzeReverseStream_audio.
  eapply total_bind; [apply total_get |]. intros s0 e0 ->.
  eapply total_bind; [apply total_on_buffer |]. intros u1 e1 ->.
  eapply total_bind with (mid := fun _ _ => True).
  { destruct (sample_rate_hz_ s0 =? kSampleRate32kHz).
    - eapply total_weaken;
        [apply total_channel_loop; intros i; reflexivity | auto].
    - apply total_ret. exact I. }
  intros u2 e2 _.
  eapply total_bind with (mid := fun _ _ => True).
  { unfold AnalyzeReverseStream_components, ProcessRenderAudio.
    repeat (apply total_check;
            [eapply total_weaken; [apply total_call_on_buffer | auto] |]).
    apply total_ret. exact I. }
  intros err e3 _.
  destruct (is_ok err); simpl.
  - eapply total_bind; [apply total_modify; intros s I; exact I |].
    intros u4 e4 ->.
    eapply total_bind; [apply total_frame_behind |]. intros f' e5 ->.
    apply total_ret. eexists. reflexivity.
  - eapply total_bind; [apply total_frame_behind |]. intros f' e5 ->.
    apply total_ret. eexists. reflexivity.
Qed.

(** ** The debug file and the calls made on it *)

Lemma on_file_app fw1 fw2 fw3 e1 e2 :
  on_file fw1 e1 fw2 -> on_file fw2 e2 fw3 -> on_file fw1 (e1 ++ e2) fw3.
Proof.
  revert fw1. induction e1 as [|e e1 IH]; intros fw1 H1 H2.
  - simpl in H1. subst fw2. exact H2.
  - destruct e; simpl in H1 |- *;
      try (destruct H1 as [A H1]; split; [exact A |]);
      eapply IH; eassumption.
Qed.

Lemma on_file_no_call fw evs :
  forallb not_file_event evs = true -> on_file fw evs fw.
Proof.
  induction evs as [|e evs IH]; intros H; [reflexivity |].
  simpl in H. apply andb_true_iff in H. destruct H as [N H].
  destruct e; try discriminate N; simpl; apply IH; exact H.
Qed.

Lemma logs_file_ret (A : Type) (a : A) :
  logs_file (ret (St:=Apm Components) a).
Proof. intros s r s' evs H. inversion H; subst. reflexivity. Qed.

Lemma logs_file_get : logs_file (get (St:=Apm Components)).
Proof. intros s r s' evs H. inversion H; subst. reflexivity. Qed.

Lemma logs_file_emit e :
  is_file_event e = false -> logs_file (emit (St:=Apm Components) e).
Proof.
  intros N s r s' evs H. inversion H; subst.
  destruct e; try discriminate N; reflexivity.
Qed.

Lemma logs_file_bind (A C : Type) (m : M (Apm Components) A)
    (k : A -> M (Apm Components) C) :
  logs_file m -> (forall a, logs_file (k a)) -> logs_file (bind m k).
Proof.
  intros Hm Hk s r s' evs H.
  apply bind_inv in H. destruct H as (a & s1 & e1 & e2 & E1 & E2 & ->).
  eapply on_file_app; [exact (Hm _ _ _ _ E1) | exact (Hk a _ _ _ _ E2)].
Qed.

Lemma logs_file_check (m k : M (Apm Components) Error) :
  logs_file m -> logs_file k -> logs_file (check m k).
Proof.
  intros Hm Hk. unfold check. apply logs_file_bind; [exact Hm |].
  intros err. destruct (is_ok err); [exact Hk | apply logs_file_ret].
Qed.

Lemma logs_file_locked (A : Type) (m : M (Apm Components) A) :
  logs_file m -> logs_file (locked m).
Proof.
  intros Hm. unfold locked.
  apply logs_file_bind; [apply logs_file_emit; reflexivity | intros _].
  apply logs_file_bind; [exact Hm | intros r].
  apply logs_file_bind; [apply logs_file_emit; reflexivity | intros _].
  apply logs_file_ret.
Qed.

Lemma logs_file_debug_Open :
  logs_file (debug_Open (Components:=Components)).
Proof. intros s r s' evs H. inversion H; subst. reflexivity. Qed.

Lemma logs_file_debug_CloseFile :
  logs_file (debug_CloseFile (Components:=Components)).
Proof.
  intros s r s' evs H. unfold debug_CloseFile in H.
  destruct (file_CloseFile (debug_file_ s)) as [z fw] eqn:E.
  inversion H; subst. simpl. rewrite E. split; reflexivity.
Qed.

Lemma logs_file_debug_OpenFile name ro :
  logs_file (debug_OpenFile (Components:=Components) name ro).
Proof.
  intros s r s' evs H. unfold debug_OpenFile in H.
  destruct (file_OpenFile name ro (debug_file_ s)) as [z fw] eqn:E.
  inversion H; subst. simpl. rewrite E. split; reflexivity.
Qed.

Lemma logs_file_debug_WriteText text :
  logs_file (debug_WriteText (Components:=Components) text).
Proof.
  intros s r s' evs H. unfold debug_WriteText in H.
  destruct (file_WriteText text (debug_file_ s)) as [z fw] eqn:E.
  inversion H; subst. simpl. rewrite E. split; reflexivity.
Qed.

Lemma logs_file_debug_Write obj n :
  logs_file (debug_Write (Components:=Components) obj n).
Proof.
  intros s r s' evs H. unfold debug_Write in H.
  destruct (file_Write obj n (debug_file_ s)) as [ok fw] eqn:E.
  inversion H; subst. simpl. rewrite E. split; reflexivity.
Qed.

(** A step through the calls on the file. *)
Ltac logs_file_step :=
  repeat first
    [ apply logs_file_ret
    | apply logs_file_get
    | apply logs_file_debug_Open
    | apply logs_file_debug_CloseFile
    | apply logs_file_debug_OpenFile
    | apply logs_file_debug_WriteText
    | apply logs_file_debug_Write
    | apply logs_file_check
    | apply logs_file_bind; [| intros ?]
    | match goal with
      | |- logs_file (if ?c then _ else _) => destruct c
      end ].

Lemma logs_file_write_frame event f :
  logs_file (write_frame (Components:=Components) event f).
Proof. unfold write_frame. logs_file_step. Qed.

Lemma logs_file_StartDebugRecording name :
  logs_file (StartDebugRecording (Components:=Components) name).
Proof.
  unfold StartDebugRecording. apply logs_file_locked.
  destruct name as [n|]; logs_file_step.
Qed.

Lemma beside_file_only (s s' : Apm Components) :
  beside_file s' = beside_file s -> s' = set_debug_file_ (debug_file_ s') s.
Proof.
  destruct s, s'. unfold beside_file, settings, set_debug_file_. simpl.
  intros H. inversion H; subst. reflexivity.
Qed.

(** The block that writes the record, when the file is open. *)
Lemma write_frame_open event f (s : Apm Components) :
  file_Open (debug_file_ s) = true ->
  exists r s' ws complete,
    write_frame event f s = Some (r, s', ws)
    /\ record_written (frame_record (event_tag event) f) ws complete
    /\ r = (if complete then kNoError else kFileError)
    /\ s' = set_debug_file_ (debug_file_ s') s.
Proof.
  intros Open.
  unfold write_frame, bind, debug_Open, debug_Write, ret. rewrite Open.
  cbn [debug_file_ set_debug_file_].
  repeat match goal with
         | |- context [file_Write ?o ?n ?d] =>
             match d with
             | context [file_Write _ _ _] => fail 1
             | _ => destruct (file_Write o n d) as [[|] ?]; cbn [negb]
             end
         end;
    eexists; eexists; eexists;
    first
      [ exists true; split; [reflexivity |];
        split; [exact (record_complete _) | split; reflexivity]
      | exists false; split; [reflexivity |]; split; [| split; reflexivity];
        lazymatch goal with
        | |- record_written ?rec _ false =>
            first
              [ exact (@record_broken rec 0 _ _ eq_refl)
              | exact (@record_broken rec 1 _ _ eq_refl)
              | exact (@record_broken rec 2 _ _ eq_refl)
              | exact (@record_broken rec 3 _ _ eq_refl)
              | exact (@record_broken rec 4 _ _ eq_refl) ]
        end ].
Qed.

Lemma AnalyzeReverseStream_valid (s : Apm Components) f :
  passes_validation s (num_render_input_channels_ s) f ->
  AnalyzeReverseStream (Some f) s
  = locked (err <- write_frame kRenderEvent f ;;
            if negb (is_ok err) then ret (err, Some f)
            else AnalyzeReverseStream_audio f) s.
Proof.
  intros (V1 & V2 & V3).
  unfold AnalyzeReverseStream, locked, bind, get, emit, ret.
  apply Z.eqb_eq in V1, V2, V3. rewrite V1, V2, V3. cbn [negb].
  destruct (write_frame kRenderEvent f s) as [[[a s1] e1]|]; [| reflexivity].
  destruct (is_ok a); cbn [negb]; [| reflexivity].
  destruct (AnalyzeReverseStream_audio f s1) as [[[? ?] ?]|]; reflexivity.
Qed.

(** What follows the record, for either stream. *)
Lemma record_then_audio (tag : Z) (b : BufferId) (event : Events) f
    (audio : M (Apm Components) (Error * option AudioFrame))
    (s : Apm Components) :
  event_tag event = tag ->
  file_Open (debug_file_ s) = true ->
  allocated b s ->
  total (allocated b) audio
    (fun _ evs => exists rest, evs = Buffer b B_DeinterleaveFrom :: rest) ->
  keeps (@debug_file_ _ _ Components) not_file_event audio ->
  traced tag b f s
    (locked (err <- write_frame event f ;;
             if negb (is_ok err) then ret (err, Some f) else audio) s).
Proof.
  intros <- Open A T K.
  destruct (write_frame_open event f s Open)
    as (r & s1 & ws & complete & W & RW & -> & S1).
  pose proof (@logs_file_write_frame event f _ _ _ _ W) as L.
  unfold locked, bind, emit, ret. rewrite W.
  destruct complete; cbn [is_ok negb].
  - assert (A1 : allocated b s1).
    { rewrite S1. unfold allocated in *. destruct b; exact A. }
    destruct (T s1 A1) as ([r fr] & s2 & evs2 & E2 & _ & rest & Hd).
    rewrite E2. destruct (K _ _ _ _ E2) as [D NW].
    simpl. exists ws, evs2, true. repeat split; try assumption.
    + rewrite <- app_assoc. reflexivity.
    + rewrite D. exact L.
    + rewrite Hd. reflexivity.
  - simpl. exists ws, [], false. repeat split; try assumption.
    rewrite app_nil_r. reflexivity.
Qed.

(** C7: while the debug file is open, a [ProcessStream] or an
    [AnalyzeReverseStream] whose frame passes the validation writes one
    record to the debug file, and writes it before it touches the audio: a
    tag of one byte (2 for capture, 1 for render), then the frequency, the
    channel count, the payload length and the [length * channels] samples of
    the frame.  These writes are made on the file of the engine, one on the
    file the one before left, the file of the engine after the call is the
    file after the last of them, and the call makes no other call on the
    file.  Where a write fails the result is [kFileError] and nothing is
    called after that write, the frame and the engine, the file apart,
    staying as they were. *)
Theorem debug_record_precedes_processing (s : Apm Components) (f : AudioFrame) :
  file_Open (debug_file_ s) = true ->
  (passes_validation s (num_capture_input_channels_ s) f ->
   capture_audio_ s <> None ->
   traced 2 capture_audio f s (ProcessStream (Some f) s))
  /\ (passes_validation s (num_render_input_channels_ s) f ->
      render_audio_ s <> None ->
      traced 1 render_audio f s (AnalyzeReverseStream (Some f) s)).
Proof.
  intros Open. split; intros V A.
  - rewrite (ProcessStream_valid V).
    apply record_then_audio; try assumption; try reflexivity.
    + eapply total_weaken; [apply total_ProcessStream_audio |].
      intros a evs [H _]. exact H.
    + apply keeps_ProcessStream_audio; intros; reflexivity.
  - rewrite (AnalyzeReverseStream_valid V).
    apply record_then_audio; try assumption; try reflexivity.
    + apply total_AnalyzeReverseStream_audio.
    + apply keeps_AnalyzeReverseStream_audio; intros; reflexivity.
Qed.

(** ** The start of a recording *)

(** C8: [StartDebugRecording] with a file name closes the recording that
    is going on, if any, opens the new file, writes the magic line
    "#!vqetrace1.2" and a line feed, then the tag 0 and the sample rate;
    the first file operation that fails ends the call with [kFileError],
    and the call returns [kNoError] only after all of them succeeded.  The
    calls are made on the debug file of the engine, one on the file the one
    before left, with the answers the file gives; the engine is left with
    the file after the last call, and is otherwise what it was. *)
Theorem StartDebugRecording_writes_header
    (s : Apm Components) (name : string) :
  exists r fw' evs,
    StartDebugRecording (Some name) s
    = Some (r, set_debug_file_ fw' s, Enter :: evs ++ [Leave])
    /\ recording_restarted (file_Open (debug_file_ s)) name
         (sample_rate_hz_ s) evs r
    /\ on_file (debug_file_ s) evs fw'.
Proof.
  assert (L := @logs_file_StartDebugRecording (Some name)).
  assert (K : keeps (beside_file (Components:=Components)) (fun _ => true)
                (StartDebugRecording (Some name)))
    by (apply keeps_StartDebugRecording; intros; reflexivity).
  unfold StartDebugRecording in *.
  match goal with
  | |- context [locked ?m] =>
      assert (H : exists r s' inside,
                 m s = Some (r, s', inside)
                 /\ recording_restarted (file_Open (debug_file_ s)) name
                      (sample_rate_hz_ s) inside r)
  end.
  { unfold check, bind, debug_Open, debug_CloseFile, debug_OpenFile,
      debug_WriteText, debug_Write, emit, ret, get.
    destruct (file_Open (debug_file_ s)) eqn:Op; simpl;
      repeat (file_step; simpl);
      repeat match goal with
             | E : (_ =? _) = false |- _ => apply Z.eqb_neq in E
             | E : (_ =? _) = true |- _ => apply Z.eqb_eq in E; subst
             end;
      (eexists; eexists; eexists; split; [reflexivity |]);
      first
        [ apply close_failed; reflexivity
        | apply closed_first;
          [reflexivity | assumption | constructor; assumption]
        | apply nothing_to_close; [reflexivity | constructor; assumption] ]. }
  destruct H as (r & s' & inside & E & R).
  apply locked_run in E.
  destruct (K _ _ _ _ E) as [B _]. apply beside_file_only in B.
  pose proof (L _ _ _ _ E) as F. simpl in F.
  exists r, (debug_file_ s'), inside.
  split; [rewrite <- B; exact E |]. split; [exact R |].
  clear - F. revert F. generalize (debug_file_ s).
  induction inside as [|e inside IH]; intros fw F.
  - exact F.
  - destruct e; simpl in F |- *;
      try (destruct F as [A F]; split; [exact A |]); apply IH; exact F.
Qed.

(** ** Version *)

(** The loop over the components writes inside the range it is given, from
    the front, and leaves zeros where it has not written. *)
Lemma Version_components_runs (l : list ComponentId) :
  forall (v : list Z) (rem pos : Z) (s : Apm Components),
    0 <= pos -> 0 <= rem ->
    pos + rem <= Z.of_nat (List.length v) ->
    pos + rem < 2 ^ 32 ->
    (forall i, pos <= i < pos + rem -> byte v i = Some 0) ->
    exists r v' rem' pos' evs,
      Version_components l v rem pos s = Some ((r, v', rem', pos'), s, evs)
      /\ pos <= pos' /\ 0 <= rem' /\ pos' + rem' = pos + rem
      /\ List.length v' = List.length v
      /\ (forall i, pos' <= i < pos + rem -> byte v' i = Some 0)
      /\ (forall i, 0 <= i -> i < pos \/ pos + rem <= i ->
                    byte v' i = byte v i).
Proof.
  induction l as [|c l IH]; intros v rem pos s P R B W Z0.
  - exists kNoError, v, rem, pos, []. simpl.
    repeat split; auto; lia.
  - cbn [Version_components]. unfold bind, get_version.
    destruct (component_get_version c s (sizeof_component_version - 1))
      as [err text].
    destruct (is_ok err); cbn [negb].
    2:{ eexists; eexists; eexists; eexists; eexists.
        split; [reflexivity |]. repeat split; auto; lia. }
    destruct (nth 1 (10 :: text ++ [0]) 0 =? 0).
    { destruct (IH v rem pos s P R B W Z0)
        as (r & v' & rem' & pos' & evs & E & H).
      rewrite E. exists r, v', rem', pos'. eexists.
      split; [reflexivity | exact H]. }
    set (cv := 10 :: text ++ [0]).
    set (len := to_uword32 (strlen cv)).
    assert (L : 0 <= len <= Z.of_nat (List.length cv)).
    { pose proof (strlen_bounds cv) as SB.
      pose proof (to_uword32_bounds (proj1 SB)) as UB.
      fold len in UB. lia. }
    destruct (rem <? len) eqn:Short.
    { eexists; eexists; eexists; eexists; eexists.
      split; [reflexivity |]. repeat split; auto; lia. }
    apply Z.ltb_ge in Short.
    rewrite memcpy_splice by lia.
    set (mid := firstn (Z.to_nat len) cv).
    assert (Lm : Z.of_nat (List.length mid) = len).
    { unfold mid. rewrite length_firstn. lia. }
    rewrite (to_uword32_small (x := rem - len)) by lia.
    rewrite (to_uword32_small (x := pos + len)) by lia.
    destruct (IH (splice v (Z.to_nat pos) mid) (rem - len) (pos + len) s)
      as (r & v' & rem' & pos' & evs & E & H1 & H2 & H3 & H4 & H5 & H6);
      try lia.
    { rewrite splice_length by lia. lia. }
    { intros i I. rewrite splice_byte_outside by lia. apply Z0. lia. }
    rewrite E. exists r, v', rem', pos'. eexists.
    split; [reflexivity |].
    rewrite splice_length in H4 by lia.
    repeat split; try lia.
    + intros i I. apply H5. lia.
    + intros i I O. rewrite H6 by lia. apply splice_byte_outside; lia.
Qed.

Lemma strlen_my_version : to_uword32 (strlen my_version) = 21.
Proof. reflexivity. Qed.


End Properties.

(** * Further properties *)

Section FurtherRules.

Variables St B : Type.
Variable inv : St -> Prop.
Variable proj : St -> B.
Variable allowed : Event -> bool.

Lemma total_get_inv : total inv get (fun a evs => inv a /\ evs = []).
Proof.
  intros s I. exists s, s, []. repeat split; assumption.
Qed.

(** A computation that is [total] and [keeps] is total from the states where
    the part kept has a given value. *)
Lemma total_strengthen (A : Type) (m : M St A)
    (post : A -> list Event -> Prop) (x : B) :
  total inv m post ->
  keeps proj allowed m ->
  total (fun s => inv s /\ proj s = x) m
    (fun r evs => post r evs /\ forallb allowed evs = true).
Proof.
  intros T K s [I P].
  destruct (T s I) as (r & s' & evs & E & I' & Q).
  destruct (K _ _ _ _ E) as [P' F].
  exists r, s', evs. repeat split; try assumption. congruence.
Qed.

(** A body that is total is total in the critical section. *)
Lemma total_locked (A : Type) (m : M St A) (post : A -> list Event -> Prop) :
  total inv m post -> total inv (locked m) (fun _ _ => True).
Proof.
  intros T s I. destruct (T s I) as (r & s' & evs & E & I' & _).
  unfold locked, bind, emit, ret. rewrite E.
  eexists; eexists; eexists.
  split; [reflexivity |]. split; [exact I' | exact Logic.I].
Qed.

End FurtherRules.

Section FurtherProperties.

Context {AB : AudioBufferOps} {FW : FileWrapperOps} {AF : AudioFrameLayout}.
Context {Components : Type} {PC : ProcessingComponentOps Components}.

(** ** Engines in the hands of a client *)

(** X1: every engine that [Create] returns, and every engine that comes from
    one by the operations of the interface, has a sample rate of 8000, 16000
    or 32000 with the split rate and the samples per channel that go with
    it, channel counts of 1 or 2 with no more output than input channels, a
    stream delay between 0 and 500, and both its buffers. *)
Theorem engines_are_well_formed (s : Apm Components) :
  reachable s ->
  config_ok s /\ capture_audio_ s <> None /\ render_audio_ s <> None.
Proof.
  intros R. exact (reachable_well_formed R).
Qed.

(** ** Initialisation *)

Lemma Initialize_components_in_order (l : list ComponentId) :
  forall s : Apm Components,
    exists r cs evs,
      Initialize_components l s = Some (r, set_components cs s, evs)
      /\ in_order (component_stages M_Initialize l) evs r.
Proof.
  induction l as [|c l IH]; intros s; simpl.
  - exists kNoError, (components s), []. destruct s.
    split; [reflexivity | apply all_stages_ran].
  - unfold check, bind, component_init.
    destruct (component_Initialize c s) as [err cs] eqn:E.
    destruct (is_ok err) eqn:Ok.
    + destruct (IH (set_components cs s)) as (r & cs' & evs & H & O).
      rewrite H. exists r, cs', (Call c M_Initialize err :: evs).
      split; [reflexivity |]. apply is_ok_true in Ok. subst err.
      apply stage_ok. exact O.
    + exists err, cs, [Call c M_Initialize err].
      split; [reflexivity |]. apply stage_failed. apply is_ok_false.
      exact Ok.
Qed.

(** What [Initialize] does, in full. *)
Lemma Initialize_runs (s : Apm Components) :
  exists r cs evs,
    Initialize s
    = Some (r, reinitialized cs s,
            Enter
            :: Buffer render_audio
                 (B_new (num_render_input_channels_ s) (samples_per_channel_ s))
            :: Buffer capture_audio
                 (B_new (num_capture_input_channels_ s)
                    (samples_per_channel_ s))
            :: evs ++ [Leave])
    /\ in_order (component_stages M_Initialize component_list_) evs r.
Proof.
  unfold Initialize, locked, InitializeLocked, new_buffer, bind, get, modify,
    emit, ret.
  match goal with
  | |- context [Initialize_components ?l ?s0] =>
      destruct (Initialize_components_in_order l s0) as (r & cs & evs & H & O);
      rewrite H
  end.
  exists r, cs, evs. split; [reflexivity | exact O].
Qed.


(** X8: after a configuration change that is accepted, and whatever the
    components answer when they are initialised again, the values of the
    call are stored, both buffers are new buffers of the shape the new
    configuration asks for, the flag of the stream delay is cleared, and
    the stream delay, the identifier and the debug file are what they
    were. *)
Theorem accepted_configuration_is_applied
    (op : Operation) (s : Apm Components) r s' evs :
  reinitializes op = true ->
  perform op s = Some (r, s', evs) ->
  settings s' = settings (configure op s)
  /\ capture_audio_ s'
     = Some (AudioBuffer_new (num_capture_input_channels_ s')
               (samples_per_channel_ s'))
  /\ render_audio_ s'
     = Some (AudioBuffer_new (num_render_input_channels_ s')
               (samples_per_channel_ s'))
  /\ was_stream_delay_set_ s' = false
  /\ stream_delay_ms_ s' = stream_delay_ms_ s
  /\ id_ s' = id_ s
  /\ debug_file_ s' = debug_file_ s.
Proof.
  intros R H.
  pose proof (configuring_operations op s) as C.
  destruct op; simpl in R; try discriminate R; simpl in C, H;
    rewrite ?R in C;
    destruct C as (r0 & cs & inside & E & _); rewrite E in H;
    inversion H; subst; repeat split.
Qed.


(** ** The render stages and the framing of both streams *)

Lemma in_order_no_framing stages evs r :
  in_order stages evs r -> filter is_framing_event evs = [].
Proof.
  induction 1; simpl; rewrite ?IHin_order; reflexivity.
Qed.

Lemma no_stage_no_framing_writes evs :
  forallb is_write_event evs = true ->
  filter is_stage_event evs = [] /\ filter is_framing_event evs = [].
Proof.
  induction evs as [|e evs IH]; simpl; [split; reflexivity |].
  intros H. apply andb_true_iff in H. destruct H as [W H].
  destruct e; try discriminate W. simpl. exact (IH H).
Qed.

(** The calls of a loop over the channels, one by one. *)
Lemma total_channel_loop_exact (b : BufferId) count (op : Z -> BufferOp) f :
  total (allocated b)
    (for_channels count (fun i =>
       on_buffer (Components:=Components) b (op i) (f i)))
    (fun _ evs =>
       evs = map (fun i => Buffer b (op i)) (channel_indices count)).
Proof.
  unfold for_channels, channel_indices.
  generalize (Z.to_nat count) as n. generalize 0 as i.
  intros i n. revert i. induction n as [|n IH]; intros i; simpl.
  - apply total_ret. reflexivity.
  - eapply total_bind; [apply total_on_buffer |].
    intros u e1 ->. eapply total_weaken; [apply IH |].
    intros u2 e2 ->. reflexivity.
Qed.

(** One component stage in front of the stages that follow, for either
    buffer. *)
Lemma total_stage_on (b : BufferId) c m
    (f : ComponentId -> Apm Components -> AudioBuffer
         -> Error * Components * AudioBuffer)
    (k : M (Apm Components) Error) rest :
  total (allocated b) k (fun r evs => in_order rest evs r) ->
  total (allocated b) (check (call_on_buffer c m b f) k)
    (fun r evs => in_order (Component c m :: rest) evs r).
Proof.
  intros Hk. unfold check.
  eapply total_bind; [apply total_call_on_buffer |].
  intros err e1 ->. destruct (is_ok err) eqn:Ok.
  - apply is_ok_true in Ok. subst err.
    eapply total_weaken; [exact Hk |].
    intros r evs O. simpl. apply stage_ok. exact O.
  - apply total_ret. simpl. apply stage_failed. apply is_ok_false. exact Ok.
Qed.

Lemma total_AnalyzeReverseStream_components_in_order :
  total (allocated render_audio) AnalyzeReverseStream_components
    (fun r evs => in_order render_stages evs r).
Proof.
  unfold AnalyzeReverseStream_components, ProcessRenderAudio, render_stages.
  repeat apply total_stage_on.
  apply total_ret. apply all_stages_ran.
Qed.

Lemma settings_fields (s s0 : Apm Components) :
  settings s = settings s0 ->
  sample_rate_hz_ s = sample_rate_hz_ s0
  /\ num_render_input_channels_ s = num_render_input_channels_ s0
  /\ num_capture_input_channels_ s = num_capture_input_channels_ s0
  /\ num_capture_output_channels_ s = num_capture_output_channels_ s0.
Proof.
  unfold settings. intros E. inversion E. repeat split; assumption.
Qed.

Lemma filter_framing_map (b : BufferId) (op : Z -> BufferOp) l :
  (forall i, is_framing_event (Buffer b (op i)) = true) ->
  filter is_framing_event (map (fun i => Buffer b (op i)) l)
  = map (fun i => Buffer b (op i)) l.
Proof.
  intros H. induction l as [|i l IH]; [reflexivity |].
  cbn [map filter]. rewrite H, IH. reflexivity.
Qed.

Lemma filter_stage_map (b : BufferId) (op : Z -> BufferOp) l :
  (forall i, is_stage_event (Buffer b (op i)) = false) ->
  filter is_stage_event (map (fun i => Buffer b (op i)) l) = [].
Proof.
  intros H. induction l as [|i l IH]; [reflexivity |].
  cbn [map filter]. rewrite H, IH. reflexivity.
Qed.

(** The audio part of [AnalyzeReverseStream], from the states configured as
    [s0]. *)
Lemma total_AnalyzeReverseStream_audio_full f (s0 : Apm Components) :
  total (fun s => allocated render_audio s /\ settings s = settings s0)
    (AnalyzeReverseStream_audio f)
    (fun rf evs =>
       in_order render_stages (filter is_stage_event evs) (fst rf)
       /\ filter is_framing_event evs = render_framing s0).
Proof.
  unfold AnalyzeReverseStream_audio.
  eapply total_bind; [apply total_get_inv |].
  intros s1 e0 [[A1 S1] ->].
  destruct (settings_fields S1) as (F1 & F2 & _ & _).
  eapply total_bind.
  { apply total_strengthen with (allowed := fun _ => true);
      [apply total_on_buffer | apply keeps_on_buffer; intros; reflexivity]. }
  intros u1 e1 [-> _].
  eapply total_bind
    with (mid := fun _ evs =>
                   evs = if sample_rate_hz_ s0 =? 32000
                         then map (fun i => Buffer render_audio
                                              (B_SplittingFilterAnalysis i))
                                (channel_indices
                                   (num_render_input_channels_ s0))
                         else []).
  { rewrite F1, F2. unfold kSampleRate32kHz.
    destruct (sample_rate_hz_ s0 =? 32000).
    - eapply total_weaken.
      + apply total_strengthen with (allowed := fun _ => true);
          [apply total_channel_loop_exact |].
        apply keeps_for_channels. intros i.
        apply keeps_on_buffer; intros; reflexivity.
      + intros u evs [H _]. exact H.
    - apply total_ret. reflexivity. }
  intros u2 e2 E2.
  eapply total_bind.
  { apply total_strengthen with (allowed := fun _ => true);
      [apply total_AnalyzeReverseStream_components_in_order |].
    apply keeps_AnalyzeReverseStream_components; intros; reflexivity. }
  intros err e3 [O3 _].
  assert (S2 : filter is_stage_event e2 = []).
  { rewrite E2. destruct (sample_rate_hz_ s0 =? 32000); [| reflexivity].
    apply filter_stage_map. intros i. reflexivity. }
  assert (G2 : filter is_framing_event e2 = e2).
  { rewrite E2. destruct (sample_rate_hz_ s0 =? 32000); [| reflexivity].
    apply filter_framing_map. intros i. reflexivity. }
  pose proof (in_order_stage_events O3) as S3.
  pose proof (in_order_no_framing O3) as G3.
  destruct (is_ok err) eqn:Ok; cbn [negb].
  - eapply total_bind.
    { apply total_modify. intros s [A S]. split; [exact A | exact S]. }
    intros u4 e4 ->.
    eapply total_bind.
    { apply total_strengthen with (allowed := fun _ => true);
        [apply total_frame_behind
        | apply keeps_frame_behind; intros; reflexivity]. }
    intros f' e5 [-> _]. apply total_ret. cbn [fst snd].
    split.
    + simpl. rewrite !filter_app, S2, S3. simpl. rewrite app_nil_r. exact O3.
    + simpl. rewrite !filter_app, G2, G3. simpl. rewrite app_nil_r.
      unfold render_framing. rewrite E2. reflexivity.
  - eapply total_bind.
    { apply total_strengthen with (allowed := fun _ => true);
        [apply total_frame_behind
        | apply keeps_frame_behind; intros; reflexivity]. }
    intros f' e5 [-> _]. apply total_ret. cbn [fst snd]. split.
    + simpl. rewrite !filter_app, S2, S3. simpl. rewrite app_nil_r. exact O3.
    + simpl. rewrite !filter_app, G2, G3. simpl. rewrite app_nil_r.
      unfold render_framing. rewrite E2. reflexivity.
Qed.

(** What [AnalyzeReverseStream] does with a frame it accepts and records. *)
Lemma AnalyzeReverseStream_runs (s : Apm Components) (f : AudioFrame) :
  passes_validation s (num_render_input_channels_ s) f ->
  render_audio_ s <> None ->
  (exists s1 evs1, write_frame kRenderEvent f s = Some (kNoError, s1, evs1)) ->
  exists r fr s' evs,
    AnalyzeReverseStream (Some f) s = Some ((r, fr), s', evs)
    /\ in_order render_stages (filter is_stage_event evs) r
    /\ filter is_framing_event evs = render_framing s.
Proof.
  intros V A (s1 & evs1 & W).
  rewrite (AnalyzeReverseStream_valid V).
  assert (K1 : keeps (fun x : Apm Components => (render_audio_ x, settings x))
                 is_write_event (write_frame kRenderEvent f))
    by (apply keeps_write_frame; intros; reflexivity).
  destruct (K1 _ _ _ _ W) as [C1 N1].
  apply no_stage_no_framing_writes in N1. destruct N1 as [N1 N2].
  pose proof (f_equal fst C1) as C2. pose proof (f_equal snd C1) as C3.
  simpl in C2, C3.
  assert (A1 : allocated render_audio s1 /\ settings s1 = settings s).
  { split; [| exact C3]. unfold allocated. simpl. rewrite C2. exact A. }
  destruct (@total_AnalyzeReverseStream_audio_full f s s1 A1)
    as ([r fr] & s2 & evs2 & E2 & _ & O2 & G2).
  exists r, fr, s2. eexists. split.
  - unfold locked, bind, emit, ret. rewrite W. simpl. rewrite E2.
    reflexivity.
  - simpl in O2. simpl. rewrite !filter_app, N1, N2. simpl.
    rewrite !app_nil_r. split; assumption.
Qed.



(** The audio part of [ProcessStream], from the states configured as
    [s0]. *)
Lemma total_ProcessStream_audio_full f (s0 : Apm Components) :
  total (fun s => allocated capture_audio s /\ settings s = settings s0)
    (ProcessStream_audio f)
    (fun rf evs =>
       filter is_framing_event evs = capture_framing s0 (is_ok (fst rf))).
Proof.
  unfold ProcessStream_audio.
  eapply total_bind; [apply total_get_inv |].
  intros s1 e0 [[A1 S1] ->].
  destruct (settings_fields S1) as (F1 & _ & F3 & F4).
  rewrite F1, F3, F4. unfold kSampleRate32kHz.
  eapply total_bind.
  { apply total_strengthen with (allowed := fun _ => true);
      [apply total_on_buffer | apply keeps_on_buffer; intros; reflexivity]. }
  intros u1 e1 [-> _].
  eapply total_bind
    with (mid := fun _ evs =>
                   evs = if num_capture_output_channels_ s0
                            <? num_capture_input_channels_ s0
                         then [Buffer capture_audio
                                 (B_Mix (num_capture_output_channels_ s0))]
                         else []).
  { destruct (num_capture_output_channels_ s0
              <? num_capture_input_channels_ s0).
    - eapply total_bind.
      { apply total_strengthen with (allowed := fun _ => true);
          [apply total_on_buffer
          | apply keeps_on_buffer; intros; reflexivity]. }
      intros u e [-> _]. apply total_ret. reflexivity.
    - apply total_ret. reflexivity. }
  intros f1 e2 E2.
  eapply total_bind
    with (mid := fun _ evs =>
                   evs = if sample_rate_hz_ s0 =? 32000
                         then map (fun i => Buffer capture_audio
                                              (B_SplittingFilterAnalysis i))
                                (channel_indices
                                   (num_capture_input_channels_ s0))
                         else []).
  { destruct (sample_rate_hz_ s0 =? 32000).
    - eapply total_weaken.
      + apply total_strengthen with (allowed := fun _ => true);
          [apply total_channel_loop_exact |].
        apply keeps_for_channels. intros i.
        apply keeps_on_buffer; intros; reflexivity.
      + intros u evs [H _]. exact H.
    - apply total_ret. reflexivity. }
  intros u3 e3 E3.
  eapply total_bind.
  { apply total_strengthen with (allowed := fun _ => true);
      [apply total_ProcessStream_components |].
    apply keeps_ProcessStream_components; intros; reflexivity. }
  intros err e4 [O4 _].
  pose proof (in_order_no_framing O4) as G4.
  assert (G2 : filter is_framing_event e2 = e2).
  { rewrite E2. destruct (_ <? _); reflexivity. }
  assert (G3 : filter is_framing_event e3 = e3).
  { rewrite E3. destruct (sample_rate_hz_ s0 =? 32000); [| reflexivity].
    apply filter_framing_map. intros i. reflexivity. }
  destruct (is_ok err) eqn:Ok; cbn [negb].
  - eapply total_bind
      with (mid := fun _ evs =>
                     evs = if sample_rate_hz_ s0 =? 32000
                           then map (fun i =>
                                       Buffer capture_audio
                                         (B_SplittingFilterSynthesis i))
                                  (channel_indices
                                     (num_capture_output_channels_ s0))
                           else []).
    { destruct (sample_rate_hz_ s0 =? 32000).
      - eapply total_weaken.
        + apply total_strengthen with (allowed := fun _ => true);
            [apply total_channel_loop_exact |].
          apply keeps_for_channels. intros i.
          apply keeps_on_buffer; intros; reflexivity.
        + intros u evs [H _]. exact H.
      - apply total_ret. reflexivity. }
    intros u5 e5 E5.
    assert (G5 : filter is_framing_event e5 = e5).
    { rewrite E5. destruct (sample_rate_hz_ s0 =? 32000); [| reflexivity].
      apply filter_framing_map. intros i. reflexivity. }
    eapply total_bind.
    { apply total_strengthen with (allowed := fun _ => true);
        [apply total_interleave_to
        | apply keeps_interleave_to; intros; reflexivity]. }
    intros f2 e6 [-> _]. apply total_ret. cbn [fst snd is_ok].
    simpl. rewrite !filter_app, G2, G3, G4, G5. simpl.
    unfold capture_framing. rewrite E2, E3, E5, ?app_nil_r. reflexivity.
  - eapply total_bind.
    { apply total_strengthen with (allowed := fun _ => true);
        [apply total_frame_behind
        | apply keeps_frame_behind; intros; reflexivity]. }
    intros f' e5 [-> _]. apply total_ret. cbn [fst snd]. rewrite Ok.
    simpl. rewrite !filter_app, G2, G3, G4. simpl.
    unfold capture_framing. rewrite E2, E3, ?app_nil_r. reflexivity.
Qed.


(** ** What the stream functions leave alone *)

Section OneBuffer.

Variable b : BufferId.
Variable B : Type.
Variable proj : Apm Components -> B.

Hypothesis proj_components : forall v s, proj (set_components v s) = proj s.
Hypothesis proj_debug_file : forall v s, proj (set_debug_file_ v s) = proj s.
Hypothesis proj_written :
  forall a v s, buffer b s = Some a -> proj (set_buffer b (Some v) s) = proj s.

Lemma keeps_on_one_buffer op f :
  keeps proj (fun _ => true) (on_buffer b op f).
Proof.
  intros s r s' evs H. unfold on_buffer in H.
  destruct (buffer b s) as [a|] eqn:E; [| discriminate H].
  inversion H; subst. split; [eapply proj_written; exact E | reflexivity].
Qed.

Lemma keeps_call_on_one_buffer c m
    (f : ComponentId -> Apm Components -> AudioBuffer
         -> Error * Components * AudioBuffer) :
  keeps proj (fun _ => true) (call_on_buffer c m b f).
Proof.
  intros s r s' evs H. unfold call_on_buffer in H.
  destruct (buffer b s) as [a|] eqn:E; [| discriminate H].
  destruct (f c s a) as [[err cs] a']. inversion H; subst. split.
  - erewrite proj_written; [apply proj_components | destruct b; exact E].
  - reflexivity.
Qed.

End OneBuffer.

Lemma beside_capture_written a v (s : Apm Components) :
  buffer capture_audio s = Some a ->
  beside_capture (set_buffer capture_audio (Some v) s) = beside_capture s.
Proof. reflexivity. Qed.

Lemma beside_render_written a v (s : Apm Components) :
  buffer render_audio s = Some a ->
  beside_render (set_buffer render_audio (Some v) s) = beside_render s.
Proof. reflexivity. Qed.

Lemma keeps_beside_capture frame :
  keeps beside_capture (fun _ => true) (ProcessStream frame).
Proof.
  unfold ProcessStream, ProcessStream_audio, ProcessStream_components,
    ProcessCaptureAudio, AnalyzeCaptureAudio.
  repeat first
    [ apply keeps_write_frame; intros; reflexivity
    | apply keeps_on_one_buffer; intros; reflexivity
    | apply keeps_call_on_one_buffer; intros; reflexivity
    | apply keeps_is_enabled; intros; reflexivity
    | apply keeps_interleave_to; intros; reflexivity
    | apply keeps_frame_behind; intros; reflexivity
    | keeps_step ].
Qed.

Lemma keeps_beside_render frame :
  keeps beside_render (fun _ => true) (AnalyzeReverseStream frame).
Proof.
  unfold AnalyzeReverseStream, AnalyzeReverseStream_audio,
    AnalyzeReverseStream_components, ProcessRenderAudio.
  repeat first
    [ apply keeps_write_frame; intros; reflexivity
    | apply keeps_on_one_buffer; intros; reflexivity
    | apply keeps_call_on_one_buffer; intros; reflexivity
    | apply keeps_frame_behind; intros; reflexivity
    | keeps_step ].
Qed.

(** X6: whatever the components and the debug file do, [ProcessStream]
    changes neither the configuration, nor the flag of the stream delay, nor
    the identifier, nor the render buffer, and [AnalyzeReverseStream]
    changes neither the configuration, nor the identifier, nor the capture
    buffer: each stream function touches the buffer of its own side only. *)
Theorem streams_keep_to_their_side (frame : option AudioFrame) :
  (forall (s : Apm Components) r s' evs,
     ProcessStream frame s = Some (r, s', evs) ->
     settings s' = settings s
     /\ was_stream_delay_set_ s' = was_stream_delay_set_ s
     /\ id_ s' = id_ s
     /\ render_audio_ s' = render_audio_ s)
  /\ (forall (s : Apm Components) r s' evs,
        AnalyzeReverseStream frame s = Some (r, s', evs) ->
        settings s' = settings s
        /\ id_ s' = id_ s
        /\ capture_audio_ s' = capture_audio_ s).
Proof.
  split; intros s r s' evs H.
  - destruct (@keeps_beside_capture frame _ _ _ _ H) as [E _].
    unfold beside_capture in E. inversion E as [[E1 E2 E3 E4]].
    repeat split; try assumption. unfold settings. congruence.
  - destruct (@keeps_beside_render frame _ _ _ _ H) as [E _].
    unfold beside_render in E. inversion E as [[E1 E2 E3]].
    repeat split; try assumption. unfold settings. congruence.
Qed.

(** ** The debug file when nothing is recorded *)

Lemma forallb_both_right (p q : Event -> bool) l :
  forallb (fun e => p e && q e) l = true -> forallb q l = true.
Proof.
  induction l as [|e l IH]; [reflexivity |].
  simpl. intros F. apply andb_true_iff in F. destruct F as [F1 F2].
  apply andb_true_iff in F1. rewrite (proj2 F1). exact (IH F2).
Qed.

Lemma write_frame_closed event f (s : Apm Components) :
  file_Open (debug_file_ s) = false ->
  write_frame event f s = Some (kNoError, s, []).
Proof.
  intros C. unfold write_frame, bind, debug_Open, ret. rewrite C.
  reflexivity.
Qed.

Lemma stream_without_recording (event : Events) f
    (audio : M (Apm Components) (Error * option AudioFrame))
    (s : Apm Components) r s' evs :
  file_Open (debug_file_ s) = false ->
  keeps (@debug_file_ _ _ Components) (fun e => negb (is_lock_event e)
                                                && not_file_event e) audio ->
  (err <- write_frame event f ;;
   if negb (is_ok err) then ret (err, Some f) else audio) s
  = Some (r, s', evs) ->
  forallb not_file_event evs = true /\ debug_file_ s' = debug_file_ s.
Proof.
  intros C K H. unfold bind in H. rewrite (write_frame_closed _ _ _ C) in H.
  cbn [is_ok negb] in H.
  destruct (audio s) as [[[a s2] e2]|] eqn:E; [| discriminate H].
  inversion H; subst. destruct (K _ _ _ _ E) as [P F]. split; [| exact P].
  simpl. revert F. apply forallb_both_right.
Qed.

(** X10: while the debug file is not open, [ProcessStream] and
    [AnalyzeReverseStream] make no call to it, whatever the frame and
    whatever the components do, and leave it as it is. *)
Theorem no_file_access_without_recording
    (s : Apm Components) (frame : option AudioFrame) :
  file_Open (debug_file_ s) = false ->
  (forall r s' evs,
     ProcessStream frame s = Some (r, s', evs) ->
     forallb not_file_event evs = true /\ debug_file_ s' = debug_file_ s)
  /\ (forall r s' evs,
        AnalyzeReverseStream frame s = Some (r, s', evs) ->
        forallb not_file_event evs = true /\ debug_file_ s' = debug_file_ s).
Proof.
  intros C. split; intros r s' evs H.
  - apply locked_inv in H. destruct H as (inside & H & ->).
    assert (G : forallb not_file_event inside = true
                /\ debug_file_ s' = debug_file_ s).
    { destruct frame as [f|]; [| inversion H; subst; split; reflexivity].
      apply bind_inv in H. destruct H as (s0 & s1 & e1 & e2 & G & H & ->).
      inversion G; subst s0 s1 e1. clear G.
      destruct (negb (_frequencyInHz f =? to_uword32 (sample_rate_hz_ s)));
        [inversion H; subst; split; reflexivity |].
      destruct (negb (_audioChannel f =? num_capture_input_channels_ s));
        [inversion H; subst; split; reflexivity |].
      destruct (negb (_payloadDataLengthInSamples f =? samples_per_channel_ s));
        [inversion H; subst; split; reflexivity |].
      revert H. apply stream_without_recording; [exact C |].
      apply keeps_ProcessStream_audio; intros; reflexivity. }
    destruct G as [G1 G2]. split; [| exact G2].
    simpl. rewrite forallb_app, G1. reflexivity.
  - apply locked_inv in H. destruct H as (inside & H & ->).
    assert (G : forallb not_file_event inside = true
                /\ debug_file_ s' = debug_file_ s).
    { destruct frame as [f|]; [| inversion H; subst; split; reflexivity].
      apply bind_inv in H. destruct H as (s0 & s1 & e1 & e2 & G & H & ->).
      inversion G; subst s0 s1 e1. clear G.
      destruct (negb (_frequencyInHz f =? to_uword32 (sample_rate_hz_ s)));
        [inversion H; subst; split; reflexivity |].
      destruct (negb (_audioChannel f =? num_render_input_channels_ s));
        [inversion H; subst; split; reflexivity |].
      destruct (negb (_payloadDataLengthInSamples f =? samples_per_channel_ s));
        [inversion H; subst; split; reflexivity |].
      revert H. apply stream_without_recording; [exact C |].
      apply keeps_AnalyzeReverseStream_audio; intros; reflexivity. }
    destruct G as [G1 G2]. split; [| exact G2].
    simpl. rewrite forallb_app, G1. reflexivity.
Qed.

(** ** The text of the version *)

Lemma strlen_app_nul (text : list Z) : strlen (text ++ [0]) = strlen text.
Proof.
  induction text as [|c text IH]; [reflexivity |].
  cbn [app strlen]. rewrite IH. reflexivity.
Qed.

Lemma c_string_length (text : list Z) :
  Z.of_nat (List.length (c_string text)) = strlen text.
Proof.
  unfold c_string. pose proof (strlen_bounds text) as SB.
  rewrite length_firstn. lia.
Qed.

Lemma firstn_strlen_app (text : list Z) :
  firstn (Z.to_nat (strlen text)) (text ++ [0]) = c_string text.
Proof.
  unfold c_string. pose proof (strlen_bounds text) as SB.
  rewrite firstn_app.
  replace (Z.to_nat (strlen text) - List.length text)%nat with O by lia.
  rewrite firstn_O, app_nil_r. reflexivity.
Qed.

Lemma version_entry_length (text : list Z) :
  Z.of_nat (List.length (version_entry text))
  <= 1 + Z.of_nat (List.length text).
Proof.
  unfold version_entry. pose proof (strlen_bounds text) as SB.
  destruct (hd 0 (text ++ [0]) =? 0); cbn [List.length].
  - lia.
  - rewrite Nat2Z.inj_succ, c_string_length. lia.
Qed.

(** The loop over the components, when every component answers. *)
Lemma Version_components_output (l : list ComponentId) :
  forall (v : list Z) (rem pos : Z) (s : Apm Components),
    0 <= pos -> 0 <= rem ->
    pos + rem <= Z.of_nat (List.length v) ->
    pos + rem < 2 ^ 32 ->
    versions_available s l ->
    exists r v' rem' pos' evs,
      Version_components l v rem pos s = Some ((r, v', rem', pos'), s, evs)
      /\ (forall i, 0 <= i < pos -> byte v' i = byte v i)
      /\ (rem < Z.of_nat (List.length (component_versions s l)) ->
          r = kBadParameterError)
      /\ (Z.of_nat (List.length (component_versions s l)) <= rem ->
          r = kNoError
          /\ rem' = rem - Z.of_nat (List.length (component_versions s l))
          /\ pos' = pos + Z.of_nat (List.length (component_versions s l))
          /\ (forall i,
                0 <= i < Z.of_nat (List.length (component_versions s l)) ->
                byte v' (pos + i)
                = nth_error (component_versions s l) (Z.to_nat i))).
Proof.
  induction l as [|c l IH]; intros v rem pos s P R B W Av.
  - exists kNoError, v, rem, pos, []. simpl.
    repeat split; try lia.
  - assert (Avl : versions_available s l)
      by (intros c' I; apply Av; right; exact I).
    destruct (Av c (or_introl eq_refl)) as [Ok Fit].
    assert (G : component_get_version c s (sizeof_component_version - 1)
                = (kNoError, version_text s c)).
    { unfold version_text.
      destruct (component_get_version c s (sizeof_component_version - 1))
        as [err text].
      simpl in Ok. subst err. reflexivity. }
    cbn [Version_components]. unfold bind, get_version. rewrite G.
    unfold component_versions. cbn [map List.concat].
    fold (component_versions s l).
    set (text := version_text s c) in *. clearbody text.
    cbn [is_ok negb snd].
    unfold version_entry.
    replace (nth 1 (10 :: text ++ [0]) 0) with (hd 0 (text ++ [0]))
      by (destruct (text ++ [0]); reflexivity).
    destruct (hd 0 (text ++ [0]) =? 0).
    { destruct (IH v rem pos s P R B W Avl)
        as (r & v' & rem' & pos' & evs & E & H).
      rewrite E. exists r, v', rem', pos'. eexists.
      split; [reflexivity | exact H]. }
    set (e := 10 :: c_string text).
    assert (SB := strlen_bounds text).
    assert (Le : Z.of_nat (List.length e) = 1 + strlen text).
    { unfold e. cbn [List.length]. rewrite Nat2Z.inj_succ, c_string_length.
      lia. }
    assert (Len : to_uword32 (strlen (10 :: text ++ [0])) = 1 + strlen text).
    { cbn [strlen]. change (10 =? 0) with false. cbv iota.
      rewrite strlen_app_nul. apply to_uword32_small. lia. }
    rewrite Len. rewrite length_app, Nat2Z.inj_add, Le.
    destruct (rem <? 1 + strlen text) eqn:Short.
    { apply Z.ltb_lt in Short.
      eexists; eexists; eexists; eexists; eexists.
      split; [reflexivity |]. split; [reflexivity |].
      split; [reflexivity | intros; lia]. }
    apply Z.ltb_ge in Short.
    assert (Src : 1 + strlen text
                  <= Z.of_nat (List.length (10 :: text ++ [0]))).
    { cbn [List.length]. rewrite Nat2Z.inj_succ, length_app, Nat2Z.inj_add.
      lia. }
    rewrite memcpy_splice by (assumption || lia).
    assert (Mid : firstn (Z.to_nat (1 + strlen text)) (10 :: text ++ [0]) = e).
    { replace (Z.to_nat (1 + strlen text)) with (S (Z.to_nat (strlen text)))
        by lia.
      cbn [firstn]. rewrite firstn_strlen_app. reflexivity. }
    rewrite Mid.
    rewrite (to_uword32_small (x := rem - (1 + strlen text))) by lia.
    rewrite (to_uword32_small (x := pos + (1 + strlen text))) by lia.
    destruct (IH (splice v (Z.to_nat pos) e) (rem - (1 + strlen text))
                (pos + (1 + strlen text)) s)
      as (r & v' & rem' & pos' & evs & E & Hk & Hs & Hf);
      try lia; try assumption.
    { rewrite splice_length by lia. lia. }
    rewrite E. exists r, v', rem', pos'. eexists.
    split; [reflexivity |]. split; [| split].
    + intros i I. rewrite Hk by lia. apply splice_byte_outside; lia.
    + intros S. apply Hs. lia.
    + intros F. destruct Hf as (-> & -> & -> & Hb); [lia |].
      repeat split; try lia.
      intros i I.
      destruct (Z_lt_ge_dec i (1 + strlen text)) as [In1 | In2].
      * rewrite nth_error_app1 by lia.
        rewrite Hk by lia. rewrite splice_byte_inside by lia.
        f_equal. lia.
      * rewrite nth_error_app2 by lia.
        replace (pos + i)
          with (pos + (1 + strlen text) + (i - (1 + strlen text))) by lia.
        rewrite Hb by lia. f_equal. lia.
Qed.


(** X7: [Version] writes the text of the versions.  When every component
    of the list answers [get_version] with [kNoError] and a text of fewer
    than 255 bytes, the call with a buffer returns [kBadParameterError] if
    fewer bytes remain than the text has, and else returns [kNoError] with
    the text (the version of the engine, then for every component with a
    text that is not empty a line feed and that text, in the order of the
    list) written from [position] on, [bytes_remaining] lowered and
    [position] raised by its length. *)
Theorem Version_writes_the_versions
    (s : Apm Components) (version : list Z) (bytes_remaining position : Z) :
  0 <= position -> 0 <= bytes_remaining ->
  position + bytes_remaining <= Z.of_nat (List.length version) ->
  position + bytes_remaining < 2 ^ 32 ->
  versions_available s component_list_ ->
  exists r v' remaining' position' evs,
    Version (Some version) bytes_remaining position s
    = Some ((r, Some v', remaining', position'), s, evs)
    /\ (bytes_remaining < Z.of_nat (List.length (version_output s)) ->
        r = kBadParameterError)
    /\ (Z.of_nat (List.length (version_output s)) <= bytes_remaining ->
        r = kNoError
        /\ remaining'
           = bytes_remaining - Z.of_nat (List.length (version_output s))
        /\ position' = position + Z.of_nat (List.length (version_output s))
        /\ (forall i,
              0 <= i < Z.of_nat (List.length (version_output s)) ->
              byte v' (position + i)
              = nth_error (version_output s) (Z.to_nat i))).
Proof.
  intros P R B W Av.
  unfold version_output. rewrite length_app, Nat2Z.inj_add.
  set (mine := bytes_of_string "AudioProcessing 1.0.0").
  assert (Lm : Z.of_nat (List.length mine) = 21) by reflexivity.
  rewrite Lm.
  unfold Version. rewrite memset_splice by assumption.
  set (zeroed := splice version (Z.to_nat position)
                   (repeat 0 (Z.to_nat bytes_remaining))).
  assert (Lz : List.length zeroed = List.length version)
    by (apply splice_length; rewrite repeat_length; lia).
  rewrite strlen_my_version.
  destruct (bytes_remaining <? 21) eqn:Short.
  - apply Z.ltb_lt in Short.
    eexists; eexists; eexists; eexists; eexists.
    split; [reflexivity |]. split; [reflexivity | intros; lia].
  - apply Z.ltb_ge in Short.
    rewrite memcpy_splice by (try assumption; simpl; lia).
    change (firstn (Z.to_nat 21) my_version) with mine.
    rewrite (to_uword32_small (x := bytes_remaining - 21)) by lia.
    rewrite (to_uword32_small (x := position + 21)) by lia.
    destruct (@Version_components_output component_list_
                (splice zeroed (Z.to_nat position) mine)
                (bytes_remaining - 21) (position + 21) s)
      as (r & v' & rem' & pos' & evs & E & Hk & Hs & Hf);
      try lia; try assumption.
    { rewrite splice_length by lia. lia. }
    unfold bind. rewrite E.
    exists r, v', rem', pos'. eexists.
    split; [reflexivity |]. split.
    + intros S. apply Hs. lia.
    + intros F. destruct Hf as (-> & -> & -> & Hb); [lia |].
      repeat split; try lia.
      intros i I.
      destruct (Z_lt_ge_dec i 21) as [In1 | In2].
      * rewrite nth_error_app1 by lia.
        rewrite Hk by lia. rewrite splice_byte_inside by lia.
        f_equal. lia.
      * rewrite nth_error_app2 by lia.
        replace (position + i) with (position + 21 + (i - 21)) by lia.
        rewrite Hb by lia. f_equal. lia.
Qed.


(** One component that answers: its entry is written if it fits. *)
Lemma Version_components_step (c : ComponentId) (l : list ComponentId)
    (v : list Z) (rem pos : Z) (s : Apm Components) :
  0 <= pos -> 0 <= rem ->
  pos + rem <= Z.of_nat (List.length v) ->
  pos + rem < 2 ^ 32 ->
  fst (component_get_version c s (sizeof_component_version - 1)) = kNoError ->
  Z.of_nat (List.length (version_text s c)) < 255 ->
  Version_components (c :: l) v rem pos s
  = if rem <? Z.of_nat (List.length (version_entry (version_text s c)))
    then Some ((kBadParameterError, v, rem, pos), s,
               [Call c M_get_version kNoError])
    else
      match
        Version_components l
          (splice v (Z.to_nat pos) (version_entry (version_text s c)))
          (rem - Z.of_nat (List.length (version_entry (version_text s c))))
          (pos + Z.of_nat (List.length (version_entry (version_text s c))))
          s
      with
      | Some (r, s', evs) => Some (r, s', Call c M_get_version kNoError :: evs)
      | None => None
      end.
Proof.
  intros P R B W Ok Fit.
  assert (G : component_get_version c s (sizeof_component_version - 1)
              = (kNoError, version_text s c)).
  { unfold version_text.
    destruct (component_get_version c s (sizeof_component_version - 1))
      as [err text].
    simpl in Ok. subst err. reflexivity. }
  cbn [Version_components]. unfold bind, get_version. rewrite G.
  set (text := version_text s c) in *. clearbody text.
  cbn [is_ok negb]. unfold version_entry.
  replace (nth 1 (10 :: text ++ [0]) 0) with (hd 0 (text ++ [0]))
    by (destruct (text ++ [0]); reflexivity).
  destruct (hd 0 (text ++ [0]) =? 0).
  { cbn [List.length]. change (Z.of_nat 0) with 0.
    replace (rem <? 0) with false by (symmetry; apply Z.ltb_ge; lia).
    unfold splice. cbn [app List.length]. rewrite Nat.add_0_r, firstn_skipn.
    rewrite Z.sub_0_r, Z.add_0_r. reflexivity. }
  set (e := 10 :: c_string text).
  assert (SB := strlen_bounds text).
  assert (Le : Z.of_nat (List.length e) = 1 + strlen text).
  { unfold e. cbn [List.length]. rewrite Nat2Z.inj_succ, c_string_length.
    lia. }
  assert (Len : to_uword32 (strlen (10 :: text ++ [0])) = 1 + strlen text).
  { cbn [strlen]. change (10 =? 0) with false. cbv iota.
    rewrite strlen_app_nul. apply to_uword32_small. lia. }
  rewrite Len, Le.
  destruct (rem <? 1 + strlen text) eqn:Short; [reflexivity |].
  apply Z.ltb_ge in Short.
  assert (Src : 1 + strlen text
                <= Z.of_nat (List.length (10 :: text ++ [0]))).
  { cbn [List.length]. rewrite Nat2Z.inj_succ, length_app, Nat2Z.inj_add.
    lia. }
  rewrite memcpy_splice by (assumption || lia).
  assert (Mid : firstn (Z.to_nat (1 + strlen text)) (10 :: text ++ [0]) = e).
  { replace (Z.to_nat (1 + strlen text)) with (S (Z.to_nat (strlen text)))
      by lia.
    cbn [firstn]. rewrite firstn_strlen_app. reflexivity. }
  rewrite Mid.
  rewrite (to_uword32_small (x := rem - (1 + strlen text))) by lia.
  rewrite (to_uword32_small (x := pos + (1 + strlen text))) by lia.
  reflexivity.
Qed.

(** The loop over the components, when one of them fails. *)
Lemma Version_components_failure (before : list ComponentId) :
  forall (v : list Z) (rem pos : Z) (s : Apm Components)
         (c : ComponentId) (after : list ComponentId) (err : Error),
    0 <= pos -> 0 <= rem ->
    pos + rem <= Z.of_nat (List.length v) ->
    pos + rem < 2 ^ 32 ->
    versions_available s before ->
    fst (component_get_version c s (sizeof_component_version - 1)) = err ->
    err <> kNoError ->
    Z.of_nat (List.length (component_versions s before)) <= rem ->
    exists v',
      Version_components (before ++ c :: after) v rem pos s
      = Some ((err, v',
               rem - Z.of_nat (List.length (component_versions s before)),
               pos + Z.of_nat (List.length (component_versions s before))),
              s, version_calls before c err)
      /\ (forall i, 0 <= i < pos -> byte v' i = byte v i)
      /\ (forall i,
            0 <= i < Z.of_nat (List.length (component_versions s before)) ->
            byte v' (pos + i)
            = nth_error (component_versions s before) (Z.to_nat i)).
Proof.
  induction before as [|b before IH];
    intros v rem pos s c after err P R B W Av Ec Ne F.
  - exists v. cbn [app Version_components]. unfold bind, get_version.
    destruct (component_get_version c s (sizeof_component_version - 1))
      as [err' text].
    simpl in Ec. subst err'.
    assert (No : is_ok err = false) by (destruct err; [contradiction Ne | ..]; reflexivity).
    rewrite No. cbn [negb component_versions map List.concat List.length].
    change (Z.of_nat 0) with 0. rewrite Z.sub_0_r, Z.add_0_r.
    split; [reflexivity |]. split; [reflexivity | intros; lia].
  - assert (Avl : versions_available s before)
      by (intros c' I; apply Av; right; exact I).
    destruct (Av b (or_introl eq_refl)) as [Ok Fit].
    unfold component_versions in F |- *. cbn [map List.concat] in F |- *.
    fold (component_versions s before) in F |- *.
    set (e := version_entry (version_text s b)) in *.
    rewrite length_app, Nat2Z.inj_add in F |- *.
    cbn [app]. rewrite Version_components_step by assumption.
    fold e.
    replace (rem <? Z.of_nat (List.length e)) with false
      by (symmetry; apply Z.ltb_ge; lia).
    destruct (IH (splice v (Z.to_nat pos) e) (rem - Z.of_nat (List.length e))
                (pos + Z.of_nat (List.length e)) s c after err)
      as (v' & E & Hk & Hb); try lia; try assumption.
    { rewrite splice_length by lia. lia. }
    rewrite E. exists v'.
    split; [| split].
    + unfold version_calls. cbn [map app].
      rewrite Z.sub_add_distr, Z.add_assoc. reflexivity.
    + intros i I. rewrite Hk by lia. apply splice_byte_outside; lia.
    + intros i I.
      destruct (Z_lt_ge_dec i (Z.of_nat (List.length e))) as [In1 | In2].
      * rewrite nth_error_app1 by lia.
        rewrite Hk by lia. rewrite splice_byte_inside by lia.
        f_equal. lia.
      * rewrite nth_error_app2 by lia.
        replace (pos + i)
          with (pos + Z.of_nat (List.length e)
                + (i - Z.of_nat (List.length e))) by lia.
        rewrite Hb by lia. f_equal. lia.
Qed.

(** X11: [Version] stops at the first component whose [get_version] fails.
    When the components before it in the list answer [kNoError] with texts
    of fewer than 255 bytes, and the version of the engine and their
    entries fit, the call returns the error of that component; the text up
    to there is written from [position] on and the two counters are moved by
    its length; and no component behind the failing one is asked. *)
Theorem Version_stops_at_failing_component
    (s : Apm Components) (version : list Z) (bytes_remaining position : Z)
    (before : list ComponentId) (c : ComponentId) (after : list ComponentId)
    (err : Error) :
  0 <= position -> 0 <= bytes_remaining ->
  position + bytes_remaining <= Z.of_nat (List.length version) ->
  position + bytes_remaining < 2 ^ 32 ->
  component_list_ = before ++ c :: after ->
  versions_available s before ->
  fst (component_get_version c s (sizeof_component_version - 1)) = err ->
  err <> kNoError ->
  21 + Z.of_nat (List.length (component_versions s before))
  <= bytes_remaining ->
  exists v',
    Version (Some version) bytes_remaining position s
    = Some ((err, Some v',
             bytes_remaining
             - (21 + Z.of_nat (List.length (component_versions s before))),
             position
             + (21 + Z.of_nat (List.length (component_versions s before)))),
            s, version_calls before c err)
    /\ (forall i,
          0 <= i < 21 + Z.of_nat (List.length (component_versions s before)) ->
          byte v' (position + i)
          = nth_error
              (bytes_of_string "AudioProcessing 1.0.0"
               ++ component_versions s before)
              (Z.to_nat i)).
Proof.
  intros P R B W L Av Ec Ne F.
  set (mine := bytes_of_string "AudioProcessing 1.0.0").
  assert (Lm : Z.of_nat (List.length mine) = 21) by reflexivity.
  unfold Version. rewrite memset_splice by assumption.
  set (zeroed := splice version (Z.to_nat position)
                   (repeat 0 (Z.to_nat bytes_remaining))).
  assert (Lz : List.length zeroed = List.length version)
    by (apply splice_length; rewrite repeat_length; lia).
  rewrite strlen_my_version.
  replace (bytes_remaining <? 21) with false
    by (symmetry; apply Z.ltb_ge; lia).
  rewrite memcpy_splice by (try assumption; simpl; lia).
  change (firstn (Z.to_nat 21) my_version) with mine.
  rewrite (to_uword32_small (x := bytes_remaining - 21)) by lia.
  rewrite (to_uword32_small (x := position + 21)) by lia.
  rewrite L.
  destruct (@Version_components_failure before
              (splice zeroed (Z.to_nat position) mine)
              (bytes_remaining - 21) (position + 21) s c after err)
    as (v' & E & Hk & Hb); try lia; try assumption.
  { rewrite splice_length by lia. lia. }
  unfold bind. rewrite E. exists v'.
  split.
  - unfold ret. rewrite app_nil_r, Z.sub_add_distr, Z.add_assoc.
    reflexivity.
  - intros i I.
    destruct (Z_lt_ge_dec i 21) as [In1 | In2].
    + rewrite nth_error_app1 by lia.
      rewrite Hk by lia. rewrite splice_byte_inside by lia.
      f_equal. lia.
    + rewrite nth_error_app2 by lia.
      replace (position + i) with (position + 21 + (i - 21)) by lia.
      rewrite Hb by lia. f_equal. lia.
Qed.

(** X12: the debug recording keeps to the file.  [StartDebugRecording] and
    [StopDebugRecording] change nothing of the engine but the debug file,
    and call nothing but the file inside the critical section; without a
    file name [StartDebugRecording] returns [kNullPointerError] and does not
    touch the file either, and while no recording runs [StopDebugRecording]
    returns [kNoError] and does not touch it. *)
Theorem recording_keeps_to_the_file (name : option string) :
  (forall (s : Apm Components) r s' evs,
     StartDebugRecording name s = Some (r, s', evs) ->
     beside_file s' = beside_file s
     /\ forallb file_or_lock_event evs = true)
  /\ (forall (s : Apm Components) r s' evs,
        StopDebugRecording s = Some (r, s', evs) ->
        beside_file s' = beside_file s
        /\ forallb file_or_lock_event evs = true)
  /\ (forall s : Apm Components,
        StartDebugRecording None s
        = Some (kNullPointerError, s, [Enter; Leave]))
  /\ (forall s : Apm Components,
        file_Open (debug_file_ s) = false ->
        StopDebugRecording s = Some (kNoError, s, [Enter; Leave])).
Proof.
  split; [| split; [| split]].
  - change (keeps (beside_file (Components:=Components)) file_or_lock_event
              (StartDebugRecording name)).
    unfold StartDebugRecording. apply keeps_locked; try reflexivity.
    apply keeps_StartDebugRecording_body; intros; reflexivity.
  - change (keeps (beside_file (Components:=Components)) file_or_lock_event
              StopDebugRecording).
    unfold StopDebugRecording. apply keeps_locked; try reflexivity.
    apply keeps_StopDebugRecording_body; intros; reflexivity.
  - intros s. reflexivity.
  - intros s C. unfold StopDebugRecording, locked, bind, emit, debug_Open.
    rewrite C. reflexivity.
Qed.

(** ** No operation without its buffer *)

Section FileTotality.

Variable inv : Apm Components -> Prop.
Hypothesis inv_file : forall fw s, inv s -> inv (set_debug_file_ fw s).

Lemma total_debug_Open : total inv debug_Open (fun _ _ => True).
Proof.
  intros s I. unfold debug_Open. eexists; eexists; eexists.
  split; [reflexivity |]. split; [exact I | exact Logic.I].
Qed.

Lemma total_debug_CloseFile : total inv debug_CloseFile (fun _ _ => True).
Proof.
  intros s I. unfold debug_CloseFile.
  destruct (file_CloseFile (debug_file_ s)) as [r fw].
  eexists; eexists; eexists.
  split; [reflexivity |]. split; [apply inv_file; exact I | exact Logic.I].
Qed.

Lemma total_debug_OpenFile name ro :
  total inv (debug_OpenFile name ro) (fun _ _ => True).
Proof.
  intros s I. unfold debug_OpenFile.
  destruct (file_OpenFile name ro (debug_file_ s)) as [r fw].
  eexists; eexists; eexists.
  split; [reflexivity |]. split; [apply inv_file; exact I | exact Logic.I].
Qed.

Lemma total_debug_WriteText text :
  total inv (debug_WriteText text) (fun _ _ => True).
Proof.
  intros s I. unfold debug_WriteText.
  destruct (file_WriteText text (debug_file_ s)) as [r fw].
  eexists; eexists; eexists.
  split; [reflexivity |]. split; [apply inv_file; exact I | exact Logic.I].
Qed.

Lemma total_debug_Write obj n :
  total inv (debug_Write obj n) (fun _ _ => True).
Proof.
  intros s I. unfold debug_Write.
  destruct (file_Write obj n (debug_file_ s)) as [ok fw].
  eexists; eexists; eexists.
  split; [reflexivity |]. split; [apply inv_file; exact I | exact Logic.I].
Qed.

(** A step through the calls of the file. *)
Ltac total_file :=
  repeat first
    [ apply total_ret; exact Logic.I
    | eapply total_bind;
      [ first [ apply total_debug_Open | apply total_debug_CloseFile
              | apply total_debug_OpenFile | apply total_debug_WriteText
              | apply total_debug_Write | apply total_get ]
      | intros ? ? _ ]
    | apply total_check
    | match goal with
      | |- total _ (if ?c then _ else _) _ => destruct c
      end ].

Lemma total_write_frame event f :
  total inv (write_frame event f) (fun _ _ => True).
Proof. unfold write_frame. total_file. Qed.

Lemma total_StartDebugRecording name :
  total inv (StartDebugRecording name) (fun _ _ => True).
Proof.
  unfold StartDebugRecording. apply total_locked with (post := fun _ _ => True).
  destruct name as [n|]; total_file.
Qed.

Lemma total_StopDebugRecording :
  total inv StopDebugRecording (fun _ _ => True).
Proof.
  unfold StopDebugRecording. apply total_locked with (post := fun _ _ => True).
  total_file.
Qed.

End FileTotality.

Lemma allocated_file (b : BufferId) fw (s : Apm Components) :
  allocated b s -> allocated b (set_debug_file_ fw s).
Proof. unfold allocated. destruct b; intros H; exact H. Qed.

Lemma total_ProcessStream frame :
  total (allocated capture_audio) (ProcessStream frame) (fun _ _ => True).
Proof.
  unfold ProcessStream. apply total_locked with (post := fun _ _ => True).
  destruct frame as [f|]; [| apply total_ret; exact I].
  eapply total_bind; [apply total_get |]. intros s0 e0 _.
  repeat match goal with
         | |- total _ (if negb (?a =? ?b) then _ else _) _ =>
             destruct (negb (a =? b)); [apply total_ret; exact I |]
         end.
  eapply total_bind;
    [apply total_write_frame; apply allocated_file |]. intros err e1 _.
  destruct (negb (is_ok err)); [apply total_ret; exact I |].
  eapply total_weaken; [apply total_ProcessStream_audio | auto].
Qed.

Lemma total_AnalyzeReverseStream frame :
  total (allocated render_audio) (AnalyzeReverseStream frame)
    (fun _ _ => True).
Proof.
  unfold AnalyzeReverseStream.
  apply total_locked with (post := fun _ _ => True).
  destruct frame as [f|]; [| apply total_ret; exact I].
  eapply total_bind; [apply total_get |]. intros s0 e0 _.
  repeat match goal with
         | |- total _ (if negb (?a =? ?b) then _ else _) _ =>
             destruct (negb (a =? b)); [apply total_ret; exact I |]
         end.
  eapply total_bind;
    [apply total_write_frame; apply allocated_file |]. intros err e1 _.
  destruct (negb (is_ok err)); [apply total_ret; exact I |].
  eapply total_weaken; [apply total_AnalyzeReverseStream_audio | auto].
Qed.

(** X13: an engine that [Create] returned, or that comes from one by the
    operations of the interface, is never used without its buffers: every
    operation on it is defined, with whatever arguments, whatever the
    components answer and whatever the debug file does. *)
Theorem operations_are_defined (op : Operation) (s : Apm Components) :
  reachable s ->
  exists r s' evs, perform op s = Some (r, s', evs).
Proof.
  intros R. destruct (reachable_well_formed R) as (Ok & Ac & Ar).
  pose proof (configuring_operations op s) as C.
  destruct op; simpl in C |- *;
    try (match type of C with
         | if ?c then _ else _ => destruct c
         end;
         [ destruct C as (r & cs & inside & E & _); rewrite E;
           eexists; eexists; eexists; reflexivity
         | rewrite C; eexists; eexists; eexists; reflexivity ]).
  - destruct C as (r & cs & inside & E & _).
    change (perform Op_Initialize s) with (Initialize s) in E.
    rewrite E. eexists; eexists; eexists; reflexivity.
  - destruct (total_ProcessStream frame Ac) as (r & s' & evs & E & _).
    unfold bind. rewrite E. eexists; eexists; eexists; reflexivity.
  - destruct (total_AnalyzeReverseStream frame Ar) as (r & s' & evs & E & _).
    unfold bind. rewrite E. eexists; eexists; eexists; reflexivity.
  - unfold set_stream_delay_ms, bind, modify, ret.
    destruct (delay <? 0); [| destruct (delay >? 500)];
      eexists; eexists; eexists; reflexivity.
  - destruct (@total_StartDebugRecording (fun _ => True)
                (fun _ _ _ => I) filename s I) as (r & s' & evs & E & _).
    rewrite E. eexists; eexists; eexists; reflexivity.
  - destruct (@total_StopDebugRecording (fun _ => True)
                (fun _ _ _ => I) s I) as (r & s' & evs & E & _).
    rewrite E. eexists; eexists; eexists; reflexivity.
  - eexists; eexists; eexists; reflexivity.
Qed.

End FurtherProperties.

(** * The properties on the bench *)

#[local] Existing Instance bench_buffer.
#[local] Existing Instance bench_file.
#[local] Existing Instance bench_layout.
#[local] Existing Instance bench_components.

Lemma bench_config_ok cs d : config_ok (bench_apm cs d).
Proof.
  constructor; simpl; try lia; reflexivity.
Qed.



Lemma invalid_frames_are_rejected_witness :
  config_ok (bench_apm all_ok closed_disk)
  /\ ProcessStream None (bench_apm all_ok closed_disk)
     = Some ((kNullPointerError, None), bench_apm all_ok closed_disk,
             [Enter; Leave])
  /\ ProcessStream (Some (mkAudioFrame 8000 1 80 (repeat 0 80)))
       (bench_apm all_ok closed_disk)
     = Some ((kBadSampleRateError, Some (mkAudioFrame 8000 1 80 (repeat 0 80))),
             bench_apm all_ok closed_disk, [Enter; Leave]).
Proof.
  pose proof (bench_config_ok all_ok closed_disk) as Ok.
  split; [exact Ok |]. split.
  - apply (proj1 (proj2 (invalid_frames_are_rejected None Ok))).
    apply rejected_null.
  - apply (proj1 (proj2 (invalid_frames_are_rejected
                           (Some (mkAudioFrame 8000 1 80 (repeat 0 80))) Ok))).
    apply rejected_sample_rate. simpl. lia.
Defined.

Lemma stream_delay_flag_transitions_witness :
  perform (Op_set_stream_delay_ms 600) (bench_apm all_ok closed_disk)
  = Some (kBadStreamParameterWarning,
          set_stream_delay_ms_ 500
            (set_was_stream_delay_set_ true (bench_apm all_ok closed_disk)),
          [])
  /\ was_stream_delay_set_
       (set_stream_delay_ms_ 500
          (set_was_stream_delay_set_ true (bench_apm all_ok closed_disk)))
     = true.
Proof.
  assert (E : perform (Op_set_stream_delay_ms 600)
                (bench_apm all_ok closed_disk)
              = Some (kBadStreamParameterWarning,
                      set_stream_delay_ms_ 500
                        (set_was_stream_delay_set_ true
                           (bench_apm all_ok closed_disk)),
                      []))
    by reflexivity.
  split; [exact E |].
  apply (proj1 (proj2 (proj2 (stream_delay_flag_transitions _ _ E))) 600).
  reflexivity.
Defined.

(** [Initialize] clears the flag, and is no [AnalyzeReverseStream]. *)
Lemma flag_cleared_by_Initialize :
  exists s' evs,
    perform Op_Initialize
      (set_was_stream_delay_set_ true (bench_apm all_ok closed_disk))
    = Some (kNoError, s', evs)
    /\ was_stream_delay_set_
         (set_was_stream_delay_set_ true (bench_apm all_ok closed_disk))
       = true
    /\ was_stream_delay_set_ s' = false
    /\ forall frame, Op_Initialize <> Op_AnalyzeReverseStream frame.
Proof.
  eexists; eexists. split; [vm_compute; reflexivity |].
  split; [reflexivity |]. split; [reflexivity |].
  intros frame. discriminate.
Qed.

Lemma rejected_configuration_changes_nothing_witness :
  rejected_configuration (Op_set_sample_rate_hz 44100)
  /\ exists s',
       perform (Op_set_sample_rate_hz 44100) (bench_apm all_ok closed_disk)
       = Some (kBadParameterError, s', [Enter; Leave])
       /\ s' = bench_apm all_ok closed_disk.
Proof.
  assert (R : rejected_configuration (Op_set_sample_rate_hz 44100))
    by (apply rejected_rate; lia).
  split; [exact R |].
  destruct (rejected_configuration_changes_nothing
              (bench_apm all_ok closed_disk) R) as (s' & E & S & _).
  exists s'. split; assumption.
Defined.

Lemma accepted_rate_sets_derived_fields_witness :
  exists r s' evs,
    set_sample_rate_hz 32000 (bench_apm all_ok closed_disk)
    = Some (r, s', evs)
    /\ sample_rate_hz_ s' = 32000
    /\ samples_per_channel_ s' = 320
    /\ split_sample_rate_hz_ s' = 16000.
Proof.
  apply (accepted_rate_sets_derived_fields (rate := 32000)
           (bench_apm all_ok closed_disk)).
  right; right; reflexivity.
Defined.

Lemma debug_record_precedes_processing_witness :
  file_Open (debug_file_ (bench_apm all_ok good_disk)) = true
  /\ traced 2 capture_audio bench_frame (bench_apm all_ok good_disk)
       (ProcessStream (Some bench_frame) (bench_apm all_ok good_disk))
  /\ traced 1 render_audio bench_frame (bench_apm all_ok good_disk)
       (AnalyzeReverseStream (Some bench_frame) (bench_apm all_ok good_disk)).
Proof.
  assert (O : file_Open (debug_file_ (bench_apm all_ok good_disk)) = true)
    by reflexivity.
  split; [exact O |].
  destruct (debug_record_precedes_processing
              (bench_apm all_ok good_disk) bench_frame O) as [C R].
  split.
  - apply C; [repeat split; reflexivity | simpl; discriminate].
  - apply R; [repeat split; reflexivity | simpl; discriminate].
Defined.



(** ** The further properties on the bench *)

Lemma bench_versions_available cs d (l : list ComponentId) :
  (forall c, In c l -> answer cs c = kNoError) ->
  versions_available (bench_apm cs d) l.
Proof.
  intros H c I. split; [exact (H c I) |].
  destruct c; vm_compute; reflexivity.
Qed.

Lemma engines_are_well_formed_witness :
  exists s,
    Create (FW:=bench_file) 0 all_ok closed_disk = Some s
    /\ reachable s
    /\ config_ok s /\ capture_audio_ s <> None /\ render_audio_ s <> None.
Proof.
  destruct (Create (FW:=bench_file) 0 all_ok closed_disk) as [s|] eqn:E;
    [| vm_compute in E; discriminate E].
  assert (R : reachable s) by exact (reachable_Create (FW:=bench_file) 0 all_ok closed_disk E).
  exists s. split; [reflexivity |]. split; [exact R |].
  exact (engines_are_well_formed R).
Defined.




Lemma Version_writes_the_versions_witness :
  versions_available (bench_apm all_ok closed_disk) component_list_
  /\ exists r v' remaining' position' evs,
       Version (Some (repeat 7 64)) 40 4 (bench_apm all_ok closed_disk)
       = Some ((r, Some v', remaining', position'),
               bench_apm all_ok closed_disk, evs)
       /\ (40 < Z.of_nat (List.length
                            (version_output (bench_apm all_ok closed_disk))) ->
           r = kBadParameterError)
       /\ (Z.of_nat (List.length
                       (version_output (bench_apm all_ok closed_disk))) <= 40 ->
           r = kNoError
           /\ remaining'
              = 40 - Z.of_nat (List.length
                                 (version_output
                                    (bench_apm all_ok closed_disk)))
           /\ position'
              = 4 + Z.of_nat (List.length
                                (version_output
                                   (bench_apm all_ok closed_disk)))
           /\ (forall i,
                 0 <= i < Z.of_nat (List.length
                                      (version_output
                                         (bench_apm all_ok closed_disk))) ->
                 byte v' (4 + i)
                 = nth_error (version_output (bench_apm all_ok closed_disk))
                     (Z.to_nat i))).
Proof.
  assert (Av : versions_available (bench_apm all_ok closed_disk)
                 component_list_)
    by (apply bench_versions_available; intros; reflexivity).
  split; [exact Av |].
  apply (Version_writes_the_versions
           (s := bench_apm all_ok closed_disk) (repeat 7 64)
           (bytes_remaining := 40) (position := 4));
    try exact Av; simpl; lia.
Defined.

Lemma accepted_configuration_is_applied_witness :
  reinitializes (Op_set_num_channels 2 1) = true
  /\ exists r s' evs,
       perform (Op_set_num_channels 2 1) (bench_apm all_ok closed_disk)
       = Some (r, s', evs)
       /\ settings s' = (16000, 16000, 160, 1, 2, 1, 0)
       /\ capture_audio_ s'
          = Some (AudioBuffer_new (num_capture_input_channels_ s')
                    (samples_per_channel_ s'))
       /\ render_audio_ s'
          = Some (AudioBuffer_new (num_render_input_channels_ s')
                    (samples_per_channel_ s'))
       /\ was_stream_delay_set_ s' = false.
Proof.
  split; [reflexivity |].
  destruct (perform (Op_set_num_channels 2 1) (bench_apm all_ok closed_disk))
    as [[[r s'] evs]|] eqn:E; [| vm_compute in E; discriminate E].
  exists r, s', evs. split; [reflexivity |].
  destruct (accepted_configuration_is_applied
              (Op_set_num_channels 2 1) (bench_apm all_ok closed_disk)
              eq_refl E) as (H1 & H2 & H3 & H4 & _).
  repeat split; assumption.
Defined.

Lemma no_file_access_without_recording_witness :
  file_Open (debug_file_ (bench_apm all_enabled closed_disk)) = false
  /\ exists r s' evs,
       ProcessStream (Some bench_frame) (bench_apm all_enabled closed_disk)
       = Some (r, s', evs)
       /\ forallb not_file_event evs = true
       /\ debug_file_ s' = closed_disk.
Proof.
  split; [reflexivity |].
  destruct (ProcessStream (Some bench_frame)
              (bench_apm all_enabled closed_disk))
    as [[[r s'] evs]|] eqn:E; [| vm_compute in E; discriminate E].
  exists r, s', evs. split; [reflexivity |].
  exact (proj1 (no_file_access_without_recording
                  (bench_apm all_enabled closed_disk) (Some bench_frame)
                  eq_refl) r s' evs E).
Defined.

Lemma Version_stops_at_failing_component_witness :
  component_list_
  = [echo_cancellation_; echo_control_mobile_; gain_control_;
     high_pass_filter_; level_estimator_]
    ++ noise_suppression_ :: [voice_detection_]
  /\ exists v',
       Version (Some (repeat 7 64)) 40 4
         (bench_apm noise_suppression_fails closed_disk)
       = Some ((kOtherError (-1), Some v', 40 - (21 + 6), 4 + (21 + 6)),
               bench_apm noise_suppression_fails closed_disk,
               version_calls
                 [echo_cancellation_; echo_control_mobile_; gain_control_;
                  high_pass_filter_; level_estimator_]
                 noise_suppression_ (kOtherError (-1)))
       /\ (forall i,
             0 <= i < 21 + 6 ->
             byte v' (4 + i)
             = nth_error
                 (bytes_of_string "AudioProcessing 1.0.0"
                  ++ 10 :: bytes_of_string "AEC 1")
                 (Z.to_nat i)).
Proof.
  split; [reflexivity |].
  set (s := bench_apm noise_suppression_fails closed_disk).
  set (before := [echo_cancellation_; echo_control_mobile_; gain_control_;
                  high_pass_filter_; level_estimator_]).
  assert (L : component_versions s before = 10 :: bytes_of_string "AEC 1")
    by reflexivity.
  assert (Av : versions_available s before).
  { apply bench_versions_available. intros c I. simpl in I.
    destruct I as [<- | [<- | [<- | [<- | [<- | []]]]]]; reflexivity. }
  assert (H1 : 0 <= 4) by lia.
  assert (H2 : 0 <= 40) by lia.
  assert (H3 : 4 + 40 <= Z.of_nat (List.length (repeat 7 64)))
    by (vm_compute; discriminate).
  assert (H4 : 4 + 40 < 2 ^ 32) by reflexivity.
  assert (H5 : component_list_
               = before ++ noise_suppression_ :: [voice_detection_])
    by reflexivity.
  assert (H6 : fst (component_get_version noise_suppression_ s
                      (sizeof_component_version - 1)) = kOtherError (-1))
    by reflexivity.
  assert (H7 : kOtherError (-1) <> kNoError) by discriminate.
  assert (H8 : 21 + Z.of_nat (List.length (component_versions s before)) <= 40)
    by (vm_compute; discriminate).
  destruct (Version_stops_at_failing_component
              (repeat 7 64) noise_suppression_ [voice_detection_]
              H1 H2 H3 H4 H5 Av H6 H7 H8)
    as (v' & E & Hb).
  rewrite L in E, Hb.
  change (Z.of_nat (List.length (10 :: bytes_of_string "AEC 1"))) with 6
    in E, Hb.
  exists v'. split; assumption.
Defined.

Lemma operations_are_defined_witness :
  exists s,
    Create (FW:=bench_file) 0 all_enabled good_disk = Some s
    /\ exists r s' evs,
         perform (Op_ProcessStream (Some bench_frame)) s = Some (r, s', evs).
Proof.
  destruct (Create (FW:=bench_file) 0 all_enabled good_disk) as [s|] eqn:E;
    [| vm_compute in E; discriminate E].
  exists s. split; [reflexivity |].
  apply operations_are_defined.
  exact (reachable_Create (FW:=bench_file) 0 all_enabled good_disk E).
Defined.

(** ** The frame after a stage that fails *)

(** The frame is handed over by a pointer that is not const.  With a buffer
    that works in the payload of the frame and components that change the
    samples, the frame that a failed [ProcessStream] leaves holds what the
    stages before the failure made of it, and [AnalyzeReverseStream]
    changes the frame although it never writes the buffer back. *)
Lemma frame_changed_by_the_stages :
  (exists s' evs,
     ProcessStream (PC:=raising_components) (Some bench_frame)
       (bench_apm noise_suppression_fails closed_disk)
     = Some ((kOtherError (-1),
              Some (mkAudioFrame 16000 1 160 (repeat 10 160))), s', evs))
  /\ (exists s' evs,
        AnalyzeReverseStream (PC:=raising_components) (Some bench_frame)
          (bench_apm all_ok closed_disk)
        = Some ((kNoError,
                 Some (mkAudioFrame 16000 1 160 (repeat 10 160))), s', evs)).
Proof.
  split; eexists; eexists; vm_compute; reflexivity.
Qed.
